(** * what-is-the-code: analysis orchestration, caching and retry

    A shallow embedding of the parts of the extension that its
    specification describes in detail:

    - [Retry]        the retry utility with exponential backoff
    - [Orchestrator] extension.ts: result cache, busy flag, analyzeCode,
                     and calls of analyzeCode that overlap
    - [Summarizer]   codeAnalyzer.ts: validation of the structured
                     response, heuristic risks and categories
    - [Reviews]      githubAnalyzer.ts: pull-request records
    - [History]      the git analyzer: ownership statistics

    Conventions.  JavaScript numbers that hold counts, line numbers and
    millisecond timestamps are integers here ([Z]); the one quotient of
    the program (the ownership percentage) is computed in double
    precision, by the rounding [fl] on rationals.  A string is a
    sequence of 8-bit characters, of which those below 128 are the
    ASCII characters; what lies outside ASCII is left to the host: the
    builtins whose result depends on the Unicode tables or on the
    platform ([toLowerCase], [trim], [path.basename]) are the functions
    of a [Host].  Values parsed from JSON are terms of [json], with
    integers for numbers.  The records follow the interfaces of
    types.ts, with the fields that the functions here write. *)

From Stdlib Require Import ZArith QArith Qround Qpower Lia Lqa Ascii List Sorting.Sorted
  Permutation.
From stdpp Require Import base gmap strings list pretty.

(** ** JavaScript strings and values *)

Module Js.

(** [String.prototype.includes] *)
Fixpoint includes (s sub : string) : bool :=
  String.prefix sub s ||
  match s with
  | EmptyString => false
  | String _ s' => includes s' sub
  end.

(** *** ASCII text

    On text of ASCII characters the builtins are these functions: the
    fold of the letters A to Z, and the removal of the ASCII white
    space at the ends. *)
Definition ascii_char (c : ascii) : bool := (Ascii.N_of_ascii c <? 128)%N.

Fixpoint ascii_text (s : string) : bool :=
  match s with
  | EmptyString => true
  | String c s' => ascii_char c && ascii_text s'
  end.

Definition lower_char (c : ascii) : ascii :=
  let n := Ascii.N_of_ascii c in
  if ((65 <=? n) && (n <=? 90))%N then Ascii.ascii_of_N (n + 32) else c.

Fixpoint lower (s : string) : string :=
  match s with
  | EmptyString => EmptyString
  | String c s' => String (lower_char c) (lower s')
  end.

Definition is_space (c : ascii) : bool :=
  let n := Ascii.N_of_ascii c in
  ((n =? 32) || ((9 <=? n) && (n <=? 13)))%N.

Fixpoint stripStart (s : string) : string :=
  match s with
  | EmptyString => EmptyString
  | String c s' => if is_space c then stripStart s' else s
  end.

(** Drops the white space at the end: a character is kept when it is
    not a space or when something is kept after it. *)
Fixpoint stripEnd (s : string) : string :=
  match s with
  | EmptyString => EmptyString
  | String c s' =>
      match stripEnd s' with
      | EmptyString => if is_space c then EmptyString else String c EmptyString
      | t => String c t
      end
  end.

Definition strip (s : string) : string := stripEnd (stripStart s).

(** [path.posix.basename]: the last segment between slashes that is
    not empty.  [cur] is the segment being read and [best] the last one
    completed. *)
Fixpoint last_segment (p cur best : string) : string :=
  match p with
  | EmptyString => if String.eqb cur "" then best else cur
  | String c p' =>
      if Ascii.eqb c "/"%char then
        last_segment p' "" (if String.eqb cur "" then best else cur)
      else last_segment p' (cur +:+ String c EmptyString) best
  end.

Definition posix_basename (p : string) : string := last_segment p "" "".

(** *** The host

    [String.prototype.toLowerCase] and [trim] follow the Unicode
    tables, the white space that [parseInt] skips is that of [trim],
    and [path.basename] is that of the platform (on Windows it splits
    at both slashes and drops a drive).  They are functions of the
    host.  What is assumed of [toLowerCase] holds on every host: on
    ASCII text it is [lower], and in any text an ASCII word is mapped
    character by character, whatever surrounds it, so that a text that
    contains the word contains its lower case afterwards. *)
Class Host : Type := {
  toLowerCase : string -> string;
  trim : string -> string;
  trimStart : string -> string;
  basename : string -> string;
  toLowerCase_ascii : forall s, ascii_text s = true -> toLowerCase s = lower s;
  toLowerCase_keeps : forall s word,
    ascii_text word = true -> includes s word = true ->
    includes (toLowerCase s) (lower word) = true
}.

(** The host of the samples.  Their texts are ASCII and their paths
    are POSIX paths: on these it does what Node.js does on a POSIX
    platform. *)
Definition posix_ascii : Host.
Proof.
  refine {| toLowerCase := lower; trim := strip; trimStart := stripStart;
            basename := posix_basename |}.
  - reflexivity.
  - intros s word _.
    assert (Hprefix : forall w t,
              String.prefix w t = true -> String.prefix (lower w) (lower t) = true).
    { induction w as [| c w IH]; intros [| d t] Hp; simpl in *; try reflexivity;
        try discriminate.
      destruct (Ascii.ascii_dec c d) as [-> | _]; [| discriminate].
      destruct (Ascii.ascii_dec (lower_char d) (lower_char d)); [now apply IH | contradiction]. }
    induction s as [| c s IH]; cbn [includes lower]; intros Hi.
    + rewrite orb_false_r in Hi |- *. exact (Hprefix word EmptyString Hi).
    + apply orb_true_iff in Hi. apply orb_true_iff. destruct Hi as [Hp | Hi].
      * left. exact (Hprefix word (String c s) Hp).
      * right. now apply IH.
Defined.

(** The lower case of the ASCII texts that the code writes out, on
    every host *)
Ltac lower_literals :=
  repeat match goal with
         | |- context [toLowerCase ?s] => rewrite (toLowerCase_ascii s) by reflexivity
         end.

(** A value as [JSON.parse] builds it, and [undefined] for what a
    property access gives when the property is absent. *)
#[local] Unset Elimination Schemes.
Inductive json : Type :=
| JUndefined
| JNull
| JBool (b : bool)
| JNum (n : Z)
| JStr (s : string)
| JArr (items : list json)
| JObj (fields : list (string * json)).
#[local] Set Elimination Schemes.

(** ToBoolean *)
Definition truthy (v : json) : bool :=
  match v with
  | JUndefined | JNull => false
  | JBool b => b
  | JNum n => negb (n =? 0)%Z
  | JStr s => negb (String.eqb s "")
  | JArr _ | JObj _ => true
  end.

(** [a || b] *)
Definition or_else (a b : json) : json := if truthy a then a else b.

Fixpoint assoc (k : string) (fields : list (string * json)) : json :=
  match fields with
  | [] => JUndefined
  | (k', v) :: rest => if String.eqb k k' then v else assoc k rest
  end.

(** [v.k] for a key [k] that no prototype defines: a TypeError ([None])
    on [null] and [undefined], the field of an object, and [undefined]
    on everything else. *)
Definition prop (v : json) (k : string) : option json :=
  match v with
  | JUndefined | JNull => None
  | JObj fields => Some (assoc k fields)
  | _ => Some JUndefined
  end.

(** [Array.isArray] *)
Definition isArray (v : json) : bool :=
  match v with JArr _ => true | _ => false end.

(** [Array.prototype.sort] with the comparator [(a, b) => key a - key b]:
    the sort is stable.  Insertion sort from the right: an element
    goes before the first one of those after it whose key is not
    smaller, so that equal keys keep their order. *)
Section Sort.
Context {A : Type} (key : A -> Z).

Fixpoint insert_by (x : A) (l : list A) : list A :=
  match l with
  | [] => [x]
  | y :: l' => if (key y <? key x)%Z then y :: insert_by x l' else x :: l
  end.

Definition sort_by (l : list A) : list A := foldr insert_by [] l.
End Sort.

End Js.

(** ** The retry utility (utils/retry) *)

Module Retry.
Import Js.
Local Open Scope Z_scope.

(** A JavaScript [Error], of which the utility reads the message. *)
Record Error : Type := mkError { message : string }.

(** What [catch (error)] receives: an [Error], or any other value, of
    which [String(error)] is kept. *)
Inductive thrown : Type :=
| ThrownError (e : Error)
| ThrownValue (repr : string).

(** [error instanceof Error ? error : new Error(String(error))] *)
Definition toError (t : thrown) : Error :=
  match t with
  | ThrownError e => e
  | ThrownValue repr => mkError repr
  end.

(** [RetryOptions] as a caller passes it: every field is optional
    ([None] is a field that is absent).  The observer [onRetry] only
    reports; its calls are recorded in the trace. *)
Record RetryOptions : Type := {
  opt_maxAttempts : option Z;
  opt_initialDelayMs : option Z;
  opt_maxDelayMs : option Z;
  opt_backoffMultiplier : option Z;
  opt_retryableErrors : option (Error -> bool)
}.

(** [Required<RetryOptions>]: the options the loop reads, [opts] *)
Record Policy : Type := {
  maxAttempts : Z;
  initialDelayMs : Z;
  maxDelayMs : Z;
  backoffMultiplier : Z;
  retryableErrors : Error -> bool
}.

Section Defaults.
Context {host : Host}.

Definition defaultRetryable (error : Error) : bool :=
  let message := toLowerCase (message error) in
  includes message "timeout" ||
  includes message "rate limit" ||
  includes message "econnreset" ||
  includes message "enotfound" ||
  includes message "socket hang up" ||
  includes message "overloaded" ||
  includes message "503" ||
  includes message "529".

Definition defaultOptions : Policy := {|
  maxAttempts := 3;
  initialDelayMs := 1000;
  maxDelayMs := 10000;
  backoffMultiplier := 2;
  retryableErrors := defaultRetryable
|}.
End Defaults.

(** [{ ...defaultOptions, ...options }] *)
Definition merge (d : Policy) (o : RetryOptions) : Policy := {|
  maxAttempts := default (maxAttempts d) (opt_maxAttempts o);
  initialDelayMs := default (initialDelayMs d) (opt_initialDelayMs o);
  maxDelayMs := default (maxDelayMs d) (opt_maxDelayMs o);
  backoffMultiplier := default (backoffMultiplier d) (opt_backoffMultiplier o);
  retryableErrors := default (retryableErrors d) (opt_retryableErrors o)
|}.

Definition noOptions : RetryOptions :=
  Build_RetryOptions None None None None None.

(** What an observer of [withRetry] sees, in order. *)
Inductive event : Type :=
| Invoke (attempt : Z)
| OnRetry (error : Error) (attempt : Z)
| Sleep (ms : Z).

(** Readings of a trace: how often the operation was invoked, and how
    long each sleep was. *)
Fixpoint count_invokes (tr : list event) : Z :=
  match tr with
  | [] => 0
  | Invoke _ :: tr' => 1 + count_invokes tr'
  | _ :: tr' => count_invokes tr'
  end.

Fixpoint sleeps (tr : list event) : list Z :=
  match tr with
  | [] => []
  | Sleep ms :: tr' => ms :: sleeps tr'
  | _ :: tr' => sleeps tr'
  end.

Section WithRetry.
(** The operation [fn] acts on a world [W]; it resolves with a [T] or
    rejects. *)
Context {host : Host} {W T : Type}.
Variable fn : W -> (thrown + T) * W.

Record run : Type := mkRun {
  outcome : Error + T;     (* rejected with / resolved with *)
  world : W;
  trace : list event
}.

Definition after (evs : list event) (r : option run) : option run :=
  match r with
  | Some r => Some (mkRun (outcome r) (world r) (evs ++ trace r))
  | None => None
  end.

(** The [for] loop, entered at its condition.  [fuel] bounds the
    number of iterations; [None] is a loop that needs more. *)
Fixpoint attempts (opts : Policy) (fuel : nat) (attempt delay : Z)
    (lastError : Error) (w : W) : option run :=
  if attempt <=? maxAttempts opts then
    match fuel with
    | O => None
    | S fuel' =>
        match fn w with
        | (inr v, w') => Some (mkRun (inr v) w' [Invoke attempt])
        | (inl error, w') =>
            let lastError := toError error in
            let isLastAttempt := attempt =? maxAttempts opts in
            let isRetryable := retryableErrors opts lastError in
            if isLastAttempt || negb isRetryable then
              Some (mkRun (inl lastError) w' [Invoke attempt])
            else
              after [Invoke attempt; OnRetry lastError attempt; Sleep delay]
                (attempts opts fuel' (attempt + 1)
                   (Z.min (delay * backoffMultiplier opts) (maxDelayMs opts))
                   lastError w')
        end
    end
  else Some (mkRun (inl lastError) w []).

Definition withRetry (options : RetryOptions) (w : W) : option run :=
  let opts := merge defaultOptions options in
  attempts opts (Z.to_nat (maxAttempts opts)) 1 (initialDelayMs opts)
    (mkError "Unknown error") w.

Definition invocations (r : run) : Z := count_invokes (trace r).
Definition delays (r : run) : list Z := sleeps (trace r).

(** The world after [n] invocations that all reject *)
Fixpoint world_after (n : nat) (w : W) : W :=
  match n with
  | O => w
  | S n' => world_after n' (snd (fn w))
  end.
End WithRetry.

(** The delays the loop computes: [d], then [min (d * m) cap], ... *)
Fixpoint backoff (n : nat) (d m cap : Z) : list Z :=
  match n with
  | O => []
  | S n' => d :: backoff n' (Z.min (d * m) cap) m cap
  end.

(** Sample inputs: an operation that times out at every call (its
    world counts the calls), a policy whose first delay is above its
    cap, and a policy without attempts. *)
Definition always_timeout (w : nat) : (thrown + unit) * nat :=
  (inl (ThrownError (mkError "Request timeout")), S w).

Definition steep_options : RetryOptions := {|
  opt_maxAttempts := Some 3;
  opt_initialDelayMs := Some 5000;
  opt_maxDelayMs := Some 1000;
  opt_backoffMultiplier := Some 2;
  opt_retryableErrors := None
|}.

Definition no_attempt_options : RetryOptions := {|
  opt_maxAttempts := Some 0;
  opt_initialDelayMs := None;
  opt_maxDelayMs := None;
  opt_backoffMultiplier := None;
  opt_retryableErrors := None
|}.

End Retry.

(** ** The orchestrator (extension.ts) *)

Module Orchestrator.
Import Js.
Local Open Scope Z_scope.

Section Orchestrator.
(** The results of the three analyzers ([CodeAnalysisResult],
    [GitAnalysisResult] and [GitHubAnalysisResult] of types.ts): the
    orchestrator only passes them on. *)
Context {CodeAnalysis GitAnalysis GitHubAnalysis : Type}.

(** [AnalysisResult] of types.ts: the fields of the request, the three
    analyses, the time of assembly and the two optional cache
    annotations.  [analyzedAt] is the instant in milliseconds: the ISO
    string that [toISOString] prints and [new Date(...).getTime()] reads
    back. *)
Record AnalysisResult : Type := mkResult {
  filePath : string;
  startLine : Z;
  endLine : Z;
  code : string;
  codeAnalysis : CodeAnalysis;
  gitAnalysis : GitAnalysis;
  githubAnalysis : GitHubAnalysis;
  analyzedAt : Z;
  fromCache : option bool;
  cacheAge : option Z
}.

Record CacheEntry : Type := mkEntry {
  result : AnalysisResult;
  codeHash : string;
  timestamp : Z
}.

Record LastAnalysis : Type := mkLast {
  la_filePath : string;
  la_startLine : Z;
  la_endLine : Z;
  la_code : string
}.

(** The variables of the module, and how many times the wall clock
    has been read. *)
Record World : Type := mkWorld {
  analysisCache : gmap string CacheEntry;
  lastAnalysis : option LastAnalysis;
  analysisInProgress : bool;
  analysisCancelled : bool;
  reads : nat
}.

Definition with_cache (c : gmap string CacheEntry) (w : World) : World :=
  mkWorld c (lastAnalysis w) (analysisInProgress w) (analysisCancelled w) (reads w).
Definition with_last (l : option LastAnalysis) (w : World) : World :=
  mkWorld (analysisCache w) l (analysisInProgress w) (analysisCancelled w) (reads w).
Definition with_inProgress (b : bool) (w : World) : World :=
  mkWorld (analysisCache w) (lastAnalysis w) b (analysisCancelled w) (reads w).
Definition with_cancelled (b : bool) (w : World) : World :=
  mkWorld (analysisCache w) (lastAnalysis w) (analysisInProgress w) b (reads w).

(** [crypto.createHash('md5').update(code).digest('hex')] *)
Variable md5 : string -> string.
(** The wall clock: its successive readings, in milliseconds. *)
Variable clock : nat -> Z.

(** [Date.now()], and [new Date()] *)
Definition Date_now (w : World) : Z * World :=
  (clock (reads w),
   mkWorld (analysisCache w) (lastAnalysis w) (analysisInProgress w)
     (analysisCancelled w) (S (reads w))).

Inductive WarningChoice : Type := SetApiKey | ContinueAnyway | Dismissed.

(** What the surroundings answer during one call of [analyzeCode].
    [ReportPanel.createOrShow] renders the report at once and can throw
    (its [_escapeHtml] calls [replace] on what it takes for a string):
    [None] is a call that returns, [Some e] one that throws [e]. *)
Record Env : Type := {
  cacheTtlMinutes : Z;                      (* the setting, 30 by default *)
  claudeApiKey : option string;             (* getClaudeApiKey() *)
  warningChoice : WarningChoice;            (* the answer to the warning *)
  gitAnalyze : string -> Z -> Z -> Retry.thrown + GitAnalysis;
  codeAnalyze : string -> string -> GitAnalysis -> Retry.thrown + CodeAnalysis;
  githubAnalyze : string -> GitAnalysis -> Retry.thrown + GitHubAnalysis;
  createOrShow : AnalysisResult -> option Retry.thrown;
  cancelledDuring : nat -> bool             (* the user cancels while stage 1, 2, 3 runs *)
}.

(** What the user and the collaborators observe.  [CreateOrShow] is
    the call of the panel with a report, whether the panel then shows it
    or throws; [Rejects] is the promise of [analyzeCode] that rejects. *)
Inductive effect : Type :=
| ShowInformationMessage (text : string)
| ShowWarningMessage (text : string)
| ShowErrorMessage (text : string)
| ExecuteCommand (command : string)
| CreateOrShow (report : AnalysisResult)
| GetClaudeApiKey
| Report (message : string)
| GitStage
| CodeStage
| GitHubStage
| Rejects (error : Retry.thrown).

(** The text has two double quotes around the command name. *)
Definition SHOWING_CACHED : string :=
  "Showing cached analysis result. Use "
  +:+ String (Ascii.ascii_of_N 34) "What is the Code: Refresh"
  +:+ String (Ascii.ascii_of_N 34) " for fresh analysis.".

(** [{ ...cachedResult, fromCache: true, cacheAge }] *)
Definition withCacheInfo (cachedResult : AnalysisResult) (age : Z) : AnalysisResult :=
  mkResult (filePath cachedResult) (startLine cachedResult) (endLine cachedResult)
    (code cachedResult) (codeAnalysis cachedResult) (gitAnalysis cachedResult)
    (githubAnalysis cachedResult) (analyzedAt cachedResult)
    (Some true) (Some age).

Definition getCacheTtlMs (env : Env) : Z := cacheTtlMinutes env * 60 * 1000.

Definition getCacheKey (filePath : string) (startLine endLine : Z) : string :=
  filePath +:+ ":" +:+ pretty startLine +:+ ":" +:+ pretty endLine.

Definition getCodeHash (code : string) : string := md5 code.

Definition getCachedResult (env : Env) (filePath : string) (startLine endLine : Z)
    (code : string) (w : World) : option AnalysisResult * World :=
  let key := getCacheKey filePath startLine endLine in
  match analysisCache w !! key with
  | None => (None, w)
  | Some entry =>
      let codeHash' := getCodeHash code in
      let '(now, w) := Date_now w in
      let isExpired := now - timestamp entry >? getCacheTtlMs env in
      let codeChanged := negb (String.eqb (codeHash entry) codeHash') in
      if isExpired || codeChanged then
        (None, with_cache (delete key (analysisCache w)) w)
      else (Some (result entry), w)
  end.

Definition setCachedResult (filePath : string) (startLine endLine : Z)
    (code : string) (result : AnalysisResult) (w : World) : World :=
  let key := getCacheKey filePath startLine endLine in
  let '(now, w) := Date_now w in
  with_cache (<[key := mkEntry result (getCodeHash code) now]> (analysisCache w)) w.

(** An awaited stage: while it runs the user may cancel, which sets
    [analysisCancelled] and shows a message. *)
Definition awaited (env : Env) (stage : nat) (w : World) : list effect * World :=
  if cancelledDuring env stage then
    ([ShowInformationMessage "Analysis cancelled."], with_cancelled true w)
  else ([], w).

(** The [try] block of the progress callback.  [inl] is an exception
    on its way to [catch]; [inr] is the end of the block or a
    [return] inside it. *)
Definition stages (env : Env) (filePath : string) (startLine endLine : Z)
    (code : string) (w : World) : list effect * (Retry.thrown + unit) * World :=
  if analysisCancelled w then ([], inr tt, with_inProgress false w) else
  let '(c1, w) := awaited env 1 w in
  match gitAnalyze env filePath startLine endLine with
  | inl e => ([Report "Fetching git history..."; GitStage] ++ c1, inl e, w)
  | inr gitAnalysis =>
  let ev1 := [Report "Fetching git history..."; GitStage] ++ c1 in
  if analysisCancelled w then (ev1, inr tt, with_inProgress false w) else
  let '(c2, w) := awaited env 2 w in
  match codeAnalyze env code filePath gitAnalysis with
  | inl e => (ev1 ++ [Report "Analyzing code with Claude AI..."; CodeStage] ++ c2, inl e, w)
  | inr codeAnalysis =>
  let ev2 := ev1 ++ [Report "Analyzing code with Claude AI..."; CodeStage] ++ c2 in
  if analysisCancelled w then (ev2, inr tt, with_inProgress false w) else
  let '(c3, w) := awaited env 3 w in
  match githubAnalyze env filePath gitAnalysis with
  | inl e => (ev2 ++ [Report "Fetching GitHub PRs..."; GitHubStage] ++ c3, inl e, w)
  | inr githubAnalysis =>
  let ev3 := ev2 ++ [Report "Fetching GitHub PRs..."; GitHubStage] ++ c3 in
  if analysisCancelled w then (ev3, inr tt, with_inProgress false w) else
  let '(now, w) := Date_now w in
  let result := mkResult filePath startLine endLine code
                  codeAnalysis gitAnalysis githubAnalysis now None None in
  let w := setCachedResult filePath startLine endLine code result w in
  match createOrShow env result with
  | Some e => (ev3 ++ [Report "Generating report..."; CreateOrShow result], inl e, w)
  | None => (ev3 ++ [Report "Generating report..."; CreateOrShow result], inr tt, w)
  end
  end end end.

(** [error instanceof Error ? error.message : 'Unknown error'] *)
Definition errorMessageOf (error : Retry.thrown) : string :=
  match error with
  | Retry.ThrownError e => Retry.message e
  | Retry.ThrownValue _ => "Unknown error"
  end.

(** The [catch] block: nothing after a cancellation, and the message
    of the error otherwise. *)
Definition caught (error : Retry.thrown) (w : World) : list effect :=
  if analysisCancelled w then []
  else [ShowErrorMessage ("Analysis failed" +:+ ": " +:+ errorMessageOf error)].

(** What is shown after the panel has been given a fresh report:
    nothing more when the panel returns, the error message when it
    throws. *)
Definition after_panel (env : Env) (report : AnalysisResult) : list effect :=
  match createOrShow env report with
  | None => []
  | Some e => [ShowErrorMessage ("Analysis failed" +:+ ": " +:+ errorMessageOf e)]
  end.

(** What is shown after the panel has been given a cached report: the
    notice when the panel returns; when it throws, the call rejects. *)
Definition after_cached (env : Env) (report : AnalysisResult) : list effect :=
  match createOrShow env report with
  | None => [ShowInformationMessage SHOWING_CACHED]
  | Some e => [Rejects e]
  end.

(** The callback given to [withProgress]: [try], [catch], [finally]. *)
Definition progress (env : Env) (filePath : string) (startLine endLine : Z)
    (code : string) (w : World) : list effect * World :=
  let w := with_cancelled false (with_inProgress true w) in
  let '(evs, r, w) := stages env filePath startLine endLine code w in
  let evs :=
    match r with
    | inr _ => evs
    | inl error => evs ++ caught error w
    end in
  (evs, with_inProgress false w).

(** [analyzeCode], from the call to the end of its promise, when
    nothing else runs between its awaits but the cancellation that
    [cancelledDuring] tells.  The calls that overlap are below. *)
Definition analyzeCode (env : Env) (filePath : string) (startLine endLine : Z)
    (code : string) (forceRefresh : bool) (w : World) : list effect * World :=
  if analysisInProgress w then
    ([ShowInformationMessage "Analysis already in progress. Please wait."], w)
  else
  let w := with_last (Some (mkLast filePath startLine endLine code)) w in
  let '(cachedResult, w) :=
    if forceRefresh then (None, w)
    else getCachedResult env filePath startLine endLine code w in
  match cachedResult with
  | Some cachedResult =>
      let '(now, w) := Date_now w in
      let resultWithCacheInfo :=
        withCacheInfo cachedResult (now - analyzedAt cachedResult) in
      match createOrShow env resultWithCacheInfo with
      | Some e => ([CreateOrShow resultWithCacheInfo; Rejects e], w)
      | None =>
          ([CreateOrShow resultWithCacheInfo;
            ShowInformationMessage SHOWING_CACHED],
           w)
      end
  | None =>
      match claudeApiKey env, warningChoice env with
      | None, SetApiKey =>
          ([GetClaudeApiKey;
            ShowWarningMessage
              "Claude API key not configured. AI analysis will use basic static analysis instead.";
            ExecuteCommand "whatIsTheCode.setClaudeApiKey"], w)
      | None, Dismissed =>
          ([GetClaudeApiKey;
            ShowWarningMessage
              "Claude API key not configured. AI analysis will use basic static analysis instead."],
           w)
      | None, ContinueAnyway =>
          let '(evs, w) := progress env filePath startLine endLine code w in
          ([GetClaudeApiKey;
            ShowWarningMessage
              "Claude API key not configured. AI analysis will use basic static analysis instead."]
             ++ evs, w)
      | Some _, _ =>
          let '(evs, w) := progress env filePath startLine endLine code w in
          (GetClaudeApiKey :: evs, w)
      end
  end.

(** *** Calls that overlap

    [analyzeCode] is an async function: a call runs up to its first
    [await] when it is made, and goes on by one segment each time the
    promise it awaits settles.  Between two segments the other calls
    and the cancellation handler run, on the same variables of the
    module.  A [Point] is the [await] at which a call is suspended. *)
Inductive Point : Type :=
| AwaitsKey                    (* await getClaudeApiKey() *)
| AwaitsWarning                (* await showWarningMessage(...) *)
| AwaitsProgress               (* await withProgress(...), the callback not yet entered *)
| AwaitsGit                    (* in the callback: await gitAnalyzer.analyze(...) *)
| AwaitsCode (gitAnalysis : GitAnalysis)
| AwaitsGitHub (gitAnalysis : GitAnalysis) (codeAnalysis : CodeAnalysis)
| Returned.

(** The segment that the call itself runs: the test of the flag, the
    note of the request, the lookup, and the call of
    [getClaudeApiKey]. *)
Definition enter (env : Env) (filePath : string) (startLine endLine : Z)
    (code : string) (forceRefresh : bool) (w : World) : list effect * Point * World :=
  if analysisInProgress w then
    ([ShowInformationMessage "Analysis already in progress. Please wait."], Returned, w)
  else
  let w := with_last (Some (mkLast filePath startLine endLine code)) w in
  let '(cachedResult, w) :=
    if forceRefresh then (None, w)
    else getCachedResult env filePath startLine endLine code w in
  match cachedResult with
  | Some cachedResult =>
      let '(now, w) := Date_now w in
      let resultWithCacheInfo :=
        withCacheInfo cachedResult (now - analyzedAt cachedResult) in
      match createOrShow env resultWithCacheInfo with
      | Some e => ([CreateOrShow resultWithCacheInfo; Rejects e], Returned, w)
      | None =>
          ([CreateOrShow resultWithCacheInfo;
            ShowInformationMessage SHOWING_CACHED],
           Returned, w)
      end
  | None => ([GetClaudeApiKey], AwaitsKey, w)
  end.

(** The segment that runs when the promise awaited at [p] settles.  The
    flag is raised in the segment that enters the callback, and released
    in the segment that leaves it. *)
Definition resume (env : Env) (filePath : string) (startLine endLine : Z)
    (code : string) (p : Point) (w : World) : list effect * Point * World :=
  match p with
  | AwaitsKey =>
      match claudeApiKey env with
      | Some _ => ([], AwaitsProgress, w)
      | None =>
          ([ShowWarningMessage
              "Claude API key not configured. AI analysis will use basic static analysis instead."],
           AwaitsWarning, w)
      end
  | AwaitsWarning =>
      match warningChoice env with
      | SetApiKey => ([ExecuteCommand "whatIsTheCode.setClaudeApiKey"], Returned, w)
      | Dismissed => ([], Returned, w)
      | ContinueAnyway => ([], AwaitsProgress, w)
      end
  | AwaitsProgress =>
      let w := with_cancelled false (with_inProgress true w) in
      if analysisCancelled w then ([], Returned, with_inProgress false w)
      else ([Report "Fetching git history..."; GitStage], AwaitsGit, w)
  | AwaitsGit =>
      match gitAnalyze env filePath startLine endLine with
      | inl e => (caught e w, Returned, with_inProgress false w)
      | inr gitAnalysis =>
          if analysisCancelled w then ([], Returned, with_inProgress false w)
          else ([Report "Analyzing code with Claude AI..."; CodeStage],
                AwaitsCode gitAnalysis, w)
      end
  | AwaitsCode gitAnalysis =>
      match codeAnalyze env code filePath gitAnalysis with
      | inl e => (caught e w, Returned, with_inProgress false w)
      | inr codeAnalysis =>
          if analysisCancelled w then ([], Returned, with_inProgress false w)
          else ([Report "Fetching GitHub PRs..."; GitHubStage],
                AwaitsGitHub gitAnalysis codeAnalysis, w)
      end
  | AwaitsGitHub gitAnalysis codeAnalysis =>
      match githubAnalyze env filePath gitAnalysis with
      | inl e => (caught e w, Returned, with_inProgress false w)
      | inr githubAnalysis =>
          if analysisCancelled w then ([], Returned, with_inProgress false w)
          else
            let '(now, w) := Date_now w in
            let result := mkResult filePath startLine endLine code
                            codeAnalysis gitAnalysis githubAnalysis now None None in
            let w := setCachedResult filePath startLine endLine code result w in
            match createOrShow env result with
            | Some e =>
                ([Report "Generating report..."; CreateOrShow result] ++ caught e w,
                 Returned, with_inProgress false w)
            | None =>
                ([Report "Generating report..."; CreateOrShow result],
                 Returned, with_inProgress false w)
            end
      end
  | Returned => ([], Returned, w)
  end.

(** A request with the answers that its call will get, a call, and the
    extension with the calls made so far. *)
Record Request : Type := mkRequest {
  rq_env : Env;
  rq_filePath : string;
  rq_startLine : Z;
  rq_endLine : Z;
  rq_code : string;
  rq_forceRefresh : bool
}.

Record Call : Type := mkCall {
  request : Request;
  point : Point
}.

Record System : Type := mkSystem {
  calls : list Call;
  shared : World;
  observed : list effect
}.

(** What happens next: a command calls [analyzeCode], the promise that
    call [i] awaits settles, or the user cancels the progress
    notification of call [i]. *)
Inductive Event : Type :=
| Arrives (r : Request)
| Settles (i : nat)
| Cancels (i : nat).

(** An analysis is in flight while its call is inside the progress
    callback. *)
Definition in_flight (c : Call) : bool :=
  match point c with
  | AwaitsGit | AwaitsCode _ | AwaitsGitHub _ _ => true
  | _ => false
  end.

Definition handle (s : System) (ev : Event) : System :=
  match ev with
  | Arrives r =>
      let '(evs, p, w) :=
        enter (rq_env r) (rq_filePath r) (rq_startLine r) (rq_endLine r) (rq_code r)
          (rq_forceRefresh r) (shared s) in
      mkSystem (calls s ++ [mkCall r p]) w (observed s ++ evs)
  | Settles i =>
      match calls s !! i with
      | Some c =>
          let r := request c in
          let '(evs, p, w) :=
            resume (rq_env r) (rq_filePath r) (rq_startLine r) (rq_endLine r) (rq_code r)
              (point c) (shared s) in
          mkSystem (<[i := mkCall r p]> (calls s)) w (observed s ++ evs)
      | None => s
      end
  | Cancels i =>
      match calls s !! i with
      | Some c =>
          if in_flight c then
            mkSystem (calls s) (with_cancelled true (shared s))
              (observed s ++ [ShowInformationMessage "Analysis cancelled."])
          else s
      | None => s
      end
  end.

Definition run (s : System) (evs : list Event) : System := foldl handle s evs.

Definition analyses_in_flight (s : System) : nat :=
  length (List.filter in_flight (calls s)).

(** The extension before any call *)
Definition idle (w : World) : System := mkSystem [] w [].

(** Whether the user cancels while the call waits at [p], as
    [cancelledDuring] tells it for the three stages. *)
Definition cancels (env : Env) (p : Point) : bool :=
  match p with
  | AwaitsGit => cancelledDuring env 1
  | AwaitsCode _ => cancelledDuring env 2
  | AwaitsGitHub _ _ => cancelledDuring env 3
  | _ => false
  end.

(** Call [i] taken to its end with nothing else in between: its
    promises settle one after the other, and the user cancels where
    [cancelledDuring] says. *)
Fixpoint settle (fuel : nat) (i : nat) (s : System) : System :=
  match fuel with
  | O => s
  | S fuel' =>
      match calls s !! i with
      | Some c =>
          match point c with
          | Returned => s
          | p =>
              let s := if cancels (rq_env (request c)) p then handle s (Cancels i) else s in
              settle fuel' i (handle s (Settles i))
          end
      | None => s
      end
  end.
End Orchestrator.

Arguments AnalysisResult : clear implicits.
Arguments CacheEntry : clear implicits.
Arguments World : clear implicits.
Arguments Env : clear implicits.
Arguments effect : clear implicits.
Arguments Point : clear implicits.
Arguments Request : clear implicits.
Arguments Call : clear implicits.
Arguments System : clear implicits.
Arguments Event : clear implicits.

(** What a run of the three stages reports before it shows the result. *)
Definition stage_effects {C G H} : list (effect C G H) :=
  [Report "Fetching git history..."; GitStage;
   Report "Analyzing code with Claude AI..."; CodeStage;
   Report "Fetching GitHub PRs..."; GitHubStage;
   Report "Generating report..."].

(** The world moved on by [n] readings of the clock made elsewhere. *)
Definition later {C G H} (n : nat) (w : World C G H) : World C G H :=
  mkWorld (analysisCache w) (lastAnalysis w) (analysisInProgress w)
    (analysisCancelled w) (n + reads w).

(** Sample inputs.  The analyzers answer with [tt]; the digest is the
    text itself, under which equal texts have equal digests; the clock
    shows 0 until its second reading and 1 800 000 ms (30 minutes)
    from then on. *)
Definition sample_md5 (code : string) : string := code.

Definition sample_clock (n : nat) : Z := if (n <? 2)%nat then 0 else 1800000.

Definition sample_env : Env unit unit unit := {|
  cacheTtlMinutes := 30;
  claudeApiKey := Some "sk-sample";
  warningChoice := Dismissed;
  gitAnalyze := fun _ _ _ => inr tt;
  codeAnalyze := fun _ _ _ => inr tt;
  githubAnalyze := fun _ _ => inr tt;
  createOrShow := fun _ => None;
  cancelledDuring := fun _ => false
|}.

(** The surroundings of the sample with a panel that throws, as it
    does on a report whose text fields are not strings. *)
Definition panel_error : Retry.thrown :=
  Retry.ThrownError (Retry.mkError "text.replace is not a function").

Definition throwing_env : Env unit unit unit := {|
  cacheTtlMinutes := 30;
  claudeApiKey := Some "sk-sample";
  warningChoice := Dismissed;
  gitAnalyze := fun _ _ _ => inr tt;
  codeAnalyze := fun _ _ _ => inr tt;
  githubAnalyze := fun _ _ => inr tt;
  createOrShow := fun _ => Some panel_error;
  cancelledDuring := fun _ => false
|}.


(** Two requests of the sample surroundings *)
Definition first_request : Request unit unit unit :=
  mkRequest sample_env "a.ts" 1 2 "let x = 1;" false.

Definition second_request : Request unit unit unit :=
  mkRequest sample_env "b.ts" 3 4 "let y = 2;" false.

Definition sample_result : AnalysisResult unit unit unit :=
  mkResult "a.ts" 1 2 "let x = 1;" tt tt tt 0 None None.

Definition empty_world : World unit unit unit :=
  mkWorld ∅ None false false 0.

(** The cache holds [sample_result], stored at time 0; two readings of
    the clock have been made. *)
Definition cached_world : World unit unit unit :=
  mkWorld {[ getCacheKey "a.ts" 1 2 := mkEntry sample_result (sample_md5 "let x = 1;") 0 ]}
    (Some (mkLast "a.ts" 1 2 "let x = 1;")) false false 2.

(** An analysis is running. *)
Definition busy_world : World unit unit unit :=
  mkWorld ∅ (Some (mkLast "a.ts" 1 2 "let x = 1;")) true false 0.

End Orchestrator.

(** ** The purpose summarizer (analyzer/codeAnalyzer.ts) *)

Module Summarizer.
Import Js.
Local Open Scope Z_scope.

(** [valid.includes(v) ? v : fallback] *)
Definition one_of (valid : list string) (fallback : string) (v : json) : string :=
  match v with
  | JStr s => if bool_decide (s ∈ valid) then s else fallback
  | _ => fallback
  end.

Definition validCategories : list string :=
  ["business-logic"; "ui-ux"; "data-access"; "state-management"; "routing";
   "authentication"; "authorization";
   "validation"; "data-transform"; "search";
   "api-client"; "real-time"; "notification"; "event-system";
   "ai-ml";
   "payment"; "analytics";
   "file-handling";
   "animation"; "theming"; "accessibility"; "localization";
   "infrastructure"; "middleware"; "observability"; "scheduling"; "migration";
   "security"; "rate-limiting";
   "testing"; "utility"; "performance"; "feature-flag"; "legacy";
   "geolocation"; "unknown"].

Definition validateMainPurposeCategory (category : json) : string :=
  one_of validCategories "unknown" category.

Definition validTypes : list string :=
  ["function"; "class"; "component"; "module"; "configuration"; "test"; "utility"; "api";
   "unknown"].

Definition validateCodeType (type : json) : string := one_of validTypes "unknown" type.

Definition validLevels : list string := ["low"; "medium"; "high"; "very-high"].

Definition validateComplexity (complexity : json) : string :=
  one_of validLevels "medium" complexity.

(** [RiskAssessment] of types.ts.  The description and the
    recommendation are declared strings; [validateRisks] passes on what
    the response holds. *)
Record RiskAssessment : Type := mkRisk {
  level : string;
  description : json;
  recommendation : json
}.

Definition noRisk : RiskAssessment :=
  mkRisk "low" (JStr "No specific risks identified")
    (JStr "Standard testing practices should be sufficient").

Definition validateRisk (risk : json) : option RiskAssessment :=
  l ← prop risk "level";
  d ← prop risk "description";
  r ← prop risk "recommendation";
  Some (mkRisk (one_of ["low"; "medium"; "high"; "critical"] "medium" l)
          (or_else d (JStr "Risk identified"))
          (or_else r (JStr "Review carefully before changes"))).

(** [None] is the TypeError of reading a property of [null]. *)
Definition validateRisks (risks : json) : option (list RiskAssessment) :=
  match risks with
  | JArr items => mapM validateRisk items
  | _ => Some [noRisk]
  end.

(** The element of the list [validateSuggestedTests] returns, as its
    signature declares it (the fields [type] and [description] are
    [test_type] and [test_description] here). *)
Record SuggestedTest : Type := mkTest {
  test_type : string;
  test_description : json;
  priority : string;
  reason : json
}.

Definition validateTest (test : json) : option SuggestedTest :=
  t ← prop test "type";
  d ← prop test "description";
  p ← prop test "priority";
  r ← prop test "reason";
  Some (mkTest (one_of ["unit"; "integration"; "e2e"; "manual"] "unit" t)
          (or_else d (JStr "Test case"))
          (one_of ["high"; "medium"; "low"] "medium" p)
          (or_else r JUndefined)).

Section Host.
Context {host : Host}.

(** [test.description.toLowerCase().trim()]: a TypeError unless the
    description is a string. *)
Definition normalized (test : SuggestedTest) : option string :=
  match test_description test with
  | JStr s => Some (trim (toLowerCase s))
  | _ => None
  end.

(** The key of the duplicate filter *)
Definition test_key (test : SuggestedTest) : option string :=
  n ← normalized test; Some (test_type test +:+ ":" +:+ n).

(** The filter on [seen]: a test is kept when its key is new. *)
Fixpoint unique (seen : gset string) (tests : list SuggestedTest) :
    option (list SuggestedTest) :=
  match tests with
  | [] => Some []
  | test :: rest =>
      key ← test_key test;
      if bool_decide (key ∈ seen) then unique seen rest
      else cons test <$> unique ({[key]} ∪ seen) rest
  end.

Definition priorityOrder (p : string) : Z :=
  if String.eqb p "high" then 0 else if String.eqb p "medium" then 1 else 2.

Definition validateSuggestedTests (tests : json) : option (list SuggestedTest) :=
  match tests with
  | JArr items =>
      validatedTests ← mapM validateTest items;
      uniqueTests ← unique ∅ validatedTests;
      Some (sort_by (fun t => priorityOrder (priority t)) uniqueTests)
  | _ => Some []
  end.

(** [CodeAnalysisResult] of types.ts, with the fields as
    [analyzeWithClaude] and [analyzeStatic] write them. *)
Record CodeAnalysisResult : Type := mkAnalysis {
  purpose : json;
  mainPurposeCategory : string;
  codeType : string;
  complexity : string;
  dependencies : list json;
  exports : list json;
  potentialPurposes : list json;
  whyItExists : json;
  risks : list RiskAssessment;
  suggestedTests : option (list SuggestedTest)   (* absent in the static analysis *)
}.

(** [Array.isArray(v) ? v : []] *)
Definition array_or_empty (v : json) : list json :=
  match v with JArr items => items | _ => [] end.

(** The end of [analyzeWithClaude]: the parsed object, mapped to the
    result with validation.  [analysis] holds the fields of the object
    that [JSON.parse] built. *)
Definition mapAnalysis (analysis : list (string * json)) : option CodeAnalysisResult :=
  risks ← validateRisks (assoc "risks" analysis);
  suggestedTests ← validateSuggestedTests (assoc "suggestedTests" analysis);
  Some {|
    purpose := or_else (assoc "purpose" analysis) (JStr "Unable to determine purpose");
    mainPurposeCategory := validateMainPurposeCategory (assoc "mainPurposeCategory" analysis);
    codeType := validateCodeType (assoc "codeType" analysis);
    complexity := validateComplexity (assoc "complexity" analysis);
    dependencies := array_or_empty (assoc "dependencies" analysis);
    exports := array_or_empty (assoc "exports" analysis);
    potentialPurposes := array_or_empty (assoc "potentialPurposes" analysis);
    whyItExists := or_else (assoc "whyItExists" analysis) JUndefined;
    risks := risks;
    suggestedTests := Some suggestedTests
  |}.

(** The levels of a risk, critical first *)
Definition riskOrder (l : string) : Z :=
  if String.eqb l "critical" then 0
  else if String.eqb l "high" then 1
  else if String.eqb l "medium" then 2
  else 3.

(** [assessRisks] of the static analysis *)
Definition assessRisks (code : string) (complexity : string) (dependencies : list string) :
    list RiskAssessment :=
  let risks := [] in
  let risks :=
    if String.eqb complexity "high" || String.eqb complexity "very-high" then
      risks ++ [mkRisk (if String.eqb complexity "very-high" then "high" else "medium")
                  (JStr "High code complexity makes changes error-prone")
                  (JStr "Consider refactoring into smaller, more focused functions")]
    else risks in
  let risks :=
    if (10 <? length dependencies)%nat then
      risks ++ [mkRisk "medium"
                  (JStr ("High number of dependencies (" +:+ pretty (length dependencies) +:+ ")"))
                  (JStr "Changes may have cascading effects. Review import usage carefully.")]
    else risks in
  let risks :=
    if includes code "window." || includes code "global." || includes code "globalThis." then
      risks ++ [mkRisk "high" (JStr "Modifies global state")
                  (JStr "Global state changes can cause hard-to-debug issues.")]
    else risks in
  let risks :=
    if includes code "eval(" || includes code "innerHTML" then
      risks ++ [mkRisk "critical" (JStr "Potential security vulnerability (eval/innerHTML)")
                  (JStr "These patterns can lead to XSS attacks. Use safer alternatives.")]
    else risks in
  let risks :=
    if (length risks =? 0)%nat then
      risks ++ [mkRisk "low" (JStr "No significant risks detected")
                  (JStr "Standard testing practices should be sufficient for changes.")]
    else risks in
  sort_by (fun r => riskOrder (level r)) risks.

(** [inferMainPurposeCategory] of the static analysis *)
Definition inferMainPurposeCategory (code filePath codeType : string) : string :=
  let fileName := toLowerCase (basename filePath) in
  let lowerCode := toLowerCase code in
  (* Testing *)
  if String.eqb codeType "test" || includes fileName "test" || includes fileName "spec" ||
     includes fileName "mock" || includes fileName "fixture" then "testing"
  (* Authentication *)
  else if includes lowerCode "auth" || includes lowerCode "login" ||
     includes lowerCode "password" || includes lowerCode "token" ||
     includes lowerCode "session" || includes lowerCode "oauth" ||
     includes fileName "auth" || includes fileName "login" then "authentication"
  (* Security *)
  else if includes lowerCode "encrypt" || includes lowerCode "csrf" ||
     includes lowerCode "xss" || includes lowerCode "sanitize" ||
     includes lowerCode "security" then "security"
  (* Infrastructure/Config *)
  else if String.eqb codeType "configuration" || includes fileName "config" ||
     includes fileName "webpack" || includes fileName "babel" ||
     includes fileName "eslint" || includes fileName "docker" ||
     includes fileName "ci" || includes fileName "env" then "infrastructure"
  (* UI/UX *)
  else if String.eqb codeType "component" || includes lowerCode "render" ||
     includes lowerCode "style" || includes lowerCode "animation" ||
     includes lowerCode "css" || includes lowerCode "theme" ||
     includes fileName "component" || includes fileName "view" ||
     includes fileName "page" || includes fileName "style" ||
     includes fileName "ui" then "ui-ux"
  (* Data Access *)
  else if includes lowerCode "fetch" || includes lowerCode "axios" ||
     includes lowerCode "query" || includes lowerCode "database" ||
     includes lowerCode "repository" || includes lowerCode "api" ||
     includes lowerCode "graphql" || includes lowerCode "prisma" ||
     includes lowerCode "mongoose" || includes fileName "api" ||
     includes fileName "service" || includes fileName "repository" then "data-access"
  (* API Client / Integrations *)
  else if includes lowerCode "webhook" || includes lowerCode "stripe" ||
     includes lowerCode "aws" || includes lowerCode "firebase" ||
     includes lowerCode "twilio" || includes lowerCode "slack" ||
     includes fileName "integration" || includes fileName "plugin" then "api-client"
  (* Performance *)
  else if includes lowerCode "cache" || includes lowerCode "memo" ||
     includes lowerCode "lazy" || includes lowerCode "debounce" ||
     includes lowerCode "throttle" || includes lowerCode "optimize" then "performance"
  (* Legacy indicators *)
  else if includes lowerCode "deprecated" || includes lowerCode "todo:" ||
     includes lowerCode "fixme" || includes lowerCode "hack" ||
     includes lowerCode "workaround" || includes lowerCode "legacy" ||
     includes code "var " then "legacy"
  (* Utility *)
  else if String.eqb codeType "utility" || includes fileName "util" ||
     includes fileName "helper" || includes fileName "common" ||
     includes fileName "shared" then "utility"
  (* Business Logic (default for complex logic) *)
  else if String.eqb codeType "class" || String.eqb codeType "function" ||
     String.eqb codeType "module" then "business-logic"
  else "unknown".

(** The chain as the specification words it: the indicators of each
    category, the rules in their order, and the first rule that matches. *)
Section Chain.
Variables code fileName codeType : string.

Definition any_in (s : string) (words : list string) : bool :=
  existsb (includes s) words.

Definition testing_indicator : bool :=
  String.eqb codeType "test" || any_in fileName ["test"; "spec"; "mock"; "fixture"].
Definition authentication_indicator : bool :=
  any_in (toLowerCase code) ["auth"; "login"; "password"; "token"; "session"; "oauth"]
  || any_in fileName ["auth"; "login"].
Definition security_indicator : bool :=
  any_in (toLowerCase code) ["encrypt"; "csrf"; "xss"; "sanitize"; "security"].
Definition infrastructure_indicator : bool :=
  String.eqb codeType "configuration"
  || any_in fileName ["config"; "webpack"; "babel"; "eslint"; "docker"; "ci"; "env"].
Definition ui_indicator : bool :=
  String.eqb codeType "component"
  || any_in (toLowerCase code) ["render"; "style"; "animation"; "css"; "theme"]
  || any_in fileName ["component"; "view"; "page"; "style"; "ui"].
Definition data_access_indicator : bool :=
  any_in (toLowerCase code)
    ["fetch"; "axios"; "query"; "database"; "repository"; "api"; "graphql"; "prisma";
     "mongoose"]
  || any_in fileName ["api"; "service"; "repository"].
Definition integration_indicator : bool :=
  any_in (toLowerCase code) ["webhook"; "stripe"; "aws"; "firebase"; "twilio"; "slack"]
  || any_in fileName ["integration"; "plugin"].
Definition performance_indicator : bool :=
  any_in (toLowerCase code) ["cache"; "memo"; "lazy"; "debounce"; "throttle"; "optimize"].
Definition legacy_indicator : bool :=
  any_in (toLowerCase code) ["deprecated"; "todo:"; "fixme"; "hack"; "workaround"; "legacy"]
  || includes code "var ".
Definition utility_indicator : bool :=
  String.eqb codeType "utility" || any_in fileName ["util"; "helper"; "common"; "shared"].
Definition recognizable_shape : bool :=
  String.eqb codeType "class" || String.eqb codeType "function" || String.eqb codeType "module".

Definition category_chain : list (bool * string) :=
  [(testing_indicator, "testing");
   (authentication_indicator, "authentication");
   (security_indicator, "security");
   (infrastructure_indicator, "infrastructure");
   (ui_indicator, "ui-ux");
   (data_access_indicator, "data-access");
   (integration_indicator, "api-client");
   (performance_indicator, "performance");
   (legacy_indicator, "legacy");
   (utility_indicator, "utility");
   (recognizable_shape, "business-logic")].
End Chain.

Fixpoint first_match (rules : list (bool * string)) (otherwise : string) : string :=
  match rules with
  | [] => otherwise
  | (true, category) :: _ => category
  | (false, _) :: rest => first_match rest otherwise
  end.

(** The code types that [detectCodeType] finds by pattern matching on
    the code, after its checks for tests and configuration. *)
Inductive Shape : Type :=
| Component | Class | Api | Utility | Module | Function | Unknown.

Definition shape_name (s : Shape) : string :=
  match s with
  | Component => "component"
  | Class => "class"
  | Api => "api"
  | Utility => "utility"
  | Module => "module"
  | Function => "function"
  | Unknown => "unknown"
  end.

(** The static analysis.  The helpers that work by regular expressions
    are parameters: [codeShape] is the part of [detectCodeType] after
    its first two checks, and the others are the functions of the same
    names.  The result has no [suggestedTests]. *)
Section Static.
Variable codeShape : string -> Shape.
Variable calculateComplexity : string -> string.
Variable extractDependencies : string -> list string.
Variable extractExports : string -> list string.
Variable inferPurposes : string -> string -> string -> list string.
Variable generatePurposeSummary : string -> list string -> string.

Definition detectCodeType (code filePath : string) : string :=
  let fileName := toLowerCase (basename filePath) in
  if includes fileName ".test." || includes fileName ".spec." ||
     includes fileName "_test." || includes code "describe(" && includes code "it(" then "test"
  else
    let configPatterns := ["config"; ".rc"; "settings"; ".json"; ".yaml"; ".yml"; ".toml"] in
    if existsb (fun p => includes fileName p) configPatterns then "configuration"
    else shape_name (codeShape code).

Definition analyzeStatic (code filePath : string) : CodeAnalysisResult :=
  let codeType := detectCodeType code filePath in
  let complexity := calculateComplexity code in
  let dependencies := extractDependencies code in
  let exports := extractExports code in
  let potentialPurposes := inferPurposes code filePath codeType in
  let risks := assessRisks code complexity dependencies in
  let purpose := generatePurposeSummary codeType potentialPurposes in
  let mainPurposeCategory := inferMainPurposeCategory code filePath codeType in
  {|
    purpose := JStr purpose;
    mainPurposeCategory := mainPurposeCategory;
    codeType := codeType;
    complexity := complexity;
    dependencies := map JStr dependencies;
    exports := map JStr exports;
    potentialPurposes := map JStr potentialPurposes;
    whyItExists := JUndefined;
    risks := risks;
    suggestedTests := None
  |}.
End Static.

(** The two components the duplicate filter compares *)
Definition type_and_description (test : SuggestedTest) : string * option string :=
  (test_type test, normalized test).

(** An element of [suggestedTests] whose description the filter can
    read: not [null], and with a description that is a string or falsy. *)
Definition readable (item : json) : bool :=
  match prop item "description" with
  | None => false
  | Some d => match or_else d (JStr "Test case") with JStr _ => true | _ => false end
  end.

Definition critical_first (a b : RiskAssessment) : Prop :=
  (riskOrder (level a) <= riskOrder (level b))%Z.

Definition priority_first (a b : SuggestedTest) : Prop :=
  (priorityOrder (priority a) <= priorityOrder (priority b))%Z.

End Host.

(** Sample responses: risks out of order, and a response without a
    list of risks. *)
Definition unsorted_risks : json :=
  JArr [JObj [("level", JStr "low"); ("description", JStr "naming")];
        JObj [("level", JStr "critical"); ("description", JStr "drops the table")]].

Definition sample_tests : json :=
  JArr [JObj [("type", JStr "unit"); ("description", JStr "  Checks X "); ("priority", JStr "low")];
        JObj [("type", JStr "unit"); ("description", JStr "checks x"); ("priority", JStr "high")];
        JObj [("type", JStr "e2e"); ("description", JStr "checks x"); ("priority", JStr "high")]].

Definition response_without_lists : list (string * json) :=
  [("purpose", JStr "Parses dates"); ("mainPurposeCategory", JStr "parsing");
   ("complexity", JStr "extreme"); ("risks", JStr "none"); ("dependencies", JNull)].

End Summarizer.

(** ** The review-link resolver (analyzer/githubAnalyzer.ts) *)

Module Reviews.
Import Js.

(** [PullRequestInfo] of types.ts, with the fields as
    [getPRsForCommit] writes them: what the response holds is passed on
    without a check of its type. *)
Record PullRequestInfo : Type := mkPR {
  number : json;
  title : json;
  url : json;
  author : json;
  state : json;
  createdAt : json;
  mergedAt : json;
  description : string;
  labels : list json
}.

Definition truncateDescription (description : string) : string :=
  let maxLength := 500%nat in
  if (String.length description <=? maxLength)%nat then description
  else String.substring 0 maxLength description +:+ "...".

(** The record built from one element of the response.  [None] is a
    TypeError ([pr] or a label is [null]), and also a [body] that is
    neither falsy nor a string or [labels] that is neither falsy nor an
    array: those are outside the types the mapping is written for, and
    no record is followed for them. *)
Definition mapPullRequest (pr : json) : option PullRequestInfo :=
  number ← prop pr "number";
  title ← prop pr "title";
  html_url ← prop pr "html_url";
  user ← prop pr "user";
  login ← match user with
          | JUndefined | JNull => Some JUndefined      (* pr.user?.login *)
          | _ => prop user "login"
          end;
  merged_at ← prop pr "merged_at";
  state ← prop pr "state";
  created_at ← prop pr "created_at";
  body ← prop pr "body";
  labels ← prop pr "labels";
  description ← match or_else body (JStr "") with
                | JStr s => Some (truncateDescription s)
                | _ => None
                end;
  names ← match or_else labels (JArr []) with
          | JArr items => mapM (fun l => prop l "name") items
          | _ => None
          end;
  Some {|
    number := number;
    title := title;
    url := html_url;
    author := or_else login (JStr "Unknown");
    state := if truthy merged_at then JStr "merged" else state;
    createdAt := created_at;
    mergedAt := merged_at;
    description := description;
    labels := names
  |}.

(** What [getPRsForCommit] returns for the data of a response: the
    records of an array, and nothing for other data or when the mapping
    throws. *)
Definition recordsOf (data : json) : list PullRequestInfo :=
  match data with
  | JArr prs => default [] (mapM mapPullRequest prs)
  | _ => []
  end.

(** A sample response: a closed pull request that was merged, and an
    open one. *)
Definition sample_response : json :=
  JArr [JObj [("number", JNum 7); ("title", JStr "Fix cache"); ("state", JStr "closed");
              ("merged_at", JStr "2024-05-01T10:00:00Z"); ("body", JNull)];
        JObj [("number", JNum 9); ("title", JStr "Add retry"); ("state", JStr "open");
              ("merged_at", JNull); ("body", JStr "wip")]].

(** The record of the first pull request of the sample *)
Definition merged_record : PullRequestInfo :=
  mkPR (JNum 7) (JStr "Fix cache") JUndefined (JStr "Unknown") (JStr "merged") JUndefined
    (JStr "2024-05-01T10:00:00Z") "" [].

End Reviews.

(** ** The history miner (the git analyzer): ownership *)

Module History.
Import Js.
Local Open Scope Z_scope.

(** [CommitInfo] of types.ts *)
Record CommitInfo : Type := mkCommit {
  hash : string;
  shortHash : string;
  author : string;
  authorEmail : string;
  date : string;
  message : string;
  linesChanged : Z
}.

(** A value of [ownerMap]: a [CodeOwner] of types.ts still without
    its percentage ([linesChanged] is [o_linesChanged] here). *)
Record Owner : Type := mkOwner {
  name : string;
  email : string;
  commits : Z;
  o_linesChanged : Z;
  lastContribution : string
}.

(** [CodeOwner] of types.ts *)
Record CodeOwner : Type := mkCodeOwner {
  owner : Owner;           (* ...owner *)
  percentage : Z
}.

(** [commit.authorEmail || commit.author] *)
Definition owner_key (commit : CommitInfo) : string :=
  if String.eqb (authorEmail commit) "" then author commit else authorEmail commit.

(** The body of the loop over the commits, on the map in its insertion
    order: the owner under [key] is updated in place, a new one goes to
    the end. *)
Fixpoint record_commit (commit : CommitInfo) (ownerMap : list (string * Owner)) :
    list (string * Owner) :=
  match ownerMap with
  | [] =>
      [(owner_key commit,
        mkOwner (author commit) (authorEmail commit) 1 (linesChanged commit) (date commit))]
  | (key, existing) :: rest =>
      if String.eqb key (owner_key commit) then
        (key,
         mkOwner (name existing) (email existing) (commits existing + 1)
           (o_linesChanged existing + linesChanged commit)
           (if String.ltb (lastContribution existing) (date commit) then date commit
            else lastContribution existing)) :: rest
      else (key, existing) :: record_commit commit rest
  end.

Definition group_commits (commits : list CommitInfo) : list (string * Owner) :=
  fold_left (fun ownerMap commit => record_commit commit ownerMap) commits [].

(** [Math.round]: the nearest integer, a half going up.  It is exact
    on the number it is given. *)
Definition Math_round (x : Q) : Z := Qfloor (x + (1 # 2)).

(** *** Double precision

    The numbers of JavaScript are IEEE 754 doubles.  A double is the
    rational it stands for, and an operation gives the double nearest
    to its exact result: [fl] rounds a rational to 53 significant bits,
    a tie going to the even significand.  The range of the exponent is
    not modelled: the quotients and products here lie between 2^-32
    and 100. *)

(** The integer nearest to a rational, a half going to the even one *)
Definition nearest_even (x : Q) : Z :=
  let f := Qfloor x in
  match (x - inject_Z f ?= 1 # 2)%Q with
  | Lt => f
  | Gt => f + 1
  | Eq => if Z.even f then f else f + 1
  end.

(** The exponent of a positive rational: the largest [k] with
    [2 ^ k <= x], which is one of two candidates. *)
Definition ilog2 (x : Q) : Z :=
  let k := Z.log2 (Qnum x) - Z.log2 (Zpos (Qden x)) in
  if Qle_bool (2 ^ k) x then k else k - 1.

Definition fl (x : Q) : Q :=
  match Qnum x with
  | Z0 => 0
  | Zpos _ =>
      let e := ilog2 x - 52 in (inject_Z (nearest_even (x / 2 ^ e)) * 2 ^ e)%Q
  | Zneg _ =>
      let e := ilog2 (- x) - 52 in (- (inject_Z (nearest_even (- x / 2 ^ e)) * 2 ^ e))%Q
  end.

(** [Math.round((ownerCommits / totalCommits) * 100)]: the quotient is
    rounded to a double, and so is its product with 100. *)
Definition percentage_of (ownerCommits totalCommits : Z) : Z :=
  Math_round (fl (fl (inject_Z ownerCommits / inject_Z totalCommits) * inject_Z 100)).


(** [{ ...owner, percentage: Math.round((owner.commits / totalCommits) * 100) }] *)
Definition with_percentage (totalCommits : Z) (o : Owner) : CodeOwner :=
  mkCodeOwner o (percentage_of (commits o) totalCommits).

(** The comparator [(a, b) => b.commits - a.commits] is the difference
    of this key. *)
Definition by_commits_desc (o : CodeOwner) : Z := - commits (owner o).

Definition calculateOwnership (commits : list CommitInfo) : list CodeOwner :=
  let ownerMap := group_commits commits in
  let totalCommits := Z.of_nat (length commits) in
  sort_by by_commits_desc (map (with_percentage totalCommits) (map snd ownerMap)).

Definition sum_of {A} (f : A -> Z) (l : list A) : Z := foldr (fun x acc => f x + acc) 0 l.

(** The key under which an owner is kept, read off the owner:
    [email || name]. *)
Definition owner_id (o : Owner) : string :=
  if String.eqb (email o) "" then name o else email o.


(** Three commits of two authors *)
Definition sample_commits : list CommitInfo :=
  [mkCommit "c3" "c3" "Ann" "ann@example.org" "2024-03-01" "three" 4;
   mkCommit "c2" "c2" "Bob" "" "2024-02-01" "two" 1;
   mkCommit "c1" "c1" "Ann" "ann@example.org" "2024-01-01" "one" 2].


End History.

(** * Further parts of the code

    The functions around those above: what calls them and what they
    call.

    - [RetryCases]  sample operations for the retry utility
    - [Resolver]    githubAnalyzer.ts: one request and one lookup
    - [Collection]  githubAnalyzer.ts: the address of the remote, the
                    pull requests of the commits, [analyze]
    - [Commands]    extension.ts: clearing the cache and refreshing
    - [Nesting]     codeAnalyzer.ts: the nesting depth
    - [Panel]       reportPanel.ts: escaping, the risk gauge, the age
                    of a cached report
    - [Assistant]   codeAnalyzer.ts: [analyze] and [analyzeWithClaude]
    - [Log]         the git analyzer: the commits of the log *)

(** ** More of the retry utility: sample operations *)

Module RetryCases.
Import Js Retry.
Local Open Scope Z_scope.

(** The first [k] attempts of [fn] from the world [w] fail, each with
    an error that the policy retries. *)
Definition fails_retryably {W T} (fn : W -> (thrown + T) * W) (opts : Policy)
    (k : nat) (w : W) : Prop :=
  forall i, (i < k)%nat ->
    exists error, fst (fn (world_after fn i w)) = inl error
                  /\ retryableErrors opts (toError error) = true.

(** An operation that times out twice and then resolves with the
    number of calls made before; and one that times out once and is
    then refused. *)
Definition flaky (w : nat) : (thrown + nat) * nat :=
  if (w <? 2)%nat then (inl (ThrownError (mkError "Request timeout")), S w)
  else (inr w, S w).

Definition refused (w : nat) : (thrown + nat) * nat :=
  if (w <? 1)%nat then (inl (ThrownError (mkError "Request timeout")), S w)
  else (inl (ThrownError (mkError "Invalid GitHub token")), S w).

End RetryCases.

(** ** Requests to the hosting service (analyzer/githubAnalyzer.ts) *)

Module Resolver.
Import Js Retry Reviews.
Local Open Scope Z_scope.

(** How a request ends: a response with a status code and a body, an
    error of the connection, or the timer of the request. *)
Inductive response : Type :=
| Answer (statusCode : Z) (data : string)
| Failure (e : Error)
| TimedOut.

Section Requests.
Context {host : Host}.
(** [JSON.parse]; [None] is its SyntaxError. *)
Variable JSON_parse : string -> option json.

Definition makeGitHubRequest (r : response) : thrown + json :=
  match r with
  | Answer statusCode data =>
      if statusCode =? 200 then
        match JSON_parse data with
        | Some v => inr v
        | None => inl (ThrownError (mkError "Failed to parse response"))
        end
      else if statusCode =? 404 then inr (JArr [])
      else if statusCode =? 401 then inl (ThrownError (mkError "Invalid GitHub token"))
      else if statusCode =? 403 then
        inl (ThrownError (mkError "API rate limit exceeded or insufficient permissions"))
      else inl (ThrownError (mkError ("GitHub API error: " +:+ pretty statusCode)))
  | Failure e => inl (ThrownError e)
  | TimedOut => inl (ThrownError (mkError "Request timeout"))
  end.

(** The service as the lookups of one commit see it: [server n] is how
    the request ends that is made after [n] others, and the world of a
    lookup is the number of requests made. *)
Variable server : nat -> response.

Definition request (n : nat) : (thrown + json) * nat :=
  (makeGitHubRequest (server n), S n).

(** Ways a request ends that the lookup takes for transient: the
    statuses 403 and 503, and the timer. *)
Definition transient (r : response) : bool :=
  match r with
  | Answer statusCode _ => (statusCode =? 403) || (statusCode =? 503)
  | Failure _ => false
  | TimedOut => true
  end.

(** The classifier that [getPRsForCommit] passes to [withRetry] *)
Definition lookupRetryable (error : Error) : bool :=
  let msg := toLowerCase (message error) in
  includes msg "timeout" || includes msg "rate limit" || includes msg "503".

Definition lookupOptions : RetryOptions := {|
  opt_maxAttempts := Some 3;            (* API_MAX_RETRIES *)
  opt_initialDelayMs := None;
  opt_maxDelayMs := None;
  opt_backoffMultiplier := None;
  opt_retryableErrors := Some lookupRetryable
|}.

(** [getPRsForCommit], from the state of the service after [n]
    requests: the records found and the state of the service
    afterwards.  Whatever [withRetry] or the mapping throws is caught
    and gives no records. *)
Definition getPRsForCommit (n : nat) : list PullRequestInfo * nat :=
  match withRetry request lookupOptions n with
  | Some r =>
      (match outcome r with
       | inr data => recordsOf data
       | inl _ => []
       end, world r)
  | None => ([], n)
  end.
End Requests.

(** A parser for the samples: the body "[]" is the empty array. *)
Definition sample_parse (data : string) : option json :=
  if String.eqb data "[]" then Some (JArr []) else None.

(** Services that always answer 403, and that time out once before
    they answer 200. *)
Definition forbidding (n : nat) : response := Answer 403 "".

Definition recovering (n : nat) : response :=
  if (n <? 1)%nat then TimedOut else Answer 200 "[]".

End Resolver.

(** ** The remote of the repository and the pull requests of the
       commits (analyzer/githubAnalyzer.ts) *)

Module Collection.
Import Js Reviews.
Local Open Scope Z_scope.

(** *** [parseGitHubUrl] *)

(** The longest prefix of characters that satisfy [p], and the rest:
    what a greedy [[...]*] takes. *)
Fixpoint span (p : ascii -> bool) (s : string) : string * string :=
  match s with
  | EmptyString => (EmptyString, EmptyString)
  | String c s' =>
      if p c then let (a, b) := span p s' in (String c a, b)
      else (EmptyString, s)
  end.

(** The rest of [s] after the literal [p], when [s] starts with it. *)
Fixpoint strip_prefix (p s : string) : option string :=
  match p, s with
  | EmptyString, _ => Some s
  | String a p', String b s' => if Ascii.eqb a b then strip_prefix p' s' else None
  | String _ _, EmptyString => None
  end.

Definition is_char (c : ascii) (x : ascii) : bool := Ascii.eqb x c.

(** [/git@github\.com:([^/]+)\/([^.]+)(\.git)?/] at the start of [s].
    The first group is the longest run without a slash, which a slash
    must follow (a shorter run is followed by a character of the run);
    the second is the longest run without a dot; both are not empty;
    the optional group takes nothing from them. *)
Definition ssh_at (s : string) : option (string * string) :=
  rest ← strip_prefix "git@github.com:" s;
  let (owner, rest) := span (fun c => negb (is_char "/" c)) rest in
  rest ← strip_prefix "/" rest;
  let (repo, _) := span (fun c => negb (is_char "." c)) rest in
  if String.eqb owner "" || String.eqb repo "" then None else Some (owner, repo).

(** [/https?:\/\/github\.com\/([^/]+)\/([^/.]+)(\.git)?/] at the
    start of [s] *)
Definition https_at (s : string) : option (string * string) :=
  rest ← strip_prefix "http" s;
  let rest := default rest (strip_prefix "s" rest) in
  rest ← strip_prefix "://github.com/" rest;
  let (owner, rest) := span (fun c => negb (is_char "/" c)) rest in
  rest ← strip_prefix "/" rest;
  let (repo, _) := span (fun c => negb (is_char "/" c || is_char "." c)) rest in
  if String.eqb owner "" || String.eqb repo "" then None else Some (owner, repo).

(** [String.prototype.match] without the global flag: the match at the
    leftmost position that has one. *)
Fixpoint match_first {A} (at_start : string -> option A) (s : string) : option A :=
  match at_start s with
  | Some r => Some r
  | None =>
      match s with
      | EmptyString => None
      | String _ s' => match_first at_start s'
      end
  end.

Definition parseGitHubUrl (url : string) : option (string * string) :=
  match match_first ssh_at url with
  | Some sshMatch => Some sshMatch
  | None => match_first https_at url
  end.

(** *** [getPullRequestsForCommits] *)

(** SameValueZero, the equality of the keys of a [Map]: primitive
    values by value, arrays and objects by identity, and two values
    that were parsed at different places are not the same object. *)
Definition sameValueZero (a b : json) : bool :=
  match a, b with
  | JUndefined, JUndefined => true
  | JNull, JNull => true
  | JBool x, JBool y => Bool.eqb x y
  | JNum x, JNum y => x =? y
  | JStr x, JStr y => String.eqb x y
  | _, _ => false
  end.

Definition PR_BATCH_SIZE : nat := 5.
Definition MAX_COMMITS_TO_SEARCH_PRS : nat := 20.

Section Collect.
(** [lookup i sha] is what [getPRsForCommit] resolves with for the
    commit at index [i], whose hash is [sha]; it never rejects.
    [getTime x] is [new Date(x).getTime()], for creation times that are
    dates. *)
Variable lookup : nat -> string -> list PullRequestInfo.
Variable getTime : json -> Z.

(** [prsMap] is the list of its values in insertion order; the key of
    a value is its [number]. *)
Definition has (key : json) (prsMap : list PullRequestInfo) : bool :=
  existsb (fun pr => sameValueZero (number pr) key) prsMap.

Definition add (maxPRs : Z) (prsMap : list PullRequestInfo) (pr : PullRequestInfo) :
    list PullRequestInfo :=
  if negb (has (number pr) prsMap) && (Z.of_nat (length prsMap) <? maxPRs)
  then prsMap ++ [pr]
  else prsMap.

(** The [for] loop over the batches, entered at its condition with the
    index [i]; [looked] collects the hashes that were looked up.
    [fuel] bounds the number of batches. *)
Fixpoint batches (commits : list History.CommitInfo) (maxPRs : Z) (fuel i : nat)
    (looked : list string) (prsMap : list PullRequestInfo) :
    option (list string * list PullRequestInfo) :=
  if (i <? length commits)%nat && (Z.of_nat (length prsMap) <? maxPRs) then
    match fuel with
    | O => None
    | S fuel' =>
        let batch := take PR_BATCH_SIZE (drop i commits) in
        let results := imap (fun j commit => lookup (i + j) (History.hash commit)) batch in
        batches commits maxPRs fuel' (i + PR_BATCH_SIZE)
          (looked ++ map History.hash batch)
          (foldl (fun prsMap result => foldl (add maxPRs) prsMap result) prsMap results)
    end
  else Some (looked, prsMap).

(** The comparator of the final sort is the difference of this key. *)
Definition newest_first (pr : PullRequestInfo) : Z := - getTime (createdAt pr).

Definition getPullRequestsForCommits (commits : list History.CommitInfo) (maxPRs : Z) :
    option (list string * list PullRequestInfo) :=
  '(looked, prsMap) ← batches commits maxPRs (length commits) 0 [] [];
  Some (looked, sort_by newest_first prsMap).
End Collect.

(** What is said of a collection: no two of its records have the same
    number; a record is represented by itself or by a record of its
    number; a record was found by one of the first [i] lookups. *)
Definition distinct_numbers (prs : list PullRequestInfo) : Prop :=
  ForallOrdPairs (fun a b => sameValueZero (number a) (number b) = false) prs.

Definition represented (prs : list PullRequestInfo) (pr : PullRequestInfo) : Prop :=
  exists pr', pr' ∈ prs /\ (pr' = pr \/ sameValueZero (number pr') (number pr) = true).

Definition found (lookup : nat -> string -> list PullRequestInfo)
    (commits : list History.CommitInfo) (i : nat) (pr : PullRequestInfo) : Prop :=
  exists j commit,
    (j < i)%nat /\ commits !! j = Some commit /\ pr ∈ lookup j (History.hash commit).

(** The invariant of the collection, for the records [offered] to it
    so far. *)
Definition collecting (maxPRs : Z) (prsMap : list PullRequestInfo)
    (offered : PullRequestInfo -> Prop) : Prop :=
  Z.of_nat (length prsMap) <= Z.max 0 maxPRs
  /\ distinct_numbers prsMap
  /\ (forall pr, pr ∈ prsMap -> offered pr)
  /\ (Z.of_nat (length prsMap) < maxPRs -> forall pr, offered pr -> represented prsMap pr).

(** *** [analyze] *)

(** [GitHubAnalysisResult] of types.ts; the error is optional. *)
Record GitHubAnalysisResult : Type := mkGitHub {
  repoUrl : option string;                  (* null is [None] *)
  pullRequests : list PullRequestInfo;
  error : option string
}.

Definition NO_GIT_REMOTE : string := "No git remote found".
Definition NOT_GITHUB_REPO : string := "Not a GitHub repository".
Definition NO_TOKEN : string :=
  "GitHub token not configured. Use " +:+ String (Ascii.ascii_of_N 34)
    ("What is the Code: Set GitHub Token" +:+ String (Ascii.ascii_of_N 34)
       " command to enable PR fetching.").

Definition canonical (repoInfo : string * string) : string :=
  "https://github.com/" +:+ fst repoInfo +:+ "/" +:+ snd repoInfo.

Section Analyze.
(** The lookups, for an owner, a repository and a token *)
Variable lookup : string -> string -> string -> nat -> string -> list PullRequestInfo.
Variable getTime : json -> Z.

(** The hashes that were looked up, and the result.  [None] is a loop
    that needs more fuel. *)
Definition analyze (remoteUrl : option string) (token : option string) (maxPRs : Z)
    (commits : list History.CommitInfo) : option (list string * GitHubAnalysisResult) :=
  match remoteUrl with
  | None | Some EmptyString => Some ([], mkGitHub None [] (Some NO_GIT_REMOTE))
  | Some remoteUrl =>
      match parseGitHubUrl remoteUrl with
      | None => Some ([], mkGitHub (Some remoteUrl) [] (Some NOT_GITHUB_REPO))
      | Some repoInfo =>
          match token with
          | None | Some EmptyString =>
              Some ([], mkGitHub (Some (canonical repoInfo)) [] (Some NO_TOKEN))
          | Some token =>
              '(looked, pullRequests) ←
                getPullRequestsForCommits
                  (lookup (fst repoInfo) (snd repoInfo) token) getTime
                  (take MAX_COMMITS_TO_SEARCH_PRS commits) maxPRs;
              Some (looked, mkGitHub (Some (canonical repoInfo)) pullRequests None)
          end
      end
  end.
End Analyze.

(** Samples: two commits whose lookups find the pull requests 7 and 9,
    and 7 again. *)
Definition pr_number (n : Z) (created : Z) : PullRequestInfo :=
  mkPR (JNum n) (JStr "") (JStr "") (JStr "") (JStr "open") (JNum created) JNull "" [].

Definition sample_lookup (i : nat) (sha : string) : list PullRequestInfo :=
  match i with
  | O => [pr_number 7 100; pr_number 9 300]
  | _ => [pr_number 7 100]
  end.

Definition sample_getTime (created : json) : Z :=
  match created with JNum n => n | _ => 0 end.

End Collection.

(** ** The commands around [analyzeCode] (extension.ts) *)

Module Commands.
Import Js Orchestrator.
Local Open Scope Z_scope.

Definition CACHE_CLEARED (count : nat) : string :=
  "Cleared " +:+ pretty count +:+ " cached analysis result"
  +:+ (if (count =? 1)%nat then "" else "s") +:+ ".".

Definition NO_PREVIOUS_ANALYSIS : string :=
  "No previous analysis to refresh. Please analyze code first.".

(** A document as the refresh command reads it: its number of lines,
    its text, and the text from the start of one line to the start of
    another ([getText(new Range(a, 0, b, 0))]). *)
Record TextDocument : Type := {
  lineCount : Z;
  getText : string;
  getTextRange : Z -> Z -> string
}.

Section Commands.
Context {CodeAnalysis GitAnalysis GitHubAnalysis : Type}.
Variable md5 : string -> string.
Variable clock : nat -> Z.

(** Readings of what a run showed: the reports given to the panel,
    the texts of the error messages and of the information messages. *)
Fixpoint reports (evs : list (effect CodeAnalysis GitAnalysis GitHubAnalysis)) :
    list (AnalysisResult CodeAnalysis GitAnalysis GitHubAnalysis) :=
  match evs with
  | [] => []
  | CreateOrShow r :: evs' => r :: reports evs'
  | _ :: evs' => reports evs'
  end.

Fixpoint errors (evs : list (effect CodeAnalysis GitAnalysis GitHubAnalysis)) : list string :=
  match evs with
  | [] => []
  | ShowErrorMessage text :: evs' => text :: errors evs'
  | _ :: evs' => errors evs'
  end.

Fixpoint notices (evs : list (effect CodeAnalysis GitAnalysis GitHubAnalysis)) : list string :=
  match evs with
  | [] => []
  | ShowInformationMessage text :: evs' => text :: notices evs'
  | _ :: evs' => notices evs'
  end.

Definition clearCache (w : World CodeAnalysis GitAnalysis GitHubAnalysis) :
    list (effect CodeAnalysis GitAnalysis GitHubAnalysis)
    * World CodeAnalysis GitAnalysis GitHubAnalysis :=
  let count := size (analysisCache w) in
  ([ShowInformationMessage (CACHE_CLEARED count)], with_cache ∅ w).

(** The command [whatIsTheCode.refresh].  [openTextDocument] gives
    [None] for a file that cannot be opened. *)
Definition refreshCommand (env : Env CodeAnalysis GitAnalysis GitHubAnalysis)
    (openTextDocument : string -> option TextDocument)
    (w : World CodeAnalysis GitAnalysis GitHubAnalysis) :
    list (effect CodeAnalysis GitAnalysis GitHubAnalysis)
    * World CodeAnalysis GitAnalysis GitHubAnalysis :=
  match lastAnalysis w with
  | None => ([ShowErrorMessage NO_PREVIOUS_ANALYSIS], w)
  | Some last =>
      let code :=
        match openTextDocument (la_filePath last) with
        | Some doc =>
            if (la_startLine last =? 1) && (la_endLine last =? lineCount doc)
            then getText doc
            else getTextRange doc (la_startLine last - 1) (la_endLine last)
        | None => la_code last
        end in
      analyzeCode md5 clock env (la_filePath last) (la_startLine last) (la_endLine last)
        code true w
  end.
End Commands.

(** Samples: a document of two lines; the user cancels while the
    history is fetched; the history cannot be fetched. *)
Definition sample_document (path : string) : option TextDocument :=
  Some {| lineCount := 2; getText := "let x = 2;"; getTextRange := fun _ _ => "let x = 2;" |}.



End Commands.

(** ** More of the static analysis (analyzer/codeAnalyzer.ts) *)

Module Nesting.
Import Js.
Local Open Scope Z_scope.

(** The loop of [calculateMaxNesting] over the characters of the code *)
Fixpoint nesting (code : string) (currentDepth maxDepth : Z) : Z :=
  match code with
  | EmptyString => maxDepth
  | String char rest =>
      if Ascii.eqb char "{" then
        nesting rest (currentDepth + 1) (Z.max maxDepth (currentDepth + 1))
      else if Ascii.eqb char "}" then
        nesting rest (Z.max 0 (currentDepth - 1)) maxDepth
      else nesting rest currentDepth maxDepth
  end.

Definition calculateMaxNesting (code : string) : Z := nesting code 0 0.

(** How often a character occurs in a text *)
Fixpoint occurrences (c : ascii) (s : string) : Z :=
  match s with
  | EmptyString => 0
  | String c' s' => (if Ascii.eqb c' c then 1 else 0) + occurrences c s'
  end.

End Nesting.

(** ** The report panel (webview/reportPanel.ts) *)

Module Panel.
Import Js Summarizer.
Local Open Scope Z_scope.

(** The double quote *)
Definition dquote : ascii := Ascii.ascii_of_N 34.

(** The replacement of one character by [_escapeHtml] *)
Definition escaped (c : ascii) : string :=
  if Ascii.eqb c "&" then "&amp;"
  else if Ascii.eqb c "<" then "&lt;"
  else if Ascii.eqb c ">" then "&gt;"
  else if Ascii.eqb c dquote then "&quot;"
  else if Ascii.eqb c "'" then "&#039;"
  else String c EmptyString.

(** [text.replace] with the class of the five characters and the
    function that looks the match up in [map] *)
Fixpoint _escapeHtml (text : string) : string :=
  match text with
  | EmptyString => EmptyString
  | String c rest => escaped c +:+ _escapeHtml rest
  end.

Definition has_level (l : string) (risks : list RiskAssessment) : bool :=
  existsb (fun r => String.eqb (level r) l) risks.

Definition _getOverallRiskLevel (risks : list RiskAssessment) : string :=
  if has_level "critical" risks then "critical"
  else if has_level "high" risks then "high"
  else if has_level "medium" risks then "medium"
  else "low".

(** [order[level] ?? 4] *)
Definition levelOrder (l : string) : Z :=
  if String.eqb l "critical" then 0
  else if String.eqb l "high" then 1
  else if String.eqb l "medium" then 2
  else if String.eqb l "low" then 3
  else 4.

Definition _sortRisksByLevel (risks : list RiskAssessment) : list RiskAssessment :=
  sort_by (fun r => levelOrder (level r)) risks.

(** [Math.floor] of a quotient of integers is [/] on [Z]. *)
Definition _formatCacheAge (ms : Z) : string :=
  let seconds := ms / 1000 in
  if seconds <? 60 then "just now"
  else
    let minutes := seconds / 60 in
    if minutes <? 60 then pretty minutes +:+ "m ago"
    else
      let hours := minutes / 60 in
      pretty hours +:+ "h ago".

End Panel.

(** ** The analysis by the reasoning service, and its fallback
       (analyzer/codeAnalyzer.ts, utils/retry) *)

Module Assistant.
Import Js Retry Summarizer.
Local Open Scope Z_scope.

(** [withTimeout]: the promise settles before the timer ([Some]), or
    the timer fires first and rejects with the message. *)
Definition withTimeout {T} (settled : option (thrown + T)) (timeoutMessage : string) :
    thrown + T :=
  match settled with
  | Some r => r
  | None => inl (ThrownError (mkError timeoutMessage))
  end.

(** The match of the regular expression that finds the JSON in the
    answer: from the first opening brace to the last closing brace
    after it. *)
Fixpoint from_first_open (s : string) : option string :=
  match s with
  | EmptyString => None
  | String c s' => if Ascii.eqb c "{" then Some s else from_first_open s'
  end.

Fixpoint to_last_close (s : string) : option string :=
  match s with
  | EmptyString => None
  | String c s' =>
      match to_last_close s' with
      | Some m => Some (String c m)
      | None => if Ascii.eqb c "}" then Some (String c EmptyString) else None
      end
  end.

Definition jsonMatch (text : string) : option string :=
  s ← from_first_open text; to_last_close s.

(** What the user is shown by [analyze] *)
Inductive shown : Type :=
| Warning (text : string)
| Information (text : string)
| Execute (command : string).

Inductive Action : Type := SetApiKey | UseStaticAnalysis | NoAction.

Definition CLAUDE_API_FAILED : string :=
  "Claude analysis failed. Using static analysis instead.".

Section Analyze.
Context {host : Host}.
Variable JSON_parse : string -> option json.
(** The TypeError of the mapping when a risk or a test is [null] *)
Variable typeError : Error.
Variable codeShape : string -> Shape.
Variable calculateComplexity : string -> string.
Variable extractDependencies : string -> list string.
Variable extractExports : string -> list string.
Variable inferPurposes : string -> string -> string -> list string.
Variable generatePurposeSummary : string -> list string -> string.

(** [analyzeWithClaude], from how the request to the service ends:
    with a first content block (its type and its text), with a
    rejection, or not before the timer ([None]).  A text that starts
    with a brace parses to an object or not at all. *)
Definition analyzeWithClaude (response : option (thrown + string * string)) :
    thrown + CodeAnalysisResult :=
  match withTimeout response "Claude API request timed out" with
  | inl error => inl error
  | inr (type, text) =>
      if negb (String.eqb type "text") then
        inl (ThrownError (mkError "Unexpected response type"))
      else
        match jsonMatch text ≫= JSON_parse with
        | Some (JObj analysis) =>
            match mapAnalysis analysis with
            | Some result => inr result
            | None => inl (ThrownError typeError)
            end
        | _ => inl (ThrownError (mkError "Failed to parse Claude analysis"))
        end
  end.

(** The service as one analysis sees it: [service n] is how the
    request ends that is made after [n] others. *)
Variable service : nat -> option (thrown + string * string).

Definition attempt (n : nat) : (thrown + CodeAnalysisResult) * nat :=
  (analyzeWithClaude (service n), S n).

Definition analyzeOptions : RetryOptions := {|
  opt_maxAttempts := Some 3;            (* API_MAX_RETRIES *)
  opt_initialDelayMs := None;
  opt_maxDelayMs := None;
  opt_backoffMultiplier := None;
  opt_retryableErrors := None
|}.

Definition analyzeStatic' (code filePath : string) : CodeAnalysisResult :=
  analyzeStatic codeShape calculateComplexity extractDependencies extractExports
    inferPurposes generatePurposeSummary code filePath.

(** [analyze]: what is shown, the result, and the number of requests
    made to the service.  [client] says whether [getClient] gives a
    client, [action] what the user answers to the message. *)
Definition analyze (client : bool) (action : Action) (code filePath : string) (n : nat) :
    list shown * CodeAnalysisResult * nat :=
  if client then
    match withRetry attempt analyzeOptions n with
    | Some r =>
        match outcome r with
        | inr result => ([], result, world r)
        | inl error =>
            ([Warning (CLAUDE_API_FAILED +:+ " (" +:+ message error +:+ ")")],
             analyzeStatic' code filePath, world r)
        end
    | None => ([], analyzeStatic' code filePath, n)      (* the loop has fuel enough *)
    end
  else
    ([Information "Claude API key not configured. Set it securely for AI-powered analysis."]
       ++ match action with
          | SetApiKey => [Execute "whatIsTheCode.setClaudeApiKey"]
          | _ => []
          end,
     analyzeStatic' code filePath, n).
End Analyze.

(** A service that never answers in time *)
Definition silent (n : nat) : option (thrown + string * string) := None.

End Assistant.

(** ** The commits of the log (the git analyzer, [getCommits]) *)

Module Log.
Import Js History.
Local Open Scope Z_scope.

Definition newline : ascii := Ascii.ascii_of_N 10.
Definition tab : ascii := Ascii.ascii_of_N 9.

(** [s.split(sep)] for a separator of one character *)
Fixpoint split_char (sep : ascii) (s : string) : list string :=
  match s with
  | EmptyString => [EmptyString]
  | String c s' =>
      if Ascii.eqb c sep then EmptyString :: split_char sep s'
      else
        match split_char sep s' with
        | piece :: pieces => String c piece :: pieces
        | [] => [String c EmptyString]
        end
  end.

(** [s.split(sep)] for a separator that is not empty; [skip] counts
    the characters of a separator found that are still to pass. *)
Fixpoint split_from (sep s : string) (skip : nat) : list string :=
  match s with
  | EmptyString => [EmptyString]
  | String c s' =>
      match skip with
      | S skip' => split_from sep s' skip'
      | O =>
          if String.prefix sep s then
            EmptyString :: split_from sep s' (String.length sep - 1)
          else
            match split_from sep s' 0 with
            | piece :: pieces => String c piece :: pieces
            | [] => [String c EmptyString]
            end
      end
  end.

Definition split (sep s : string) : list string := split_from sep s 0.

(** The value of a digit in a radix *)
Definition digit (radix : Z) (c : ascii) : option Z :=
  let n := Z.of_N (Ascii.N_of_ascii c) in
  let d :=
    if (48 <=? n) && (n <=? 57) then Some (n - 48)
    else if (97 <=? n) && (n <=? 122) then Some (n - 87)
    else if (65 <=? n) && (n <=? 90) then Some (n - 55)
    else None in
  match d with
  | Some d => if d <? radix then Some d else None
  | None => None
  end.

(** The number that the digits at the start of [s] write; [acc] is
    what has been read, [None] when no digit has. *)
Fixpoint digits (radix : Z) (s : string) (acc : option Z) : option Z :=
  match s with
  | EmptyString => acc
  | String c s' =>
      match digit radix c with
      | Some d => digits radix s' (Some (radix * default 0 acc + d))
      | None => acc
      end
  end.

Section Host.
Context {host : Host}.

(** [parseInt(s)] without a radix; [None] is NaN. *)
Definition parseInt (s : string) : option Z :=
  let s := trimStart s in
  let '(sign, s) :=
    match s with
    | String "-" s' => (-1, s')
    | String "+" s' => (1, s')
    | _ => (1, s)
    end in
  let '(radix, s) :=
    match s with
    | String "0" (String "x" s') => (16, s')
    | String "0" (String "X" s') => (16, s')
    | _ => (10, s)
    end in
  Z.mul sign <$> digits radix s None.

(** [x || d] for a string that may be [undefined] *)
Definition or_default (x : option string) (d : string) : string :=
  match x with
  | Some (String c s) => String c s
  | _ => d
  end.

Definition present (x : option string) : bool :=
  match x with
  | Some (String _ _) => true
  | _ => false
  end.

(** The body of the loop over the lines of the simple format *)
Definition parseLine (line : string) : option CommitInfo :=
  let parts := split_char "|" line in
  if present (parts !! 0%nat) && present (parts !! 1%nat) then
    Some {|
      hash := default "" (parts !! 0%nat);
      shortHash := default "" (parts !! 1%nat);
      author := or_default (parts !! 2%nat) "Unknown";
      authorEmail := or_default (parts !! 3%nat) "";
      date := or_default (parts !! 4%nat) "";
      message := or_default (parts !! 5%nat) "";
      linesChanged := 0
    |}
  else None.

(** What one line of the statistics adds to [linesChanged] *)
Definition statLine (line : string) : Z :=
  let statLine := trim line in
  if negb (String.eqb statLine "") && negb (String.prefix "-" statLine) then
    let parts := split_char tab statLine in
    if (2 <=? length parts)%nat then
      let additions := default 0 (parts !! 0%nat ≫= parseInt) in
      let deletions := default 0 (parts !! 1%nat ≫= parseInt) in
      additions + deletions
    else 0
  else 0.

(** The body of the loop over the blocks of the format with
    statistics; [None] is a block that gives no commit. *)
Definition parseBlock (block : string) : option CommitInfo :=
  let lines := split_char newline (trim block) in
  let headerLine := default "" (lines !! 0%nat) in
  if negb (includes headerLine "|") then None
  else
    let parts := split_char "|" headerLine in
    let linesChanged := foldl (fun n line => n + statLine line) 0 (drop 1 lines) in
    if present (parts !! 0%nat) && present (parts !! 1%nat) then
      Some {|
        hash := trim (default "" (parts !! 0%nat));
        shortHash := trim (default "" (parts !! 1%nat));
        author := or_default (trim <$> parts !! 2%nat) "Unknown";
        authorEmail := or_default (trim <$> parts !! 3%nat) "";
        date := or_default (trim <$> parts !! 4%nat) "";
        message := or_default (trim <$> parts !! 5%nat) "";
        linesChanged := linesChanged
      |}
    else None.

Fixpoint keep {A B} (f : A -> option B) (l : list A) : list B :=
  match l with
  | [] => []
  | x :: l' =>
      match f x with
      | Some y => y :: keep f l'
      | None => keep f l'
      end
  end.

(** The commits read from the output of [git log] *)
Definition parseLog (output : string) : list CommitInfo :=
  if String.eqb (trim output) "" then []
  else if includes output "COMMIT_START" then
    let commitBlocks :=
      List.filter (fun b => negb (String.eqb (trim b) "")) (split "COMMIT_START" output) in
    keep parseBlock commitBlocks
  else
    let lines :=
      List.filter (fun line => includes line "|") (split_char newline (trim output)) in
    keep parseLine lines.

(** [getCommits]: the history of the lines, or when git refuses it the
    history of the file; no commits when git refuses that too. *)
Definition getCommits (lineHistory fileHistory : option string) : list CommitInfo :=
  match lineHistory with
  | Some output => parseLog output
  | None =>
      match fileHistory with
      | Some output => parseLog output
      | None => []
      end
  end.

End Host.

(** A line of the simple format, and a text of lines *)
Definition format (c : CommitInfo) : string :=
  hash c +:+ "|" +:+ shortHash c +:+ "|" +:+ author c +:+ "|" +:+ authorEmail c
  +:+ "|" +:+ date c +:+ "|" +:+ message c.

Fixpoint join (sep : ascii) (lines : list string) : string :=
  match lines with
  | [] => EmptyString
  | [line] => line
  | line :: rest => line +:+ String sep (join sep rest)
  end.

(** A field that keeps the line and the log in shape *)
Definition plain (s : string) : Prop :=
  includes s "|" = false /\ includes s (String newline "") = false.

Definition wellformed (c : CommitInfo) : Prop :=
  hash c <> "" /\ shortHash c <> "" /\ author c <> ""
  /\ plain (hash c) /\ plain (shortHash c) /\ plain (author c)
  /\ plain (authorEmail c) /\ plain (date c) /\ plain (message c)
  /\ linesChanged c = 0.

(** Two commits of a history of lines, and the output of git for
    them: their lines, and a line break at the end. *)
Definition sample_log : list CommitInfo :=
  [mkCommit "c2" "c2" "Bob" "" "2024-02-01" "two" 0;
   mkCommit "c1" "c1" "Ann" "ann@example.org" "2024-01-01" "one" 0].

Definition sample_output : string :=
  join newline (map format sample_log) +:+ String newline "".

End Log.

(** * Properties *)

(** ** Strings and sorting *)

Module JsFacts.
Import Js.

Lemma app_nil s : "" +:+ s = s.
Proof. reflexivity. Qed.

Lemma app_cons c s t : String c s +:+ t = String c (s +:+ t).
Proof. reflexivity. Qed.

Lemma prefix_app p s : String.prefix p (p +:+ s) = true.
Proof.
  induction p as [|c p IH]; rewrite ?app_nil, ?app_cons; simpl; [now destruct s |].
  destruct (Ascii.ascii_dec c c); [exact IH | contradiction].
Qed.

Lemma prefix_inv p : forall s, String.prefix p s = true -> exists rest, s = p +:+ rest.
Proof.
  induction p as [|c p IH]; intros s Hp; [now exists s |].
  destruct s as [|d s]; simpl in Hp; [discriminate |].
  destruct (Ascii.ascii_dec c d) as [-> |]; [| discriminate].
  destruct (IH s Hp) as [rest ->]. exists rest. now rewrite app_cons.
Qed.

(** [includes] finds a word exactly when the text is the word between
    two texts. *)
Lemma includes_app before sub after : includes (before +:+ sub +:+ after) sub = true.
Proof.
  induction before as [|c before IH]; rewrite ?app_nil, ?app_cons; simpl.
  - assert (E : forall s, String.prefix sub s = true -> includes s sub = true)
      by (intros [|d s] Hp; cbn [includes]; now rewrite Hp).
    apply E, prefix_app.
  - rewrite IH. apply orb_true_r.
Qed.

Lemma includes_inv s : forall sub,
  includes s sub = true -> exists before after, s = before +:+ sub +:+ after.
Proof.
  induction s as [|c s IH]; intros sub Hi; cbn [includes] in Hi.
  - rewrite orb_false_r in Hi. destruct (prefix_inv _ _ Hi) as [rest E].
    now exists EmptyString, rest.
  - apply orb_true_iff in Hi. destruct Hi as [Hp | Hi].
    + destruct (prefix_inv _ _ Hp) as [rest E]. now exists EmptyString, rest.
    + destruct (IH sub Hi) as (before & after & ->).
      exists (String c before), after. now rewrite app_cons.
Qed.

Lemma app_assoc a b c : (a +:+ b) +:+ c = a +:+ b +:+ c.
Proof.
  induction a as [|x a IH]; rewrite ?app_nil, ?app_cons; [reflexivity |].
  now rewrite IH.
Qed.

(** A text that contains a word contains the parts of the word. *)
Lemma includes_part s word part :
  includes word part = true -> includes s word = true -> includes s part = true.
Proof.
  intros Hp Hw.
  destruct (includes_inv _ _ Hp) as (c & d & ->).
  destruct (includes_inv _ _ Hw) as (a & b & ->).
  replace (a +:+ (c +:+ part +:+ d) +:+ b) with ((a +:+ c) +:+ part +:+ (d +:+ b))
    by (now rewrite !app_assoc).
  apply includes_app.
Qed.

Section Host.
Context {host : Host}.

(** An ASCII word in lower case that the text contains is still there
    after [toLowerCase]. *)
Lemma includes_toLowerCase s word :
  ascii_text word = true -> lower word = word -> includes s word = true ->
  includes (toLowerCase s) word = true.
Proof. intros Ha Hw Hi. rewrite <- Hw. now apply toLowerCase_keeps. Qed.
End Host.

Section Sort.
Context {A : Type} (key : A -> Z).

Lemma insert_by_perm x l : Permutation (insert_by key x l) (x :: l).
Proof.
  induction l as [|y l IH]; simpl; [reflexivity |].
  destruct (key y <? key x)%Z; [| reflexivity].
  rewrite IH. apply perm_swap.
Qed.

Lemma sort_by_perm l : Permutation (sort_by key l) l.
Proof.
  induction l as [|x l IH]; simpl; [reflexivity |].
  rewrite insert_by_perm. now constructor.
Qed.

Lemma insert_by_sorted x l :
  Sorted (fun a b => (key a <= key b)%Z) l ->
  Sorted (fun a b => (key a <= key b)%Z) (insert_by key x l).
Proof.
  induction l as [|y l IH]; intros Hs; simpl; [repeat constructor |].
  destruct (Z.ltb_spec (key y) (key x)).
  - inversion Hs as [| ? ? Hs' Hhd]; subst. constructor; [now apply IH |].
    destruct l as [|z l]; simpl; [constructor; lia |].
    destruct (Z.ltb_spec (key z) (key x)); constructor; [| lia].
    now inversion Hhd.
  - constructor; [assumption | constructor; assumption].
Qed.

Lemma sort_by_sorted l : Sorted (fun a b => (key a <= key b)%Z) (sort_by key l).
Proof.
  induction l as [|x l IH]; simpl; [constructor | now apply insert_by_sorted].
Qed.
End Sort.

End JsFacts.

(** ** The retry utility *)

Module RetryFacts.
Import Js Retry.
Local Open Scope Z_scope.

Section Facts.
Context {host : Host} {W T : Type}.
Variable fn : W -> (thrown + T) * W.

(** The loop always ends: [maxAttempts] iterations are enough. *)
Lemma attempts_total opts fuel attempt delay e w :
  (Z.to_nat (maxAttempts opts + 1 - attempt) <= fuel)%nat ->
  is_Some (attempts fn opts fuel attempt delay e w).
Proof.
  revert attempt delay e w.
  induction fuel as [|fuel IH]; intros attempt delay e w Hf; simpl.
  - destruct (Z.leb_spec attempt (maxAttempts opts)); [lia | eauto].
  - destruct (Z.leb_spec attempt (maxAttempts opts)); [| eauto].
    destruct (fn w) as [[error | v] w']; [| eauto].
    destruct (_ || _); [eauto |].
    destruct (IH (attempt + 1)
                (Z.min (delay * backoffMultiplier opts) (maxDelayMs opts))
                (toError error) w') as [r Hr]; [lia |].
    rewrite Hr. simpl. eauto.
Qed.

Lemma withRetry_total options w : is_Some (withRetry fn options w).
Proof. unfold withRetry. apply attempts_total. lia. Qed.

Section Exhaustion.
Variable opts : Policy.
Hypothesis always_fails :
  forall w, exists error w',
    fn w = (inl error, w') /\ retryableErrors opts (toError error) = true.

(** [k] retries are still to come after the attempt the loop is at. *)
Lemma attempts_exhaust k : forall fuel attempt delay e w,
  attempt + Z.of_nat k = maxAttempts opts -> (k < fuel)%nat ->
  exists r error,
    attempts fn opts fuel attempt delay e w = Some r
    /\ fst (fn (world_after fn k w)) = inl error
    /\ outcome r = inl (toError error)
    /\ world r = world_after fn (S k) w
    /\ invocations r = Z.of_nat k + 1
    /\ delays r = backoff k delay (backoffMultiplier opts) (maxDelayMs opts).
Proof.
  induction k as [|k IH]; intros fuel attempt delay e w Hk Hf;
    (destruct fuel as [|fuel]; [lia |]); simpl;
    destruct (always_fails w) as (error & w' & Hfn & Hre).
  - replace (attempt <=? maxAttempts opts) with true by (symmetry; lia).
    rewrite Hfn.
    replace (attempt =? maxAttempts opts) with true by (symmetry; lia).
    simpl. exists (mkRun (inl (toError error)) w' [Invoke attempt]), error.
    repeat split; reflexivity.
  - replace (attempt <=? maxAttempts opts) with true by (symmetry; lia).
    rewrite Hfn.
    replace (attempt =? maxAttempts opts) with false by (symmetry; lia).
    rewrite Hre. simpl.
    destruct (IH fuel (attempt + 1)
                (Z.min (delay * backoffMultiplier opts) (maxDelayMs opts))
                (toError error) w') as (r & err & Hr & Hlast & Hout & Hw & Hn & Hd);
      [lia | lia |].
    rewrite Hr. simpl.
    eexists _, err. split; [reflexivity |].
    simpl. repeat split; try assumption.
    + unfold invocations in *. simpl in *. lia.
    + unfold delays in *. simpl in *. now rewrite Hd.
Qed.
End Exhaustion.
End Facts.

Lemma backoff_capped n : forall d m cap,
  d <= cap -> Forall (fun x => x <= cap) (backoff n d m cap).
Proof.
  induction n as [|n IH]; intros d m cap Hd; simpl; constructor; [assumption |].
  apply IH. lia.
Qed.

Lemma backoff_sorted n : forall d m cap,
  0 <= d <= cap -> 1 <= m -> Sorted Z.le (backoff n d m cap).
Proof.
  induction n as [|n IH]; intros d m cap Hd Hm; simpl; constructor.
  - apply IH; [nia | assumption].
  - destruct n; simpl; constructor. nia.
Qed.

Section AnyHost.
Context {host : Host}.

(** C3, as amended.  An operation that always fails with a retryable
    error, under a policy with at least one attempt, is invoked exactly
    [maxAttempts] times and [withRetry] then fails with the error of the
    last invocation.  The delay before the first retry is
    [initialDelayMs] as given, every later one is the previous delay
    times [backoffMultiplier], capped at [maxDelayMs].  Hence all delays
    are at most [maxDelayMs] when [initialDelayMs] is, and the delays
    never decrease when moreover [0 <= initialDelayMs] and
    [1 <= backoffMultiplier]. *)
Theorem withRetry_exhausts {W T} (fn : W -> (thrown + T) * W)
    (options : RetryOptions) (w : W) (opts : Policy) :
  opts = merge defaultOptions options ->
  1 <= maxAttempts opts ->
  (forall w, exists error w',
     fn w = (inl error, w') /\ retryableErrors opts (toError error) = true) ->
  exists r final,
    withRetry fn options w = Some r
    /\ invocations r = maxAttempts opts
    /\ fst (fn (world_after fn (Z.to_nat (maxAttempts opts - 1)) w)) = inl final
    /\ outcome r = inl (toError final)
    /\ delays r = backoff (Z.to_nat (maxAttempts opts - 1)) (initialDelayMs opts)
                   (backoffMultiplier opts) (maxDelayMs opts)
    /\ (initialDelayMs opts <= maxDelayMs opts ->
        Forall (fun d => d <= maxDelayMs opts) (delays r))
    /\ (0 <= initialDelayMs opts <= maxDelayMs opts ->
        1 <= backoffMultiplier opts -> Sorted Z.le (delays r)).
Proof.
  intros -> Hmax Hfail. unfold withRetry.
  set (opts := merge defaultOptions options) in *.
  destruct (attempts_exhaust fn opts Hfail (Z.to_nat (maxAttempts opts - 1))
              (Z.to_nat (maxAttempts opts)) 1 (initialDelayMs opts)
              (mkError "Unknown error") w)
    as (r & final & Hr & Hlast & Hout & _ & Hn & Hd); [lia | lia |].
  exists r, final. repeat split; try assumption.
  - lia.
  - intros Hcap. rewrite Hd. now apply backoff_capped.
  - intros Hinit Hm. rewrite Hd. now apply backoff_sorted.
Qed.

(** C10.  Under a policy whose [maxAttempts] is zero or negative the
    operation is not invoked (the trace is empty and the world is the
    initial one) and [withRetry] fails with the placeholder error, whose
    message is "Unknown error". *)
Theorem withRetry_no_attempt {W T} (fn : W -> (thrown + T) * W)
    (options : RetryOptions) (w : W) (n : Z) :
  opt_maxAttempts options = Some n ->
  n <= 0 ->
  withRetry fn options w = Some (mkRun (inl (mkError "Unknown error")) w [])
  /\ forall r, withRetry fn options w = Some r -> invocations r = 0.
Proof.
  intros Hn Hle.
  assert (E : withRetry fn options w = Some (mkRun (inl (mkError "Unknown error")) w [])).
  { unfold withRetry, merge. rewrite Hn. simpl.
    destruct (Z.to_nat n) eqn:En;
      simpl; now replace (1 <=? n) with false by (symmetry; lia). }
  split; [exact E |].
  intros r Hr. rewrite E in Hr. injection Hr as <-. reflexivity.
Qed.

End AnyHost.

(** On the host of the samples *)
Section Samples.
#[local] Existing Instance posix_ascii.

(** The default policy on an operation that always times out: three
    invocations, with sleeps of one and two seconds between them. *)
Example withRetry_default_trace :
  withRetry always_timeout noOptions 0%nat
    = Some (mkRun (inl (mkError "Request timeout")) 3%nat
              [Invoke 1; OnRetry (mkError "Request timeout") 1; Sleep 1000;
               Invoke 2; OnRetry (mkError "Request timeout") 2; Sleep 2000;
               Invoke 3]).
Proof. reflexivity. Qed.

Lemma withRetry_exhausts_witness :
  exists r final,
    withRetry always_timeout noOptions 0%nat = Some r
    /\ invocations r = 3
    /\ fst (always_timeout (world_after always_timeout 2 0%nat)) = inl final
    /\ outcome r = inl (toError final)
    /\ delays r = backoff 2 1000 2 10000
    /\ (1000 <= 10000 -> Forall (fun d => d <= 10000) (delays r))
    /\ (0 <= 1000 <= 10000 -> 1 <= 2 -> Sorted Z.le (delays r)).
Proof.
  apply (withRetry_exhausts always_timeout noOptions 0%nat
           (merge defaultOptions noOptions)).
  - reflexivity.
  - simpl. lia.
  - intros w. exists (ThrownError (mkError "Request timeout")), (S w).
    split; reflexivity.
Defined.

(** C3, as stated, fails on a policy whose first delay is above the cap:
    the first sleep lasts [initialDelayMs], which [maxDelayMs] does not
    bound, and the next delay is smaller. *)
Lemma withRetry_first_delay_uncapped :
  exists r,
    withRetry always_timeout steep_options 0%nat = Some r
    /\ invocations r = 3
    /\ delays r = [5000; 1000]
    /\ ~ Forall (fun d => d <= 1000) (delays r)
    /\ ~ Sorted Z.le (delays r).
Proof.
  eexists. split; [vm_compute; reflexivity |].
  split; [reflexivity |]. split; [reflexivity |]. split.
  - intros H. inversion H; subst. lia.
  - intros H. inversion H as [| ? ? _ Hd]; subst. inversion Hd; subst. lia.
Qed.

Lemma withRetry_no_attempt_witness :
  withRetry always_timeout no_attempt_options 0%nat
    = Some (mkRun (inl (mkError "Unknown error")) 0%nat [])
  /\ forall r, withRetry always_timeout no_attempt_options 0%nat = Some r ->
     invocations r = 0.
Proof.
  apply (withRetry_no_attempt always_timeout no_attempt_options 0%nat 0).
  - reflexivity.
  - lia.
Defined.

End Samples.

End RetryFacts.

(** ** The orchestrator: cache and busy flag *)

Module OrchestratorFacts.
Import Js Orchestrator.
Local Open Scope Z_scope.

Section Facts.
Context {C G H : Type}.
Abbreviation World := (World C G H).
Abbreviation Env := (Env C G H).
Abbreviation Request := (Request C G H).
Abbreviation System := (System C G H).
Variable md5 : string -> string.
Variable clock : nat -> Z.

Lemma getCachedResult_hit (env : Env) filePath startLine endLine code (w : World) entry :
  analysisCache w !! getCacheKey filePath startLine endLine = Some entry ->
  clock (reads w) - timestamp entry <= getCacheTtlMs env ->
  codeHash entry = md5 code ->
  getCachedResult md5 clock env filePath startLine endLine code w
    = (Some (result entry), later 1 w).
Proof.
  intros Hl Hage Hh. unfold getCachedResult. rewrite Hl. simpl.
  replace (_ >? _) with false by (symmetry; lia).
  unfold getCodeHash. rewrite Hh, String.eqb_refl. reflexivity.
Qed.

Lemma getCachedResult_evict (env : Env) filePath startLine endLine code (w : World) entry :
  analysisCache w !! getCacheKey filePath startLine endLine = Some entry ->
  getCacheTtlMs env < clock (reads w) - timestamp entry \/ codeHash entry <> md5 code ->
  getCachedResult md5 clock env filePath startLine endLine code w
    = (None, with_cache (delete (getCacheKey filePath startLine endLine) (analysisCache w))
               (later 1 w)).
Proof.
  intros Hl Hor. unfold getCachedResult. rewrite Hl. simpl.
  destruct Hor as [Hage | Hh].
  - replace (_ >? _) with true by (symmetry; lia). reflexivity.
  - apply String.eqb_neq in Hh. unfold getCodeHash. rewrite Hh.
    rewrite orb_true_r. reflexivity.
Qed.

(** After a miss the call goes on to the credential check. *)
Lemma analyzeCode_miss (env : Env) filePath startLine endLine code (w : World) :
  analysisInProgress w = false ->
  fst (getCachedResult md5 clock env filePath startLine endLine code
         (with_last (Some (mkLast filePath startLine endLine code)) w)) = None ->
  exists evs w',
    analyzeCode md5 clock env filePath startLine endLine code false w
      = (GetClaudeApiKey :: evs, w').
Proof.
  intros Hb Hm. unfold analyzeCode. rewrite Hb.
  destruct (getCachedResult _ _ _ _ _ _ _ _) as [cached w1]. simpl in Hm. subst cached.
  destruct (claudeApiKey env), (warningChoice env);
    try destruct (progress _ _ _ _ _ _ _ _) as [evs w2]; simpl; eauto.
Qed.

(** The branch of the flag: a call that finds [analysisInProgress] set
    is answered at once with the busy message; no stage runs, nothing
    is stored, and the variables of the module are left as they are. *)
Lemma analyzeCode_busy (env : Env) path from to text force (w : World) :
  analysisInProgress w = true ->
  analyzeCode md5 clock env path from to text force w
    = ([ShowInformationMessage "Analysis already in progress. Please wait."], w).
Proof. intros Hb. unfold analyzeCode. now rewrite Hb. Qed.

(** The same branch among calls that overlap: the call returns in its
    first segment, and the other calls are where they were. *)
Lemma arrival_at_raised_flag (s : System) (r : Request) :
  analysisInProgress (shared s) = true ->
  handle md5 clock s (Arrives r)
    = mkSystem (calls s ++ [mkCall r Returned]) (shared s)
        (observed s ++ [ShowInformationMessage "Analysis already in progress. Please wait."]).
Proof. intros Hb. unfold handle, enter. now rewrite Hb. Qed.

(** A run of the progress callback in which the three stages succeed
    and the user does not cancel. *)
Lemma progress_success (env : Env) path from to text (w : World) g c h :
  gitAnalyze env path from to = inr g ->
  codeAnalyze env text path g = inr c ->
  githubAnalyze env path g = inr h ->
  (forall k, cancelledDuring env k = false) ->
  progress md5 clock env path from to text w
    = (stage_effects
       ++ CreateOrShow (mkResult path from to text c g h (clock (reads w)) None None)
          :: after_panel env (mkResult path from to text c g h (clock (reads w)) None None),
       mkWorld
         (<[getCacheKey path from to :=
              mkEntry (mkResult path from to text c g h (clock (reads w)) None None)
                (md5 text) (clock (S (reads w)))]> (analysisCache w))
         (lastAnalysis w) false false (S (S (reads w)))).
Proof.
  intros Hg Hc Hh Hn. unfold progress, stages, awaited, after_panel, caught. simpl.
  rewrite !Hn, Hg. simpl. rewrite Hc. simpl. rewrite Hh.
  destruct (createOrShow env _); reflexivity.
Qed.


(** A request whose entry is stale or belongs to another code text is
    analysed again when the surroundings allow it, and the new result
    replaces the entry. *)
Lemma analyzeCode_reanalyses (env : Env) path from to text (w : World) entry g c h :
  analysisInProgress w = false ->
  analysisCache w !! getCacheKey path from to = Some entry ->
  getCacheTtlMs env < clock (reads w) - timestamp entry \/ codeHash entry <> md5 text ->
  claudeApiKey env <> None \/ warningChoice env = ContinueAnyway ->
  gitAnalyze env path from to = inr g ->
  codeAnalyze env text path g = inr c ->
  githubAnalyze env path g = inr h ->
  (forall k, cancelledDuring env k = false) ->
  exists evs,
    analyzeCode md5 clock env path from to text false w
      = (evs ++ CreateOrShow (mkResult path from to text c g h (clock (S (reads w))) None None)
                :: after_panel env
                     (mkResult path from to text c g h (clock (S (reads w))) None None),
         mkWorld
           (<[getCacheKey path from to :=
                mkEntry (mkResult path from to text c g h (clock (S (reads w))) None None)
                  (md5 text) (clock (S (S (reads w))))]> (analysisCache w))
           (Some (mkLast path from to text)) false false (S (S (S (reads w))))).
Proof.
  intros Hb Hl Hor Hkey Hg Hc Hh Hn. unfold analyzeCode. rewrite Hb.
  rewrite (getCachedResult_evict env path from to text
             (with_last (Some (mkLast path from to text)) w) entry Hl Hor).
  rewrite (progress_success env path from to text _ g c h Hg Hc Hh Hn). simpl.
  rewrite insert_delete_eq.
  destruct (claudeApiKey env) as [k |] eqn:Ek.
  - exists (GetClaudeApiKey :: stage_effects). reflexivity.
  - destruct Hkey as [? | Hw]; [congruence |]. rewrite Hw.
    exists ([GetClaudeApiKey;
             ShowWarningMessage
               "Claude API key not configured. AI analysis will use basic static analysis instead."]
            ++ stage_effects).
    reflexivity.
Qed.

(** C1, as amended.  At a lookup that finds an entry under the key of
    the request: the stored result is returned, and the entry kept, when
    the age of the entry is at most the TTL and the stored hash is the
    hash of the current code; when the age is above the TTL or the
    hashes differ, the entry is deleted during the lookup and nothing is
    returned.  A request whose code hashes to another value than the
    stored one is therefore not answered from the cache: it goes on to
    the credential check, and when the analysis can run (a credential or
    the choice to continue, stages that succeed, no cancellation) the
    code is analysed again, the new result is given to the panel and
    replaces the entry; the error message follows when the panel
    throws. *)
Theorem getCachedResult_lookup (env : Env) path from to text (w : World) entry :
  analysisCache w !! getCacheKey path from to = Some entry ->
  (clock (reads w) - timestamp entry <= getCacheTtlMs env /\ codeHash entry = md5 text ->
   getCachedResult md5 clock env path from to text w = (Some (result entry), later 1 w))
  /\ (getCacheTtlMs env < clock (reads w) - timestamp entry \/ codeHash entry <> md5 text ->
      getCachedResult md5 clock env path from to text w
        = (None, with_cache (delete (getCacheKey path from to) (analysisCache w)) (later 1 w)))
  /\ (codeHash entry <> md5 text -> analysisInProgress w = false ->
      exists evs w',
        analyzeCode md5 clock env path from to text false w = (GetClaudeApiKey :: evs, w'))
  /\ (codeHash entry <> md5 text -> analysisInProgress w = false ->
      claudeApiKey env <> None \/ warningChoice env = ContinueAnyway ->
      (forall k, cancelledDuring env k = false) ->
      forall g c h,
        gitAnalyze env path from to = inr g ->
        codeAnalyze env text path g = inr c ->
        githubAnalyze env path g = inr h ->
        exists evs fresh w',
          analyzeCode md5 clock env path from to text false w
            = (evs ++ CreateOrShow fresh :: after_panel env fresh, w')
          /\ fromCache fresh = None
          /\ code fresh = text
          /\ codeAnalysis fresh = c
          /\ analysisCache w' !! getCacheKey path from to
             = Some (mkEntry fresh (md5 text) (clock (2 + reads w)))).
Proof.
  intros Hl. split; [| split; [| split]].
  - intros [Hage Hh]. exact (getCachedResult_hit env path from to text w entry Hl Hage Hh).
  - intros Hor. exact (getCachedResult_evict env path from to text w entry Hl Hor).
  - intros Hh Hb. apply analyzeCode_miss; [assumption |].
    rewrite (getCachedResult_evict env path from to text _ entry); [reflexivity | exact Hl |].
    now right.
  - intros Hh Hb Hkey Hn g c h Hg Hc Hgh.
    destruct (analyzeCode_reanalyses env path from to text w entry g c h
                Hb Hl (or_intror Hh) Hkey Hg Hc Hgh Hn) as [evs Hrun].
    eexists evs, _, _. split; [exact Hrun |].
    repeat split. simpl. apply lookup_insert_eq.
Qed.

(** Whatever happens in the stages, the progress callback ends with
    the flag released. *)
Lemma progress_releases_flag (env : Env) path from to text (w : World) :
  analysisInProgress (snd (progress md5 clock env path from to text w)) = false.
Proof.
  unfold progress.
  destruct (stages md5 clock env path from to text _) as [[evs r] w']. reflexivity.
Qed.

Lemma analyzeCode_releases_flag (env : Env) path from to text force (w : World) :
  analysisInProgress w = false ->
  analysisInProgress (snd (analyzeCode md5 clock env path from to text force w)) = false.
Proof.
  intros Hb. unfold analyzeCode. rewrite Hb.
  assert (Hl : forall w1 : World,
            analysisInProgress w1 = false ->
            analysisInProgress
              (snd (getCachedResult md5 clock env path from to text w1)) = false).
  { intros w1 H1. unfold getCachedResult.
    destruct (analysisCache w1 !! _); [| exact H1]. simpl.
    destruct (_ || _); exact H1. }
  specialize (Hl (with_last (Some (mkLast path from to text)) w) Hb).
  destruct force.
  - destruct (claudeApiKey env), (warningChoice env); simpl;
      try (pose proof (progress_releases_flag env path from to text
                         (with_last (Some (mkLast path from to text)) w)) as Hp;
           destruct (progress _ _ _ _ _ _ _ _); exact Hp);
      exact Hb.
  - destruct (getCachedResult _ _ _ _ _ _ _ _) as [[cached |] w1]; simpl in Hl |- *;
      [destruct (createOrShow env _); exact Hl |].
    destruct (claudeApiKey env), (warningChoice env); simpl;
      try (pose proof (progress_releases_flag env path from to text w1) as Hp;
           destruct (progress _ _ _ _ _ _ _ _); exact Hp);
      exact Hl.
Qed.

Lemma settle_returned fuel (r : Request) (w : World) evs :
  settle md5 clock fuel 0 (mkSystem [mkCall r Returned] w evs)
  = mkSystem [mkCall r Returned] w evs.
Proof. now destruct fuel. Qed.

Lemma settle_step fuel (r : Request) p (w : World) evs :
  p <> Returned ->
  settle md5 clock (S fuel) 0 (mkSystem [mkCall r p] w evs)
  = settle md5 clock fuel 0
      (handle md5 clock
         (if cancels (rq_env r) p
          then handle md5 clock (mkSystem [mkCall r p] w evs) (Cancels 0)
          else mkSystem [mkCall r p] w evs)
         (Settles 0)).
Proof. intros Hp. destruct p; try reflexivity. contradiction. Qed.

#[local] Arguments settle : simpl never.

(** A call that nothing interleaves is [analyzeCode]: taken alone from
    its arrival to its end, with the cancellations that
    [cancelledDuring] tells, it shows what [analyzeCode] shows and
    leaves the variables of the module as [analyzeCode] leaves them. *)
Lemma settle_alone (r : Request) (w : World) :
  let s := settle md5 clock 7 0 (handle md5 clock (idle w) (Arrives r)) in
  (observed s, shared s)
  = analyzeCode md5 clock (rq_env r) (rq_filePath r) (rq_startLine r) (rq_endLine r)
      (rq_code r) (rq_forceRefresh r) w.
Proof.
  destruct r as [env path from to text force].
  unfold analyzeCode, handle, enter, idle.
  cbn [shared calls observed rq_env rq_filePath rq_startLine rq_endLine rq_code
       rq_forceRefresh app].
  destruct (analysisInProgress w) eqn:Hidle.
  { now rewrite settle_returned. }
  destruct (if force then _ else _) as [[cached |] w1] eqn:Hlookup.
  { unfold Date_now. destruct (createOrShow env _); now rewrite settle_returned. }
  unfold progress, stages, awaited, caught.
  repeat first
    [ rewrite settle_returned
    | rewrite settle_step by discriminate
    | progress simpl
    | match goal with
      | E : ?x = _ |- context [?x] => rewrite E
      end
    | match goal with
      | |- context [claudeApiKey ?e] => destruct (claudeApiKey e) eqn:?
      | |- context [warningChoice ?e] => destruct (warningChoice e) eqn:?
      | |- context [cancelledDuring ?e ?k] => destruct (cancelledDuring e k) eqn:?
      | |- context [gitAnalyze ?e ?a ?b ?c] => destruct (gitAnalyze e a b c) eqn:?
      | |- context [codeAnalyze ?e ?a ?b ?c] => destruct (codeAnalyze e a b c) eqn:?
      | |- context [githubAnalyze ?e ?a ?b] => destruct (githubAnalyze e a b) eqn:?
      | |- context [createOrShow ?e ?r] => destruct (createOrShow e r) eqn:?
      end ];
    reflexivity.
Qed.

End Facts.

(** The lookup at the sample world with another code text: the entry
    is deleted and the new text is analysed. *)
Lemma getCachedResult_lookup_witness :
  getCachedResult sample_md5 sample_clock sample_env "a.ts" 1 2 "let x = 2;" cached_world
    = (None, with_cache (delete (getCacheKey "a.ts" 1 2) (analysisCache cached_world))
               (later 1 cached_world))
  /\ exists evs fresh w',
       analyzeCode sample_md5 sample_clock sample_env "a.ts" 1 2 "let x = 2;" false cached_world
         = (evs ++ CreateOrShow fresh :: after_panel sample_env fresh, w')
       /\ fromCache fresh = None
       /\ code fresh = "let x = 2;"
       /\ codeAnalysis fresh = tt
       /\ analysisCache w' !! getCacheKey "a.ts" 1 2
          = Some (mkEntry fresh (sample_md5 "let x = 2;") (sample_clock 4)).
Proof.
  assert (Hl : analysisCache cached_world !! getCacheKey "a.ts" 1 2
               = Some (mkEntry sample_result (sample_md5 "let x = 1;") 0))
    by apply lookup_singleton_eq.
  destruct (getCachedResult_lookup sample_md5 sample_clock sample_env "a.ts" 1 2 "let x = 2;"
              cached_world (mkEntry sample_result (sample_md5 "let x = 1;") 0) Hl)
    as (_ & Hevict & _ & Hagain).
  assert (Hne : codeHash (mkEntry sample_result (sample_md5 "let x = 1;") 0)
                <> sample_md5 "let x = 2;") by discriminate.
  assert (Hkey : claudeApiKey sample_env <> None \/ warningChoice sample_env = ContinueAnyway)
    by (left; discriminate).
  split.
  - apply Hevict. right. exact Hne.
  - apply (Hagain Hne eq_refl Hkey (fun _ => eq_refl) tt tt tt); reflexivity.
Defined.

(** A request that arrives at the sample world in which an analysis
    has raised the flag *)
Example analyzeCode_busy_sample :
  analyzeCode sample_md5 sample_clock sample_env "b.ts" 3 4 "let y = 2;" false busy_world
    = ([ShowInformationMessage "Analysis already in progress. Please wait."], busy_world).
Proof. now apply analyzeCode_busy. Qed.

(** C1, as stated, fails at the boundary: an entry whose age equals the
    TTL (so is not less than it) is served and stays in the cache. *)
Lemma getCachedResult_serves_at_ttl :
  sample_clock (reads cached_world) - 0 = getCacheTtlMs sample_env
  /\ ~ (sample_clock (reads cached_world) - 0 < getCacheTtlMs sample_env)
  /\ getCachedResult sample_md5 sample_clock sample_env "a.ts" 1 2 "let x = 1;" cached_world
      = (Some sample_result, later 1 cached_world)
  /\ analysisCache (later 1 cached_world) !! getCacheKey "a.ts" 1 2
      = Some (mkEntry sample_result (sample_md5 "let x = 1;") 0).
Proof.
  split; [reflexivity |]. split; [vm_compute; discriminate |]. split.
  - apply (getCachedResult_hit sample_md5 sample_clock sample_env "a.ts" 1 2 "let x = 1;"
             cached_world (mkEntry sample_result (sample_md5 "let x = 1;") 0)).
    + apply lookup_singleton_eq.
    + vm_compute. discriminate.
    + reflexivity.
  - apply lookup_singleton_eq.
Qed.



(** C4.  The flag does not keep the analyses apart: it is tested when
    the call is made and raised only when the progress callback is
    entered, after the credential has been awaited.  A second request
    that arrives while the first awaits the credential passes the test;
    both calls enter the callback and both analyses are in flight, with
    two git stages launched and no busy message shown.  When the first
    analysis ends it releases the flag while the second is still in
    flight. *)
Theorem two_analyses_in_flight :
  let s := run sample_md5 sample_clock (idle empty_world)
             [Arrives first_request; Arrives second_request;
              Settles 0%nat; Settles 0%nat; Settles 1%nat; Settles 1%nat] in
  let s' := run sample_md5 sample_clock s [Settles 0%nat; Settles 0%nat; Settles 0%nat] in
  map point (calls s) = [AwaitsGit; AwaitsGit]
  /\ analyses_in_flight s = 2%nat
  /\ observed s
     = [GetClaudeApiKey; GetClaudeApiKey;
        Report "Fetching git history..."; GitStage;
        Report "Fetching git history..."; GitStage]
  /\ map point (calls s') = [Returned; AwaitsGit]
  /\ analyses_in_flight s' = 1%nat
  /\ analysisInProgress (shared s') = false.
Proof. repeat split. Qed.

End OrchestratorFacts.

(** ** The purpose summarizer *)

Module SummarizerFacts.
Import Js JsFacts Summarizer.
Local Open Scope Z_scope.

Lemma one_of_fallback valid fallback v :
  (forall s, v = JStr s -> s ∉ valid) -> one_of valid fallback v = fallback.
Proof.
  intros Hv. destruct v as [| | | | s | |]; try reflexivity. simpl.
  case_bool_decide as Hin; [| reflexivity]. now destruct (Hv s eq_refl).
Qed.

Lemma one_of_valid valid fallback v :
  fallback ∈ valid -> one_of valid fallback v ∈ valid.
Proof.
  intros Hf. destruct v as [| | | | s | |]; try exact Hf. simpl.
  now case_bool_decide.
Qed.

Lemma not_array_empty v : isArray v = false -> array_or_empty v = [].
Proof. now destruct v. Qed.

Lemma validateRisks_not_array v : isArray v = false -> validateRisks v = Some [noRisk].
Proof. now destruct v. Qed.

Lemma prop_None v k : prop v k = None <-> v = JNull \/ v = JUndefined.
Proof.
  destruct v; simpl; split; try discriminate; auto; intros [H | H]; discriminate.
Qed.

Lemma mapM_None {A B} (f : A -> option B) l :
  mapM f l = None <-> exists x, x ∈ l /\ f x = None.
Proof.
  induction l as [| x l IH]; simpl.
  - split; [discriminate | intros (x & Hin & _); inversion Hin].
  - destruct (f x) as [y |] eqn:Ex; simpl.
    + destruct (mapM f l) as [k |]; simpl.
      * split; [discriminate |]. intros (x' & [-> | Hin]%elem_of_cons & Hx'); [congruence |].
        destruct IH as [_ IH]. discriminate IH. now exists x'.
      * split; [| reflexivity]. intros _.
        destruct IH as [IH _]. destruct (IH eq_refl) as (x' & Hin & Hx').
        exists x'. split; [now apply list_elem_of_further | exact Hx'].
    + split; [| reflexivity]. intros _. exists x. split; [apply list_elem_of_here | exact Ex].
Qed.

(** The risks of a response cannot be read exactly when they are an
    array that holds [null] or [undefined]. *)
Lemma validateRisks_None v :
  validateRisks v = None
  <-> exists items, v = JArr items /\ exists item, item ∈ items /\ (item = JNull \/ item = JUndefined).
Proof.
  assert (Hrisk : forall item, validateRisk item = None <-> item = JNull \/ item = JUndefined).
  { intros item. rewrite <- (prop_None item "level"). unfold validateRisk.
    destruct item; simpl; split; try discriminate; auto. }
  split.
  - destruct v as [| | | | | items |]; try discriminate. simpl.
    intros (item & Hin & Hitem)%mapM_None. exists items. split; [reflexivity |].
    exists item. split; [exact Hin | now apply Hrisk].
  - intros (items & -> & item & Hin & Hitem). simpl. apply mapM_None.
    exists item. split; [exact Hin | now apply Hrisk].
Qed.

Section Host.
Context {host : Host}.

Lemma validateSuggestedTests_not_array v :
  isArray v = false -> validateSuggestedTests v = Some [].
Proof. now destruct v. Qed.

(** A rule that matches after rules that do not is the one taken. *)
Lemma first_match_app before category after otherwise :
  Forall (fun rule => fst rule = false) before ->
  first_match (before ++ (true, category) :: after) otherwise = category.
Proof.
  induction 1 as [| [b c] before Hb _ IH]; simpl; [reflexivity |].
  simpl in Hb. now rewrite Hb.
Qed.

Lemma inferMainPurposeCategory_first_match code filePath codeType :
  inferMainPurposeCategory code filePath codeType
    = first_match (category_chain code (toLowerCase (basename filePath)) codeType) "unknown".
Proof.
  unfold inferMainPurposeCategory, category_chain, testing_indicator,
    authentication_indicator, security_indicator, infrastructure_indicator, ui_indicator,
    data_access_indicator, integration_indicator, performance_indicator, legacy_indicator,
    utility_indicator, recognizable_shape, any_in.
  cbn [first_match existsb].
  rewrite ?orb_false_r, ?orb_assoc. reflexivity.
Qed.

(** Without a testing indicator, code that contains "login" is
    classified by the second rule. *)
Lemma login_is_authentication code filePath codeType :
  testing_indicator (toLowerCase (basename filePath)) codeType = false ->
  includes code "login" = true ->
  inferMainPurposeCategory code filePath codeType = "authentication".
Proof.
  intros Htest Hlogin. rewrite inferMainPurposeCategory_first_match.
  unfold category_chain. simpl. rewrite Htest.
  unfold authentication_indicator, any_in. cbn [existsb].
  rewrite (includes_toLowerCase code "login" eq_refl eq_refl Hlogin).
  now rewrite !orb_true_r.
Qed.

(** The checks of [detectCodeType] for tests look for more than the
    file-name indicators of the category chain do. *)
Lemma detectCodeType_not_test codeShape code filePath :
  any_in (toLowerCase (basename filePath)) ["test"; "spec"; "mock"; "fixture"] = false ->
  includes code "describe(" && includes code "it(" = false ->
  String.eqb (detectCodeType codeShape code filePath) "test" = false.
Proof.
  unfold any_in, detectCodeType. cbn [existsb].
  set (fileName := toLowerCase (basename filePath)).
  intros Hfile Hcode.
  rewrite !orb_false_iff in Hfile. destruct Hfile as (Htest & Hspec & _).
  assert (forall word part, includes word part = true -> includes fileName part = false ->
                            includes fileName word = false) as Hpart.
  { intros word part Hp Hn. destruct (includes fileName word) eqn:E; [| reflexivity].
    now rewrite (includes_part fileName word part Hp E) in Hn. }
  rewrite (Hpart ".test." "test" eq_refl Htest), (Hpart ".spec." "spec" eq_refl Hspec),
    (Hpart "_test." "test" eq_refl Htest), Hcode.
  simpl. destruct (_ || _); [reflexivity |]. now destruct (codeShape code).
Qed.

(** C9.  The category of the static analysis is the category of the
    first rule that matches in the chain testing, authentication,
    security, infrastructure, UI, data access, integration, performance,
    legacy, utility, business logic, and "unknown" when none does.  In
    particular code that contains "login" and "token", with no testing
    indicator in the file name or the code, is "authentication", both
    for a code type that is not "test" and in the result of the static
    analysis. *)
Theorem inferMainPurposeCategory_chain code filePath codeType :
  inferMainPurposeCategory code filePath codeType
    = first_match (category_chain code (toLowerCase (basename filePath)) codeType) "unknown"
  /\ map snd (category_chain code (toLowerCase (basename filePath)) codeType)
      = ["testing"; "authentication"; "security"; "infrastructure"; "ui-ux"; "data-access";
         "api-client"; "performance"; "legacy"; "utility"; "business-logic"]
  /\ (forall before category after,
       category_chain code (toLowerCase (basename filePath)) codeType
         = before ++ (true, category) :: after ->
       Forall (fun rule => fst rule = false) before ->
       inferMainPurposeCategory code filePath codeType = category)
  /\ (Forall (fun rule => fst rule = false)
        (category_chain code (toLowerCase (basename filePath)) codeType) ->
      inferMainPurposeCategory code filePath codeType = "unknown")
  /\ (testing_indicator (toLowerCase (basename filePath)) codeType = false ->
      includes code "login" = true -> includes code "token" = true ->
      inferMainPurposeCategory code filePath codeType = "authentication")
  /\ (forall codeShape calculateComplexity extractDependencies extractExports
             inferPurposes generatePurposeSummary,
       any_in (toLowerCase (basename filePath)) ["test"; "spec"; "mock"; "fixture"] = false ->
       includes code "describe(" && includes code "it(" = false ->
       includes code "login" = true -> includes code "token" = true ->
       mainPurposeCategory
         (analyzeStatic codeShape calculateComplexity extractDependencies extractExports
            inferPurposes generatePurposeSummary code filePath)
         = "authentication").
Proof.
  split; [apply inferMainPurposeCategory_first_match |].
  split; [reflexivity |].
  split; [| split; [| split]].
  - intros before category after E Hb.
    rewrite inferMainPurposeCategory_first_match, E. now apply first_match_app.
  - rewrite inferMainPurposeCategory_first_match.
    generalize (category_chain code (toLowerCase (basename filePath)) codeType).
    induction 1 as [| [b c] rules Hb _ IH]; simpl; [reflexivity |].
    simpl in Hb. now rewrite Hb.
  - intros Htest Hlogin _. now apply login_is_authentication.
  - intros codeShape calculateComplexity extractDependencies extractExports
      inferPurposes generatePurposeSummary Hfile Hcode Hlogin _.
    simpl. apply login_is_authentication; [| assumption].
    unfold testing_indicator.
    now rewrite (detectCodeType_not_test codeShape code filePath Hfile Hcode), Hfile.
Qed.

(** *** Risks and suggested tests *)

Lemma sort_by_Forall {A} (key : A -> Z) (P : A -> Prop) l :
  Forall P l -> Forall P (sort_by key l).
Proof. intros Hl. now rewrite sort_by_perm. Qed.

Lemma assessRisks_sorted code complexity dependencies :
  Sorted critical_first (assessRisks code complexity dependencies).
Proof. unfold assessRisks. apply (sort_by_sorted (fun r => riskOrder (level r))). Qed.

Lemma assessRisks_levels code complexity dependencies :
  Forall (fun r => level r ∈ ["critical"; "high"; "medium"; "low"])
    (assessRisks code complexity dependencies).
Proof.
  unfold assessRisks. apply sort_by_Forall.
  destruct (String.eqb complexity "high" || String.eqb complexity "very-high");
    destruct (String.eqb complexity "very-high");
    destruct (10 <? length dependencies)%nat;
    destruct (includes code "window." || includes code "global." || includes code "globalThis.");
    destruct (includes code "eval(" || includes code "innerHTML");
    simpl; repeat constructor; set_solver.
Qed.

Lemma prop_is_Some v k x k' : prop v k = Some x -> is_Some (prop v k').
Proof. destruct v; simpl; intros; try discriminate; eauto. Qed.

Lemma validateTest_valid item test :
  validateTest item = Some test ->
  test_type test ∈ ["unit"; "integration"; "e2e"; "manual"]
  /\ priority test ∈ ["high"; "medium"; "low"].
Proof.
  unfold validateTest. intros Hv.
  destruct (prop item "type") as [t |]; [| discriminate].
  destruct (prop item "description") as [d |]; [| discriminate].
  destruct (prop item "priority") as [p |]; [| discriminate].
  destruct (prop item "reason") as [r |]; [| discriminate].
  simpl in Hv. injection Hv as <-. simpl.
  split; apply one_of_valid; set_solver.
Qed.

Lemma mapM_Forall {A B} (f : A -> option B) (P : B -> Prop) l k :
  (forall x y, f x = Some y -> P y) -> mapM f l = Some k -> Forall P k.
Proof.
  intros Hf Hm. apply mapM_Some in Hm.
  induction Hm as [| x y l k Hxy _ IH]; constructor; eauto.
Qed.

Lemma unique_Forall (P : SuggestedTest -> Prop) tests : forall seen result,
  unique seen tests = Some result -> Forall P tests -> Forall P result.
Proof.
  induction tests as [| test rest IH]; intros seen result Hu Hall; simpl in Hu.
  - now injection Hu as <-.
  - inversion Hall as [| ? ? Ht Hrest]; subst.
    destruct (test_key test) as [key |]; [| discriminate]. simpl in Hu.
    case_bool_decide.
    + now apply (IH seen).
    + destruct (unique ({[key]} ∪ seen) rest) as [r' |] eqn:Er; [| discriminate].
      simpl in Hu. injection Hu as <-. constructor; [assumption |].
      now apply (IH ({[key]} ∪ seen)).
Qed.

(** The tests kept have keys outside [seen], and no key twice. *)
Lemma unique_NoDup tests : forall seen result,
  unique seen tests = Some result ->
  NoDup (map test_key result)
  /\ Forall (fun t => exists key, test_key t = Some key /\ key ∉ seen) result.
Proof.
  induction tests as [| test rest IH]; intros seen result Hu; simpl in Hu.
  - injection Hu as <-. split; constructor.
  - destruct (test_key test) as [key |] eqn:Ek; [| discriminate]. simpl in Hu.
    case_bool_decide as Hseen.
    + now apply IH.
    + destruct (unique ({[key]} ∪ seen) rest) as [r' |] eqn:Er; [| discriminate].
      simpl in Hu. injection Hu as <-.
      destruct (IH _ _ Er) as [Hnd Hout]. split.
      * simpl. constructor; [| assumption].
        rewrite Ek. intros Hin. apply list_elem_of_fmap in Hin as (t & Ht & Hin).
        rewrite Forall_forall in Hout. destruct (Hout t Hin) as (k & Hk & Hnot).
        assert (k = key) by congruence. subst k.
        apply Hnot, elem_of_union_l, elem_of_singleton. reflexivity.
      * constructor; [now exists key |].
        eapply Forall_impl; [exact Hout |].
        intros t (k & Hk & Hnot). exists k. split; [assumption |].
        intros Hin. now apply Hnot, elem_of_union_r.
Qed.

(** Tests with the same type and normalized description have the same
    key, so keys without repetition give pairs without repetition. *)
Lemma test_key_pair test :
  test_key test
    = (let '(type, n) := type_and_description test in
       n' ← n; Some (type +:+ ":" +:+ n')).
Proof. reflexivity. Qed.

Lemma NoDup_pairs tests :
  NoDup (map test_key tests) -> NoDup (map type_and_description tests).
Proof.
  intros Hnd.
  apply (NoDup_fmap_1 (fun '(type, n) => n' ← n; Some (type +:+ ":" +:+ n'))).
  rewrite <- list_fmap_compose.
  erewrite list_fmap_ext; [exact Hnd |].
  intros i test _. reflexivity.
Qed.

Lemma validateSuggestedTests_result tests result :
  validateSuggestedTests tests = Some result ->
  NoDup (map type_and_description result)
  /\ Sorted priority_first result
  /\ Forall (fun t => priority t ∈ ["high"; "medium"; "low"]) result.
Proof.
  intros Hv. destruct tests as [| | | | | items |];
    try (injection Hv as <-; repeat split; constructor).
  simpl in Hv.
  destruct (mapM validateTest items) as [validated |] eqn:Em; [| discriminate].
  simpl in Hv.
  destruct (unique ∅ validated) as [uniqueTests |] eqn:Eu; [| discriminate].
  simpl in Hv. injection Hv as <-.
  split; [| split].
  - rewrite sort_by_perm. apply NoDup_pairs. now apply (unique_NoDup validated ∅).
  - apply (sort_by_sorted (fun t => priorityOrder (priority t))).
  - apply sort_by_Forall, (unique_Forall _ validated ∅); [assumption |].
    apply (mapM_Forall validateTest _ items); [| assumption].
    intros item test Hi. now apply validateTest_valid in Hi.
Qed.

Lemma unique_total tests : forall seen,
  Forall (fun t => is_Some (normalized t)) tests -> is_Some (unique seen tests).
Proof.
  induction tests as [| test rest IH]; intros seen Hall; simpl; [eauto |].
  inversion Hall as [| ? ? [n Hn] Hrest]; subst.
  unfold test_key. rewrite Hn. simpl.
  case_bool_decide; [now apply IH |].
  destruct (IH ({[test_type test +:+ ":" +:+ n]} ∪ seen) Hrest) as [r Hr].
  rewrite Hr. simpl. eauto.
Qed.

Lemma validateTest_readable item :
  readable item = true ->
  exists test, validateTest item = Some test /\ is_Some (normalized test).
Proof.
  unfold readable, validateTest. intros Hr.
  destruct (prop item "description") as [d |] eqn:Ed; [| discriminate].
  destruct (prop_is_Some _ _ _ "type" Ed) as [t ->].
  destruct (prop_is_Some _ _ _ "priority" Ed) as [p ->].
  destruct (prop_is_Some _ _ _ "reason" Ed) as [r ->].
  simpl. eexists. split; [reflexivity |].
  unfold normalized. simpl. destruct (or_else d (JStr "Test case")); try discriminate. eauto.
Qed.

Lemma validateSuggestedTests_total items :
  forallb readable items = true -> is_Some (validateSuggestedTests (JArr items)).
Proof.
  intros Hall. simpl.
  assert (exists validated,
            mapM validateTest items = Some validated
            /\ Forall (fun t => is_Some (normalized t)) validated) as (validated & -> & Hn).
  { induction items as [| item items IH]; [exists []; split; [reflexivity | constructor] |].
    simpl in Hall. apply andb_true_iff in Hall as [Hi Hrest].
    destruct (validateTest_readable item Hi) as (test & Ht & Hs).
    destruct (IH Hrest) as (validated & Hm & Hv).
    exists (test :: validated). split; [| now constructor].
    simpl. rewrite Ht. simpl. now rewrite Hm. }
  simpl. destruct (unique_total validated ∅ Hn) as [u ->]. simpl. eauto.
Qed.

Lemma unique_None tests : forall seen,
  (exists test, test ∈ tests /\ normalized test = None) -> unique seen tests = None.
Proof.
  induction tests as [| test rest IH]; intros seen (bad & Hin & Hbad); [inversion Hin |].
  simpl. unfold test_key at 1.
  destruct (normalized test) as [n |] eqn:En; [| reflexivity]. simpl.
  apply elem_of_cons in Hin as [-> | Hin]; [congruence |].
  case_bool_decide; [apply IH; now exists bad |].
  rewrite (IH _ (ex_intro _ bad (conj Hin Hbad))). reflexivity.
Qed.

(** The suggested tests of a response cannot be read exactly when they
    are an array with an element that is [null] or [undefined], or
    whose description is neither a string nor falsy. *)
Lemma validateSuggestedTests_None v :
  validateSuggestedTests v = None
  <-> exists items, v = JArr items /\ exists item, item ∈ items /\ readable item = false.
Proof.
  split.
  - destruct v as [| | | | | items |]; try discriminate. intros Hnone.
    exists items. split; [reflexivity |].
    destruct (forallb readable items) eqn:Hall.
    + destruct (validateSuggestedTests_total items Hall) as [r Hr]. congruence.
    + clear Hnone. induction items as [| item items IH]; [discriminate |].
      simpl in Hall. apply andb_false_iff in Hall as [Hi | Hrest].
      * exists item. split; [apply list_elem_of_here | exact Hi].
      * destruct (IH Hrest) as (bad & Hin & Hbad).
        exists bad. split; [now apply list_elem_of_further | exact Hbad].
  - intros (items & -> & item & Hin & Hbad). simpl.
    destruct (mapM validateTest items) as [validated |] eqn:Em; [| reflexivity].
    simpl. rewrite unique_None; [reflexivity |].
    apply mapM_Some in Em. clear -Em Hin Hbad.
    induction Em as [| x test l k Hx _ IH]; [inversion Hin |].
    apply elem_of_cons in Hin as [<- | Hin].
    + exists test. split; [apply list_elem_of_here |].
      unfold readable in Hbad. unfold validateTest in Hx.
      destruct (prop item "type") as [t |]; [| discriminate].
      destruct (prop item "description") as [d |]; [| discriminate].
      destruct (prop item "priority") as [p |]; [| discriminate].
      destruct (prop item "reason") as [r |]; [| discriminate].
      simpl in Hx. injection Hx as <-. unfold normalized. simpl.
      now destruct (or_else d (JStr "Test case")).
    + destruct (IH Hin) as (bad & Hin' & Hbad').
      exists bad. split; [now apply list_elem_of_further | exact Hbad'].
Qed.

(** C5, as amended.  A category outside the enumeration becomes
    "unknown" and a complexity outside low, medium, high, very-high
    becomes "medium"; of the list fields, [dependencies], [exports],
    [potentialPurposes] and [suggestedTests] become the empty list when
    the response has no array there, and [risks] becomes the one default
    risk of level low.  None of these fails the mapping: it fails only
    on an array of risks or of tests with an element that cannot be
    read, and every field of its result is the validation of the field
    of the response, whatever the others hold. *)
Theorem malformed_fields_coerced :
  (forall category, (forall s, category = JStr s -> s ∉ validCategories) ->
     validateMainPurposeCategory category = "unknown")
  /\ (forall complexity, (forall s, complexity = JStr s -> s ∉ validLevels) ->
     validateComplexity complexity = "medium")
  /\ (forall v, isArray v = false ->
       array_or_empty v = [] /\ validateSuggestedTests v = Some []
       /\ validateRisks v = Some [noRisk])
  /\ (forall analysis,
       mapAnalysis analysis = None
       <-> (exists items, assoc "risks" analysis = JArr items
                          /\ exists item, item ∈ items /\ (item = JNull \/ item = JUndefined))
           \/ (exists items, assoc "suggestedTests" analysis = JArr items
                             /\ exists item, item ∈ items /\ readable item = false))
  /\ (forall analysis r, mapAnalysis analysis = Some r ->
       mainPurposeCategory r = validateMainPurposeCategory (assoc "mainPurposeCategory" analysis)
       /\ complexity r = validateComplexity (assoc "complexity" analysis)
       /\ dependencies r = array_or_empty (assoc "dependencies" analysis)
       /\ exports r = array_or_empty (assoc "exports" analysis)
       /\ potentialPurposes r = array_or_empty (assoc "potentialPurposes" analysis)
       /\ validateSuggestedTests (assoc "suggestedTests" analysis)
          = suggestedTests r
       /\ validateRisks (assoc "risks" analysis) = Some (risks r)).
Proof.
  split; [| split; [| split; [| split]]].
  - intros category Hc. now apply one_of_fallback.
  - intros complexity Hc. now apply one_of_fallback.
  - intros v Hv. split; [now apply not_array_empty |].
    split; [now apply validateSuggestedTests_not_array | now apply validateRisks_not_array].
  - intros analysis. rewrite <- validateRisks_None, <- validateSuggestedTests_None.
    unfold mapAnalysis.
    destruct (validateRisks (assoc "risks" analysis)) as [rs |]; simpl;
      [| split; [now left | reflexivity]].
    destruct (validateSuggestedTests (assoc "suggestedTests" analysis)) as [ts |]; simpl.
    + split; [discriminate | intros [H | H]; discriminate].
    + split; [now right | reflexivity].
  - intros analysis r Hm. unfold mapAnalysis in Hm.
    destruct (validateRisks (assoc "risks" analysis)) as [rs |] eqn:Er; [| discriminate].
    destruct (validateSuggestedTests (assoc "suggestedTests" analysis)) as [ts |] eqn:Et;
      [| discriminate].
    simpl in Hm. injection Hm as <-. simpl. repeat split.
Qed.

(** C6, as amended.  The static analysis returns its risks sorted
    critical-first (critical, high, medium, low) and returns no list of
    suggested tests.  The suggested tests of a response of the reasoning
    service are returned without two entries of the same type and
    normalized description, sorted priority-first (high, medium, low),
    whenever their descriptions can be read; the risks of a response are
    validated one by one and returned in the order of the response. *)
Theorem risks_and_tests_order :
  (forall codeShape calculateComplexity extractDependencies extractExports
          inferPurposes generatePurposeSummary code filePath,
     Sorted critical_first
       (risks (analyzeStatic codeShape calculateComplexity extractDependencies
                 extractExports inferPurposes generatePurposeSummary code filePath))
     /\ Forall (fun r => level r ∈ ["critical"; "high"; "medium"; "low"])
          (risks (analyzeStatic codeShape calculateComplexity extractDependencies
                    extractExports inferPurposes generatePurposeSummary code filePath))
     /\ suggestedTests (analyzeStatic codeShape calculateComplexity extractDependencies
                          extractExports inferPurposes generatePurposeSummary code filePath)
        = None)
  /\ (forall tests result, validateSuggestedTests tests = Some result ->
       NoDup (map type_and_description result)
       /\ Sorted priority_first result
       /\ Forall (fun t => priority t ∈ ["high"; "medium"; "low"]) result)
  /\ (forall items, forallb readable items = true ->
       is_Some (validateSuggestedTests (JArr items)))
  /\ (forall items result, validateRisks (JArr items) = Some result ->
       Forall2 (fun item r => validateRisk item = Some r) items result).
Proof.
  split; [| split; [| split]].
  - intros. simpl. split; [apply assessRisks_sorted |].
    split; [apply assessRisks_levels | reflexivity].
  - apply validateSuggestedTests_result.
  - apply validateSuggestedTests_total.
  - intros items result Hv. simpl in Hv. now apply mapM_Some in Hv.
Qed.
End Host.

(** On the host of the samples *)
Section Samples.
#[local] Existing Instance posix_ascii.

(** A response with a category and a complexity outside the
    enumerations, risks that are a string, and no other list. *)
Lemma malformed_fields_coerced_witness :
  validateMainPurposeCategory (JStr "parsing") = "unknown"
  /\ validateComplexity (JStr "extreme") = "medium"
  /\ mapAnalysis response_without_lists <> None
  /\ forall r, mapAnalysis response_without_lists = Some r ->
       dependencies r = [] /\ suggestedTests r = Some [] /\ risks r = [noRisk].
Proof.
  destruct malformed_fields_coerced as (Hcat & Hcx & _ & Hnone & Hfields).
  split; [| split; [| split]].
  - apply Hcat. intros s [= <-].
    apply (bool_decide_eq_false_1 ("parsing" ∈ validCategories)). reflexivity.
  - apply Hcx. intros s [= <-].
    apply (bool_decide_eq_false_1 ("extreme" ∈ validLevels)). reflexivity.
  - intros Hn. apply Hnone in Hn as [(items & Hr & _) | (items & Ht & _)]; discriminate.
  - intros r Hr.
    destruct (Hfields response_without_lists r Hr) as (_ & _ & Hd & _ & _ & Ht & Hk).
    split; [exact Hd |]. split; [symmetry; exact Ht |].
    simpl in Hk. now injection Hk as <-.
Defined.

(** C5, as stated, fails for [risks]: a response whose [risks] is not
    an array is given one risk, not the empty list. *)
Lemma risks_default_not_empty :
  exists r,
    mapAnalysis response_without_lists = Some r
    /\ isArray (assoc "risks" response_without_lists) = false
    /\ risks r = [noRisk]
    /\ risks r <> [].
Proof.
  eexists. split; [vm_compute; reflexivity |].
  split; [reflexivity |]. split; [reflexivity | discriminate].
Qed.

Example inferMainPurposeCategory_samples :
  inferMainPurposeCategory "function login(user) { return token; }" "/src/session.spec.ts"
    "function" = "testing"
  /\ inferMainPurposeCategory "const total = a + b" "/src/sum.ts" "function" = "business-logic"
  /\ inferMainPurposeCategory "const total = a + b" "/src/sum.ts" "unknown" = "unknown".
Proof. repeat split; reflexivity. Qed.

Lemma inferMainPurposeCategory_chain_witness :
  inferMainPurposeCategory "function login(user) { return token; }" "/src/session.ts" "function"
    = "authentication".
Proof.
  destruct (inferMainPurposeCategory_chain
              "function login(user) { return token; }" "/src/session.ts" "function")
    as (_ & _ & _ & _ & Hlogin & _).
  apply Hlogin; reflexivity.
Defined.

(** Of two unit tests with the same normalized description the first is
    kept, and the tests of high priority come first. *)
Example validateSuggestedTests_sample :
  (map (fun t => (test_type t, test_description t, priority t))
     <$> validateSuggestedTests sample_tests)
    = Some [("e2e", JStr "checks x", "high"); ("unit", JStr "  Checks X ", "low")].
Proof. reflexivity. Qed.

Lemma risks_and_tests_order_witness :
  exists result,
    validateSuggestedTests sample_tests = Some result
    /\ NoDup (map type_and_description result)
    /\ Sorted priority_first result
    /\ Forall (fun t => priority t ∈ ["high"; "medium"; "low"]) result.
Proof.
  destruct risks_and_tests_order as (_ & Htests & Htotal & _).
  destruct (Htotal [JObj [("type", JStr "unit"); ("description", JStr "  Checks X ");
                          ("priority", JStr "low")];
                    JObj [("type", JStr "unit"); ("description", JStr "checks x");
                          ("priority", JStr "high")];
                    JObj [("type", JStr "e2e"); ("description", JStr "checks x");
                          ("priority", JStr "high")]] eq_refl) as [result Hr].
  exists result. split; [exact Hr |]. exact (Htests sample_tests result Hr).
Defined.

(** C6, as stated, fails for the risks of the reasoning service: a
    response that lists a low risk before a critical one is returned in
    that order. *)
Lemma validateRisks_keeps_order :
  exists low critical,
    validateRisks unsorted_risks = Some [low; critical]
    /\ level low = "low" /\ level critical = "critical"
    /\ ~ Sorted critical_first [low; critical].
Proof.
  eexists _, _. split; [vm_compute; reflexivity |].
  split; [reflexivity |]. split; [reflexivity |].
  intros Hs. inversion Hs as [| ? ? _ Hhd]; subst.
  inversion Hhd as [| ? ? Hle]; subst. vm_compute in Hle. now apply Hle.
Qed.

End Samples.

End SummarizerFacts.

(** ** The review-link resolver *)

Module ReviewsFacts.
Import Js Reviews.

(** The state of a record is "merged" when [merged_at] is truthy, and
    the raw state otherwise. *)
Lemma mapPullRequest_state pr record :
  mapPullRequest pr = Some record ->
  exists raw,
    prop pr "state" = Some raw
    /\ prop pr "merged_at" = Some (mergedAt record)
    /\ state record = if truthy (mergedAt record) then JStr "merged" else raw.
Proof.
  unfold mapPullRequest. intros Hm.
  repeat match type of Hm with
         | (match ?o with _ => _ end ≫= _) = Some _ =>
             destruct o eqn:?; simpl in Hm; try discriminate
         | (?o ≫= _) = Some _ => destruct o eqn:?; simpl in Hm; try discriminate
         end.
  all: injection Hm as <-; simpl; eauto.
Qed.

Lemma recordsOf_mapped data record :
  record ∈ recordsOf data -> exists pr, mapPullRequest pr = Some record.
Proof.
  destruct data as [| | | | | prs |]; simpl; try (intros Hin; now inversion Hin).
  destruct (mapM mapPullRequest prs) as [records |] eqn:Em; simpl;
    [| intros Hin; now inversion Hin].
  apply mapM_Some in Em. intros Hin.
  induction Em as [| pr r prs records Hpr _ IH]; [now inversion Hin |].
  apply elem_of_cons in Hin as [-> | Hin]; eauto.
Qed.

(** C7.  In every record the resolver produces, a merge timestamp that
    is set makes the state "merged", whatever the raw state of the pull
    request is.  The program tests [merged_at] for truth; a timestamp
    that is not [null] is a string that is not empty, and so is true. *)
Theorem merged_state_precedence data record :
  record ∈ recordsOf data ->
  (truthy (mergedAt record) = true -> state record = JStr "merged")
  /\ (forall timestamp, mergedAt record = JStr timestamp -> timestamp <> "" ->
      state record = JStr "merged").
Proof.
  intros Hin. destruct (recordsOf_mapped data record Hin) as [pr Hpr].
  destruct (mapPullRequest_state pr record Hpr) as (raw & _ & _ & Hstate).
  assert (Ht : truthy (mergedAt record) = true -> state record = JStr "merged")
    by (intros Htrue; now rewrite Hstate, Htrue).
  split; [exact Ht |].
  intros timestamp Hts Hne. apply Ht. rewrite Hts. simpl.
  apply String.eqb_neq in Hne. now rewrite Hne.
Qed.

Lemma merged_state_precedence_witness :
  recordsOf sample_response !! 0%nat = Some merged_record
  /\ mergedAt merged_record = JStr "2024-05-01T10:00:00Z"
  /\ state merged_record = JStr "merged".
Proof.
  split; [reflexivity |]. split; [reflexivity |].
  apply (proj2 (merged_state_precedence sample_response merged_record
                  (list_elem_of_here _ _))
           "2024-05-01T10:00:00Z").
  - reflexivity.
  - discriminate.
Defined.

End ReviewsFacts.

(** ** The history miner: ownership *)

Module HistoryFacts.
Import Js JsFacts History.
Local Open Scope Z_scope.

(** *** Rounding to a double *)









Lemma sum_of_perm {A} (f : A -> Z) l l' : Permutation l l' -> sum_of f l = sum_of f l'.
Proof. induction 1; simpl; lia. Qed.


(** *** The loop over the commits *)

(** Every commit is counted for exactly one owner. *)
Lemma record_commit_sum commit ownerMap :
  sum_of commits (map snd (record_commit commit ownerMap))
    = sum_of commits (map snd ownerMap) + 1.
Proof.
  induction ownerMap as [| [key existing] rest IH]; simpl; [reflexivity |].
  destruct (String.eqb key (owner_key commit)); simpl; lia.
Qed.

Lemma record_commit_positive commit ownerMap :
  Forall (fun o => 1 <= commits o) (map snd ownerMap) ->
  Forall (fun o => 1 <= commits o) (map snd (record_commit commit ownerMap)).
Proof.
  induction ownerMap as [| [key existing] rest IH]; simpl; intros Hall.
  - repeat constructor. simpl. lia.
  - inversion Hall as [| ? ? He Hrest]; subst.
    destruct (String.eqb key (owner_key commit)); simpl; constructor; simpl;
      try assumption; try lia.
    now apply IH.
Qed.

Lemma fold_record_sum log : forall ownerMap,
  sum_of commits
    (map snd (fold_left (fun ownerMap commit => record_commit commit ownerMap) log ownerMap))
    = sum_of commits (map snd ownerMap) + Z.of_nat (length log).
Proof.
  induction log as [| commit log IH]; intros ownerMap; simpl; [lia |].
  rewrite IH, record_commit_sum. lia.
Qed.

Lemma fold_record_positive log : forall ownerMap,
  Forall (fun o => 1 <= commits o) (map snd ownerMap) ->
  Forall (fun o => 1 <= commits o)
    (map snd (fold_left (fun ownerMap commit => record_commit commit ownerMap) log ownerMap)).
Proof.
  induction log as [| commit log IH]; intros ownerMap Hall; simpl; [assumption |].
  now apply IH, record_commit_positive.
Qed.

Lemma record_commit_keys commit ownerMap :
  map fst (record_commit commit ownerMap)
  = map fst ownerMap
    ++ (if bool_decide (owner_key commit ∈ map fst ownerMap) then [] else [owner_key commit]).
Proof.
  induction ownerMap as [| [key existing] rest IH]; cbn [record_commit map fst];
    [reflexivity |].
  destruct (String.eqb_spec key (owner_key commit)) as [-> | Hne]; cbn [map fst app].
  - clear IH. case_bool_decide as Hin; [now rewrite app_nil_r |].
    exfalso. apply Hin, list_elem_of_here.
  - rewrite IH. f_equal.
    assert (Hiff : owner_key commit ∈ key :: map fst rest
                   <-> owner_key commit ∈ map fst rest).
    { rewrite elem_of_cons. split; [intros [Heq | Hin]; [congruence | exact Hin] | auto]. }
    now rewrite (bool_decide_ext _ _ Hiff).
Qed.

Lemma record_commit_lines commit ownerMap :
  sum_of o_linesChanged (map snd (record_commit commit ownerMap))
  = sum_of o_linesChanged (map snd ownerMap) + linesChanged commit.
Proof.
  induction ownerMap as [| [key existing] rest IH]; simpl; [lia |].
  destruct (String.eqb key (owner_key commit)); simpl; lia.
Qed.

Lemma record_commit_ids commit ownerMap :
  Forall (fun e => owner_id (snd e) = fst e) ownerMap ->
  Forall (fun e => owner_id (snd e) = fst e) (record_commit commit ownerMap).
Proof.
  induction ownerMap as [| [key existing] rest IH]; simpl; intros Hall.
  - repeat constructor.
  - inversion Hall as [| ? ? He Hrest]; subst.
    destruct (String.eqb key (owner_key commit)); constructor; auto.
Qed.

(** What the loop over the commits keeps: the lines add up, no key is
    there twice, every owner is under the key read off it, and the
    keys are those of the commits. *)
Lemma fold_record_keeps log : forall ownerMap,
  NoDup (map fst ownerMap) ->
  Forall (fun e => owner_id (snd e) = fst e) ownerMap ->
  let result := fold_left (fun ownerMap commit => record_commit commit ownerMap) log ownerMap in
  sum_of o_linesChanged (map snd result)
    = sum_of o_linesChanged (map snd ownerMap) + sum_of linesChanged log
  /\ NoDup (map fst result)
  /\ Forall (fun e => owner_id (snd e) = fst e) result
  /\ (forall key, key ∈ map fst result
        <-> key ∈ map fst ownerMap \/ exists commit, commit ∈ log /\ owner_key commit = key).
Proof.
  induction log as [| commit log IH]; intros ownerMap Hnd Hid; simpl.
  - repeat split; try assumption; try lia; [tauto |].
    intros [H | (c & Hc & _)]; [assumption | inversion Hc].
  - destruct (IH (record_commit commit ownerMap)) as (Hs & Hn & Hi & Hk).
    + rewrite record_commit_keys. case_bool_decide; [now rewrite app_nil_r |].
      apply NoDup_app. repeat split; [assumption | | apply NoDup_singleton].
      intros x Hx ->%list_elem_of_singleton. contradiction.
    + now apply record_commit_ids.
    + split; [rewrite Hs, record_commit_lines; lia |].
      split; [exact Hn |]. split; [exact Hi |].
      intros key. rewrite Hk, record_commit_keys, elem_of_app. split.
      * intros [[H | H] | (c & Hc & Hkey)].
        -- now left.
        -- right. exists commit. split; [apply list_elem_of_here |].
           case_bool_decide; [inversion H |].
           now apply list_elem_of_singleton in H.
        -- right. exists c. split; [now apply list_elem_of_further | assumption].
      * intros [H | (c & [-> | Hc]%elem_of_cons & Hkey)].
        -- left. now left.
        -- left. case_bool_decide; [left; now rewrite <- Hkey |].
           right. now apply list_elem_of_singleton.
        -- right. now exists c.
Qed.








Lemma Sorted_weaken {A} (R R' : A -> A -> Prop) l :
  (forall a b, R a b -> R' a b) -> Sorted R l -> Sorted R' l.
Proof.
  intros HR. induction 1 as [| a l _ IH Hhd]; constructor; [assumption |].
  destruct Hhd; constructor. now apply HR.
Qed.

(** Two of three commits are 67 per cent, one of three is 33; one of
    eight is 13: a half goes up when the product is exact. *)
Example calculateOwnership_sample :
  map (fun o => (name (owner o), commits (owner o), percentage o))
    (calculateOwnership sample_commits)
    = [("Ann", 2, 67); ("Bob", 1, 33)]
  /\ percentage_of 1 8 = 13.
Proof. split; vm_compute; reflexivity. Qed.





End HistoryFacts.

(** * Further properties of the code *)

(** ** The retry utility: any operation *)

Module RetryMore.
Import Js Retry RetryCases RetryFacts.
Local Open Scope Z_scope.

Section Any.
Context {W T : Type}.
Variable fn : W -> (thrown + T) * W.
Variable opts : Policy.

(** What holds of every run of the loop, whatever the operation does:
    the invocations left are bounded by the attempts left, a sleep
    comes between two invocations, and the sleeps follow the backoff
    schedule from the delay the loop is entered with. *)
Lemma attempts_bounds fuel : forall attempt delay e w r,
  attempts fn opts fuel attempt delay e w = Some r ->
  0 <= invocations r <= Z.max 0 (maxAttempts opts + 1 - attempt)
  /\ (attempt <= maxAttempts opts -> 1 <= invocations r)
  /\ Z.of_nat (length (delays r)) = Z.max 0 (invocations r - 1)
  /\ delays r
     = backoff (length (delays r)) delay (backoffMultiplier opts) (maxDelayMs opts).
Proof.
  induction fuel as [| fuel IH]; intros attempt delay e w r Hr; simpl in Hr;
    destruct (Z.leb_spec attempt (maxAttempts opts)); try discriminate.
  - injection Hr as <-. unfold invocations, delays. simpl. repeat split; lia.
  - destruct (fn w) as [[error | v] w'].
    + destruct (_ || _) eqn:Estop.
      * injection Hr as <-. unfold invocations, delays. simpl. repeat split; lia.
      * apply orb_false_iff in Estop as [Hlast _].
        destruct (attempts fn opts fuel _ _ _ _) as [r' |] eqn:Er; [| discriminate].
        simpl in Hr. injection Hr as <-.
        destruct (IH _ _ _ _ _ Er) as (Hn & Hone & Hl & Hd).
        unfold invocations, delays in *. simpl in *.
        split; [lia |]. split; [lia |]. split; [lia |]. now rewrite <- Hd.
    + injection Hr as <-. unfold invocations, delays. simpl. repeat split; lia.
  - injection Hr as <-. unfold invocations, delays. simpl. repeat split; lia.
Qed.

(** The retries before the attempt that settles the run: [k] attempts
    fail with errors that the policy retries. *)

Lemma fails_retryably_S k w :
  fails_retryably fn opts (S k) w ->
  (exists error, fst (fn w) = inl error /\ retryableErrors opts (toError error) = true)
  /\ fails_retryably fn opts k (snd (fn w)).
Proof.
  intros Hf. split; [apply (Hf 0%nat); lia |].
  intros i Hi. apply (Hf (S i)). lia.
Qed.

(** The attempt that follows [k] retried failures resolves. *)
Lemma attempts_resolve k : forall fuel attempt delay e w v w',
  fails_retryably fn opts k w ->
  fn (world_after fn k w) = (inr v, w') ->
  attempt + Z.of_nat k <= maxAttempts opts ->
  (k < fuel)%nat ->
  exists r,
    attempts fn opts fuel attempt delay e w = Some r
    /\ outcome r = inr v /\ world r = w'
    /\ invocations r = Z.of_nat k + 1
    /\ delays r = backoff k delay (backoffMultiplier opts) (maxDelayMs opts).
Proof.
  induction k as [| k IH]; intros fuel attempt delay e w v w' Hf Hv Hk Hfuel;
    (destruct fuel as [| fuel]; [lia |]); simpl;
    replace (attempt <=? maxAttempts opts) with true by (symmetry; lia).
  - simpl in Hv. rewrite Hv. eexists. split; [reflexivity |]. now repeat split.
  - apply fails_retryably_S in Hf as ((error & Herr & Hre) & Hf).
    simpl in Hv. destruct (fn w) as [[error' | v'] w1]; simpl in Herr; [| discriminate].
    injection Herr as ->.
    replace (attempt =? maxAttempts opts) with false by (symmetry; lia).
    rewrite Hre. simpl.
    destruct (IH fuel (attempt + 1)
                (Z.min (delay * backoffMultiplier opts) (maxDelayMs opts))
                (toError error) w1 v w' Hf Hv) as (r & Hr & Ho & Hw & Hn & Hd); [lia | lia |].
    rewrite Hr. simpl. eexists. split; [reflexivity |].
    unfold invocations, delays in *. simpl in *.
    repeat split; try assumption; [lia | now rewrite Hd].
Qed.

(** The attempt that follows [k] retried failures fails with an error
    that the policy does not retry. *)
Lemma attempts_reject k : forall fuel attempt delay e w error w',
  fails_retryably fn opts k w ->
  fn (world_after fn k w) = (inl error, w') ->
  retryableErrors opts (toError error) = false ->
  attempt + Z.of_nat k <= maxAttempts opts ->
  (k < fuel)%nat ->
  exists r,
    attempts fn opts fuel attempt delay e w = Some r
    /\ outcome r = inl (toError error) /\ world r = w'
    /\ invocations r = Z.of_nat k + 1
    /\ delays r = backoff k delay (backoffMultiplier opts) (maxDelayMs opts).
Proof.
  induction k as [| k IH]; intros fuel attempt delay e w error w' Hf Hv Hnr Hk Hfuel;
    (destruct fuel as [| fuel]; [lia |]); simpl;
    replace (attempt <=? maxAttempts opts) with true by (symmetry; lia).
  - simpl in Hv. rewrite Hv, Hnr. rewrite orb_true_r.
    eexists. split; [reflexivity |]. now repeat split.
  - apply fails_retryably_S in Hf as ((error1 & Herr & Hre) & Hf).
    simpl in Hv. destruct (fn w) as [[error' | v'] w1]; simpl in Herr; [| discriminate].
    injection Herr as ->.
    replace (attempt =? maxAttempts opts) with false by (symmetry; lia).
    rewrite Hre. simpl.
    destruct (IH fuel (attempt + 1)
                (Z.min (delay * backoffMultiplier opts) (maxDelayMs opts))
                (toError error1) w1 error w' Hf Hv Hnr) as (r & Hr & Ho & Hw & Hn & Hd);
      [lia | lia |].
    rewrite Hr. simpl. eexists. split; [reflexivity |].
    unfold invocations, delays in *. simpl in *.
    repeat split; try assumption; [lia | now rewrite Hd].
Qed.
(** The attempt that follows [k] retried failures is the last one the
    policy allows, and fails. *)
Lemma attempts_last k : forall fuel attempt delay e w error w',
  fails_retryably fn opts k w ->
  fn (world_after fn k w) = (inl error, w') ->
  attempt + Z.of_nat k = maxAttempts opts ->
  (k < fuel)%nat ->
  exists r,
    attempts fn opts fuel attempt delay e w = Some r
    /\ outcome r = inl (toError error) /\ world r = w'
    /\ invocations r = Z.of_nat k + 1
    /\ delays r = backoff k delay (backoffMultiplier opts) (maxDelayMs opts).
Proof.
  induction k as [| k IH]; intros fuel attempt delay e w error w' Hf Hv Hk Hfuel;
    (destruct fuel as [| fuel]; [lia |]); simpl;
    replace (attempt <=? maxAttempts opts) with true by (symmetry; lia).
  - simpl in Hv. rewrite Hv.
    replace (attempt =? maxAttempts opts) with true by (symmetry; lia). simpl.
    eexists. split; [reflexivity |]. now repeat split.
  - apply fails_retryably_S in Hf as ((error1 & Herr & Hre) & Hf).
    simpl in Hv. destruct (fn w) as [[error' | v'] w1]; simpl in Herr; [| discriminate].
    injection Herr as ->.
    replace (attempt =? maxAttempts opts) with false by (symmetry; lia).
    rewrite Hre. simpl.
    destruct (IH fuel (attempt + 1)
                (Z.min (delay * backoffMultiplier opts) (maxDelayMs opts))
                (toError error1) w1 error w' Hf Hv) as (r & Hr & Ho & Hw & Hn & Hd);
      [lia | lia |].
    rewrite Hr. simpl. eexists. split; [reflexivity |].
    unfold invocations, delays in *. simpl in *.
    repeat split; try assumption; [lia | now rewrite Hd].
Qed.
(** A run that resolves took its value from one of the invocations. *)
Lemma attempts_outcome fuel : forall attempt delay e w r v,
  attempts fn opts fuel attempt delay e w = Some r ->
  outcome r = inr v ->
  exists k : nat,
    fn (world_after fn k w) = (inr v, world r)
    /\ invocations r = Z.of_nat k + 1.
Proof.
  induction fuel as [| fuel IH]; intros attempt delay e w r v; simpl;
    destruct (attempt <=? maxAttempts opts); try discriminate;
    try (intros [= <-]; discriminate).
  destruct (fn w) as [[error | v'] w1] eqn:Hfn.
  - destruct (_ || _); [intros [= <-]; discriminate |].
    destruct (attempts fn opts fuel _ _ _ _) as [r' |] eqn:Hr'; [| discriminate].
    intros [= <-] Ho. simpl in Ho.
    destruct (IH _ _ _ _ _ _ Hr' Ho) as (k & Hk & Hn).
    exists (S k). simpl. rewrite Hfn. simpl. split; [exact Hk |].
    unfold invocations in *. simpl. lia.
  - intros [= <-] [= <-]. exists 0%nat. simpl. split; [exact Hfn | reflexivity].
Qed.
End Any.

Section AnyHost.
Context {host : Host}.

(** X1.  Every run of [withRetry] ends, whatever the operation does.
    The operation is invoked at most [maxAttempts] times, and at least
    once when [maxAttempts] is positive; one sleep and one call of the
    observer come between two invocations; the sleeps follow the
    backoff schedule from [initialDelayMs]. *)
Theorem withRetry_bounds {W T} (fn : W -> (thrown + T) * W) options w :
  exists r,
    withRetry fn options w = Some r
    /\ 0 <= invocations r <= Z.max 0 (maxAttempts (merge defaultOptions options))
    /\ (1 <= maxAttempts (merge defaultOptions options) -> 1 <= invocations r)
    /\ Z.of_nat (length (delays r)) = Z.max 0 (invocations r - 1)
    /\ delays r
       = backoff (length (delays r)) (initialDelayMs (merge defaultOptions options))
           (backoffMultiplier (merge defaultOptions options))
           (maxDelayMs (merge defaultOptions options)).
Proof.
  destruct (withRetry_total fn options w) as [r Hr]. exists r. split; [exact Hr |].
  unfold withRetry in Hr.
  destruct (attempts_bounds fn _ _ _ _ _ _ _ Hr) as (Hn & Hone & Hl & Hd).
  repeat split; try assumption; lia.
Qed.

(** X2.  When the first [k] attempts fail with errors that the policy
    retries and the next attempt, still within [maxAttempts], resolves,
    [withRetry] resolves with that value after [k + 1] invocations and
    the first [k] delays of the schedule. *)
Theorem withRetry_resolves {W T} (fn : W -> (thrown + T) * W) options w (k : nat) v w' :
  fails_retryably fn (merge defaultOptions options) k w ->
  fn (world_after fn k w) = (inr v, w') ->
  Z.of_nat k < maxAttempts (merge defaultOptions options) ->
  exists r,
    withRetry fn options w = Some r
    /\ outcome r = inr v /\ world r = w'
    /\ invocations r = Z.of_nat k + 1
    /\ delays r
       = backoff k (initialDelayMs (merge defaultOptions options))
           (backoffMultiplier (merge defaultOptions options))
           (maxDelayMs (merge defaultOptions options)).
Proof.
  intros Hf Hv Hk. unfold withRetry.
  apply (attempts_resolve fn _ k); try assumption; lia.
Qed.

(** X3.  An error that the policy does not retry ends the run at once:
    when it comes after [k] retried failures, [withRetry] fails with it
    after [k + 1] invocations, without a further sleep. *)
Theorem withRetry_rejects {W T} (fn : W -> (thrown + T) * W) options w (k : nat) error w' :
  fails_retryably fn (merge defaultOptions options) k w ->
  fn (world_after fn k w) = (inl error, w') ->
  retryableErrors (merge defaultOptions options) (toError error) = false ->
  Z.of_nat k < maxAttempts (merge defaultOptions options) ->
  exists r,
    withRetry fn options w = Some r
    /\ outcome r = inl (toError error) /\ world r = w'
    /\ invocations r = Z.of_nat k + 1
    /\ delays r
       = backoff k (initialDelayMs (merge defaultOptions options))
           (backoffMultiplier (merge defaultOptions options))
           (maxDelayMs (merge defaultOptions options)).
Proof.
  intros Hf Hv Hnr Hk. unfold withRetry.
  apply (attempts_reject fn _ k); try assumption; lia.
Qed.
End AnyHost.

(** On the host of the samples *)
Section Samples.
#[local] Existing Instance posix_ascii.

Lemma withRetry_resolves_witness :
  exists r,
    withRetry RetryCases.flaky noOptions 0%nat = Some r
    /\ outcome r = inr 2%nat /\ world r = 3%nat
    /\ invocations r = 3
    /\ delays r = [1000; 2000].
Proof.
  apply (withRetry_resolves RetryCases.flaky noOptions 0%nat 2 2%nat 3%nat).
  - intros i Hi. destruct i as [| [| i]]; [| | lia];
      exists (ThrownError (mkError "Request timeout")); split; reflexivity.
  - reflexivity.
  - simpl. lia.
Defined.

Lemma withRetry_rejects_witness :
  exists r,
    withRetry RetryCases.refused noOptions 0%nat = Some r
    /\ outcome r = inl (mkError "Invalid GitHub token") /\ world r = 2%nat
    /\ invocations r = 2
    /\ delays r = [1000].
Proof.
  apply (withRetry_rejects RetryCases.refused noOptions 0%nat 1
           (ThrownError (mkError "Invalid GitHub token")) 2%nat).
  - intros i Hi. destruct i as [| i]; [| lia].
    exists (ThrownError (mkError "Request timeout")). split; reflexivity.
  - reflexivity.
  - reflexivity.
  - simpl. lia.
Defined.
End Samples.

End RetryMore.

(** ** Requests to the hosting service *)

Module ResolverFacts.
Import Js JsFacts Retry RetryCases RetryFacts RetryMore Reviews Resolver.
Local Open Scope Z_scope.

Section Requests.
Context {host : Host}.
Variable JSON_parse : string -> option json.
Variable server : nat -> response.

Lemma world_after_request k n :
  world_after (request JSON_parse server) k n = (n + k)%nat.
Proof.
  revert n. induction k as [| k IH]; intros n; simpl; [lia |].
  rewrite IH. lia.
Qed.

Lemma transient_retried r :
  transient r = true ->
  exists error,
    makeGitHubRequest JSON_parse r = inl error
    /\ lookupRetryable (toError error) = true.
Proof.
  unfold lookupRetryable.
  destruct r as [statusCode data | e |]; simpl; [| discriminate |].
  - intros [H%Z.eqb_eq | H%Z.eqb_eq]%orb_true_iff; subst statusCode;
      (eexists; split; [reflexivity |]); simpl; lower_literals; reflexivity.
  - intros _. eexists; split; [reflexivity |]. simpl. lower_literals. reflexivity.
Qed.

Lemma transient_fails k n :
  (forall i, (i < k)%nat -> transient (server (n + i)) = true) ->
  fails_retryably (request JSON_parse server) (merge defaultOptions lookupOptions) k n.
Proof.
  intros H i Hi. rewrite world_after_request. unfold request. simpl.
  apply transient_retried, H, Hi.
Qed.

Lemma request_world fuel : forall attempt delay e n r,
  attempts (request JSON_parse server) (merge defaultOptions lookupOptions)
    fuel attempt delay e n = Some r ->
  world r = (n + Z.to_nat (invocations r))%nat.
Proof.
  induction fuel as [| fuel IH]; intros attempt delay e n r; simpl;
    destruct (attempt <=? 3); try discriminate;
    try (intros [= <-]; unfold invocations; simpl; lia).
  unfold request at 1.
  destruct (makeGitHubRequest JSON_parse (server n)) as [error | v].
  - destruct (_ || _).
    + intros [= <-]. unfold invocations. simpl. lia.
    + destruct (attempts _ _ fuel _ _ _ _) as [r' |] eqn:Hr'; [| discriminate].
      intros [= <-].
      pose proof (attempts_bounds _ _ _ _ _ _ _ _ Hr') as [H _].
      apply IH in Hr'. unfold invocations in *. simpl in *. lia.
  - intros [= <-]. unfold invocations. simpl. lia.
Qed.
End Requests.

Section AnyHost.
Context {host : Host}.

(** X4.  One lookup makes at least one and at most three requests,
    whatever the service answers. *)
Theorem getPRsForCommit_requests JSON_parse server (n : nat) :
  (n < snd (getPRsForCommit JSON_parse server n) <= n + 3)%nat.
Proof.
  unfold getPRsForCommit.
  destruct (withRetry_total (request JSON_parse server) lookupOptions n) as [r Hr].
  rewrite Hr. simpl. unfold withRetry in Hr.
  pose proof (attempts_bounds _ _ _ _ _ _ _ _ Hr) as (Hn & Hone & _).
  apply request_world in Hr. simpl in Hn, Hone. lia.
Qed.

(** X5.  A lookup gets over transient failures: when up to two
    requests end in a 403, a 503 or the timer and the next one is
    answered 200 with a body that parses, the lookup gives the records
    of that body, and has made one request more than failed. *)
Theorem getPRsForCommit_recovers JSON_parse server (n k : nat) data v :
  (k < 3)%nat ->
  (forall i, (i < k)%nat -> transient (server (n + i)%nat) = true) ->
  server (n + k)%nat = Answer 200 data ->
  JSON_parse data = Some v ->
  getPRsForCommit JSON_parse server n = (recordsOf v, S (n + k)%nat).
Proof.
  intros Hk Htr Hok Hparse. unfold getPRsForCommit, withRetry.
  destruct (attempts_resolve (request JSON_parse server)
              (merge defaultOptions lookupOptions) k 3%nat 1 1000
              (mkError "Unknown error") n v (S (n + k)%nat))
    as (r & Hr & Ho & Hw & _).
  - apply transient_fails, Htr.
  - rewrite world_after_request. unfold request. rewrite Hok. simpl.
    now rewrite Hparse.
  - simpl. lia.
  - exact Hk.
  - simpl in Hr |- *. rewrite Hr, Ho, Hw. reflexivity.
Qed.

(** X6.  A lookup gives up after three transient failures: it has
    slept 1000 and 2000 milliseconds between the requests, and it
    reports no pull request instead of the failure. *)
Theorem getPRsForCommit_gives_up JSON_parse server (n : nat) :
  (forall i, (i < 3)%nat -> transient (server (n + i)%nat) = true) ->
  getPRsForCommit JSON_parse server n = ([], (n + 3)%nat)
  /\ exists r,
       withRetry (request JSON_parse server) lookupOptions n = Some r
       /\ delays r = [1000; 2000].
Proof.
  intros Htr.
  destruct (transient_retried JSON_parse (server (n + 2)%nat)) as (error & Herr & _);
    [apply Htr; lia |].
  destruct (attempts_last (request JSON_parse server)
              (merge defaultOptions lookupOptions) 2 3%nat 1 1000
              (mkError "Unknown error") n error (n + 3)%nat)
    as (r & Hr & Ho & Hw & _ & Hd).
  - apply transient_fails. intros i Hi. apply Htr. lia.
  - rewrite world_after_request. unfold request. rewrite Herr. f_equal. lia.
  - reflexivity.
  - lia.
  - unfold getPRsForCommit, withRetry. simpl in Hr |- *. rewrite Hr, Ho, Hw.
    split; [reflexivity |]. exists r. split; [reflexivity | exact Hd].
Qed.

(** X7.  An invalid token (401), a commit the service does not know
    (404) and a body that does not parse end a lookup after one
    request, with no pull request; none of them is retried. *)
Theorem getPRsForCommit_no_retry JSON_parse server (n : nat) data :
  server n = Answer 401 data
  \/ server n = Answer 404 data
  \/ (server n = Answer 200 data /\ JSON_parse data = None) ->
  getPRsForCommit JSON_parse server n = ([], S n).
Proof.
  unfold getPRsForCommit, withRetry, lookupRetryable. simpl.
  intros [H | [H | [H Hp]]]; rewrite H; simpl; [| | rewrite Hp]; simpl;
    unfold lookupRetryable; simpl; lower_literals; reflexivity.
Qed.
End AnyHost.

(** On the host of the samples *)
Section Samples.
#[local] Existing Instance posix_ascii.

Lemma getPRsForCommit_recovers_witness :
  getPRsForCommit sample_parse recovering 0%nat = (recordsOf (JArr []), 2%nat).
Proof.
  apply (getPRsForCommit_recovers sample_parse recovering 0%nat 1%nat "[]" (JArr [])).
  - lia.
  - intros i Hi. destruct i as [| i]; [reflexivity | lia].
  - reflexivity.
  - reflexivity.
Defined.

Lemma getPRsForCommit_gives_up_witness :
  getPRsForCommit sample_parse forbidding 0%nat = ([], 3%nat)
  /\ exists r,
       withRetry (request sample_parse forbidding) lookupOptions 0%nat = Some r
       /\ delays r = [1000; 2000].
Proof.
  apply (getPRsForCommit_gives_up sample_parse forbidding 0%nat).
  intros i Hi. reflexivity.
Defined.

Lemma getPRsForCommit_no_retry_witness :
  getPRsForCommit sample_parse (fun _ => Answer 401 "") 0%nat = ([], 1%nat).
Proof.
  apply (getPRsForCommit_no_retry sample_parse (fun _ => Answer 401 "") 0%nat "").
  left. reflexivity.
Defined.
End Samples.

End ResolverFacts.

(** ** The remote of the repository and the pull requests of the commits *)

Module RemoteFacts.
Import Js JsFacts Reviews Collection.
Local Open Scope Z_scope.

Lemma strip_prefix_app p : forall s, strip_prefix p (p +:+ s) = Some s.
Proof.
  induction p as [| a p IH]; intros s.
  - rewrite app_nil. reflexivity.
  - rewrite app_cons. simpl. rewrite Ascii.eqb_refl. apply IH.
Qed.

Lemma strip_prefix_inv p : forall s r, strip_prefix p s = Some r -> s = p +:+ r.
Proof.
  induction p as [| a p IH]; intros s r; simpl.
  - intros [= ->]. now rewrite app_nil.
  - destruct s as [| b s]; [discriminate |].
    destruct (Ascii.eqb_spec a b) as [-> |]; [| discriminate].
    intros H%IH. rewrite app_cons. now f_equal.
Qed.

Lemma includes_char_cons x c s :
  includes (String c s) (String x "") = Ascii.eqb x c || includes s (String x "").
Proof.
  cbn [includes String.prefix].
  destruct (ascii_dec x c) as [-> | Hne].
  - rewrite Ascii.eqb_refl. now destruct s.
  - destruct (Ascii.eqb_spec x c); [contradiction | reflexivity].
Qed.

Lemma span_app p a : forall rest,
  (forall x, p x = false -> includes a (String x "") = false) ->
  (rest = "" \/ exists c t, rest = String c t /\ p c = false) ->
  span p (a +:+ rest) = (a, rest).
Proof.
  induction a as [| c a IH]; intros rest Ha Hrest.
  - rewrite app_nil. destruct Hrest as [-> | (c & t & -> & Hc)]; simpl; [reflexivity |].
    now rewrite Hc.
  - rewrite app_cons. simpl.
    destruct (p c) eqn:Hc.
    + rewrite IH; [reflexivity | | exact Hrest].
      intros x Hx. specialize (Ha x Hx). rewrite includes_char_cons in Ha.
      now apply orb_false_iff in Ha.
    + specialize (Ha c Hc). rewrite includes_char_cons, Ascii.eqb_refl in Ha. discriminate.
Qed.

Lemma span_inv p s : forall a b,
  span p s = (a, b) ->
  s = a +:+ b /\ (forall x, p x = false -> includes a (String x "") = false).
Proof.
  induction s as [| c s IH]; intros a b; simpl.
  - intros [= <- <-]. split; [reflexivity | intros; reflexivity].
  - destruct (p c) eqn:Hc.
    + destruct (span p s) as [a' b'] eqn:Hs. intros [= <- <-].
      destruct (IH a' b' eq_refl) as [-> Ha]. split; [now rewrite app_cons |].
      intros x Hx. rewrite includes_char_cons, (Ha x Hx), orb_false_r.
      destruct (Ascii.eqb_spec x c) as [-> |]; [congruence | reflexivity].
    + intros [= <- <-]. split; [now rewrite app_nil | intros; reflexivity].
Qed.

Lemma match_first_here {A} (f : string -> option A) s r :
  f s = Some r -> match_first f s = Some r.
Proof. intros H. destruct s; simpl; now rewrite H. Qed.

Lemma match_first_inv {A} (f : string -> option A) s : forall r,
  match_first f s = Some r -> exists before rest, s = before +:+ rest /\ f rest = Some r.
Proof.
  induction s as [| c s IH]; intros r; simpl.
  - destruct (f "") eqn:H; [| discriminate]. intros [= <-]. now exists "", "".
  - destruct (f (String c s)) eqn:H.
    + intros [= <-]. exists "", (String c s). now rewrite app_nil.
    + intros (before & rest & -> & Hr)%IH. exists (String c before), rest.
      now rewrite app_cons.
Qed.

Lemma match_first_none {A} (f : string -> option A) s :
  (forall before rest, s = before +:+ rest -> f rest = None) ->
  match_first f s = None.
Proof.
  intros H. destruct (match_first f s) as [r |] eqn:Hm; [| reflexivity].
  apply match_first_inv in Hm as (before & rest & Hs & Hr).
  rewrite (H _ _ Hs) in Hr. discriminate.
Qed.

Lemma ssh_at_inv s owner repo :
  ssh_at s = Some (owner, repo) ->
  owner <> "" /\ repo <> ""
  /\ includes owner "/" = false /\ includes repo "." = false
  /\ exists rest, s = "git@github.com:" +:+ owner +:+ "/" +:+ repo +:+ rest.
Proof.
  unfold ssh_at.
  destruct (strip_prefix "git@github.com:" s) as [r1 |] eqn:H1; [| discriminate].
  cbn [mbind option_bind].
  destruct (span _ r1) as [o r2] eqn:H2.
  destruct (strip_prefix "/" r2) as [r3 |] eqn:H3; [| discriminate].
  cbn [mbind option_bind].
  destruct (span _ r3) as [r r4] eqn:H4.
  destruct (String.eqb_spec o ""); [discriminate |].
  destruct (String.eqb_spec r ""); [discriminate |].
  intros [= <- <-].
  apply strip_prefix_inv in H1, H3.
  apply span_inv in H2 as [-> Ho], H4 as [-> Hr]. subst.
  repeat split; try assumption.
  - apply Ho. reflexivity.
  - apply Hr. reflexivity.
  - exists r4. now rewrite ?app_assoc.
Qed.

Lemma https_at_inv s owner repo :
  https_at s = Some (owner, repo) ->
  owner <> "" /\ repo <> ""
  /\ includes owner "/" = false
  /\ includes repo "/" = false /\ includes repo "." = false
  /\ exists scheme rest,
       (scheme = "http" \/ scheme = "https")
       /\ s = scheme +:+ "://github.com/" +:+ owner +:+ "/" +:+ repo +:+ rest.
Proof.
  unfold https_at.
  destruct (strip_prefix "http" s) as [r0 |] eqn:H0; [| discriminate].
  cbn [mbind option_bind].
  destruct (strip_prefix "://github.com/" _) as [r1 |] eqn:H1; [| discriminate].
  cbn [mbind option_bind].
  destruct (span _ r1) as [o r2] eqn:H2.
  destruct (strip_prefix "/" r2) as [r3 |] eqn:H3; [| discriminate].
  cbn [mbind option_bind].
  destruct (span _ r3) as [r r4] eqn:H4.
  destruct (String.eqb_spec o ""); [discriminate |].
  destruct (String.eqb_spec r ""); [discriminate |].
  intros [= <- <-].
  apply strip_prefix_inv in H0, H1, H3.
  apply span_inv in H2 as [-> Ho], H4 as [-> Hr]. subst r2.
  repeat split; try assumption.
  - apply Ho. reflexivity.
  - apply Hr. reflexivity.
  - apply Hr. reflexivity.
  - destruct (strip_prefix "s" r0) as [r0' |] eqn:Hs; simpl in H1.
    + apply strip_prefix_inv in Hs. subst. exists "https", r4. split; [now right |].
      now rewrite ?app_assoc.
    + subst. exists "http", r4. split; [now left |]. now rewrite ?app_assoc.
Qed.

(** X8.  What [parseGitHubUrl] finds is in the address: after
    "github.com" and a colon or a slash come the owner, a slash and the
    repository.  Neither name is empty, the owner has no slash and the
    repository has no dot. *)
Theorem parseGitHubUrl_sound url owner repo :
  parseGitHubUrl url = Some (owner, repo) ->
  owner <> "" /\ repo <> ""
  /\ includes owner "/" = false /\ includes repo "." = false
  /\ exists before sep after,
       (sep = ":" \/ sep = "/")
       /\ url = before +:+ "github.com" +:+ sep +:+ owner +:+ "/" +:+ repo +:+ after.
Proof.
  unfold parseGitHubUrl.
  destruct (match_first ssh_at url) as [m |] eqn:Hssh.
  - intros [= ->].
    apply match_first_inv in Hssh as (before & rest & -> & H).
    apply ssh_at_inv in H as (Ho & Hr & Hos & Hrd & after & ->).
    repeat split; try assumption.
    exists (before +:+ "git@"), ":", after. split; [now left |].
    now rewrite ?app_assoc.
  - intros (before & rest & -> & H)%match_first_inv.
    apply https_at_inv in H as (Ho & Hr & Hos & _ & Hrd & scheme & after & Hscheme & ->).
    repeat split; try assumption.
    exists (before +:+ scheme +:+ "://"), "/", after. split; [now right |].
    now rewrite ?app_assoc.
Qed.

Lemma parseGitHubUrl_sound_witness :
  "wellyshen" <> "" /\ "what-is-the-code" <> ""
  /\ includes "wellyshen" "/" = false /\ includes "what-is-the-code" "." = false
  /\ exists before sep after,
       (sep = ":" \/ sep = "/")
       /\ "git@github.com:wellyshen/what-is-the-code.git"
          = before +:+ "github.com" +:+ sep +:+ "wellyshen" +:+ "/"
              +:+ "what-is-the-code" +:+ after.
Proof.
  apply (parseGitHubUrl_sound "git@github.com:wellyshen/what-is-the-code.git"
           "wellyshen" "what-is-the-code").
  reflexivity.
Defined.

Lemma not_empty s : s <> "" -> String.eqb s "" = false.
Proof. intros H. now destruct (String.eqb_spec s ""). Qed.

(** X9.  An SSH address is read back: from "git@github.com:", an owner
    without a slash, a slash, and a repository name without a dot that
    ends the address or is followed by a dot, [parseGitHubUrl] gives the
    owner and the name.  A ".git" at the end is dropped. *)
Theorem parseGitHubUrl_ssh owner repo tail :
  owner <> "" -> repo <> "" ->
  includes owner "/" = false -> includes repo "." = false ->
  (tail = "" \/ exists t, tail = String "." t) ->
  parseGitHubUrl ("git@github.com:" +:+ owner +:+ "/" +:+ repo +:+ tail)
  = Some (owner, repo).
Proof.
  intros Ho Hr Hos Hrd Htail. unfold parseGitHubUrl.
  rewrite (match_first_here ssh_at _ (owner, repo)); [reflexivity |].
  unfold ssh_at. rewrite strip_prefix_app. cbn [mbind option_bind].
  rewrite span_app; cycle 1.
  - intros x Hx. apply negb_false_iff in Hx. unfold is_char in Hx.
    apply Ascii.eqb_eq in Hx as ->. exact Hos.
  - right. now exists "/"%char, (repo +:+ tail).
  - rewrite (strip_prefix_app "/"). cbn [mbind option_bind].
    rewrite span_app; cycle 1.
    + intros x Hx. apply negb_false_iff in Hx. unfold is_char in Hx.
      apply Ascii.eqb_eq in Hx as ->. exact Hrd.
    + destruct Htail as [-> | [t ->]]; [now left | right; now exists "."%char, t].
    + now rewrite !not_empty.
Qed.

Lemma parseGitHubUrl_ssh_witness :
  parseGitHubUrl ("git@github.com:" +:+ "wellyshen" +:+ "/" +:+ "what-is-the-code" +:+ ".git")
  = Some ("wellyshen", "what-is-the-code").
Proof.
  apply (parseGitHubUrl_ssh "wellyshen" "what-is-the-code" ".git");
    try discriminate; try reflexivity.
  right. now exists "git".
Defined.

(** X10.  An HTTP or HTTPS address without the SSH prefix in it is read
    back up to the first dot of the repository name: from the scheme,
    "://github.com/", an owner without a slash, a slash, and a name
    without slash and dot that ends the address or is followed by a dot
    or a slash, [parseGitHubUrl] gives the owner and that name.  So
    ".git" is dropped, and so is what follows a dot inside a name. *)
Theorem parseGitHubUrl_https scheme owner repo tail :
  scheme = "http" \/ scheme = "https" ->
  owner <> "" -> repo <> "" ->
  includes owner "/" = false ->
  includes repo "/" = false -> includes repo "." = false ->
  (tail = "" \/ exists c t, tail = String c t /\ (c = "."%char \/ c = "/"%char)) ->
  includes (scheme +:+ "://github.com/" +:+ owner +:+ "/" +:+ repo +:+ tail)
    "git@github.com:" = false ->
  parseGitHubUrl (scheme +:+ "://github.com/" +:+ owner +:+ "/" +:+ repo +:+ tail)
  = Some (owner, repo).
Proof.
  intros Hscheme Ho Hr Hos Hrs Hrd Htail Hssh. unfold parseGitHubUrl.
  rewrite match_first_none.
  2:{ intros before rest Hurl. destruct (ssh_at rest) as [[o r] |] eqn:Hm; [| reflexivity].
      apply ssh_at_inv in Hm as (_ & _ & _ & _ & after & ->).
      rewrite Hurl in Hssh.
      now rewrite includes_app in Hssh. }
  apply match_first_here. unfold https_at.
  assert (Hrest : (strip_prefix "http"
             (scheme +:+ "://github.com/" +:+ owner +:+ "/" +:+ repo +:+ tail)
           ≫= λ rest, strip_prefix "://github.com/" (default rest (strip_prefix "s" rest)))
          = Some (owner +:+ "/" +:+ repo +:+ tail)).
  { destruct Hscheme as [-> | ->].
    - rewrite strip_prefix_app. cbn [mbind option_bind].
      change (strip_prefix "s" ("://github.com/" +:+ owner +:+ "/" +:+ repo +:+ tail))
        with (@None string).
      simpl default. apply strip_prefix_app.
    - change ("https" +:+ "://github.com/" +:+ owner +:+ "/" +:+ repo +:+ tail)
        with ("http" +:+ "s" +:+ "://github.com/" +:+ owner +:+ "/" +:+ repo +:+ tail).
      rewrite strip_prefix_app. cbn [mbind option_bind].
      rewrite (strip_prefix_app "s"). simpl default. apply strip_prefix_app. }
  destruct (strip_prefix "http" _) as [r0 |]; [| discriminate].
  cbn [mbind option_bind] in Hrest |- *. rewrite Hrest. cbn [mbind option_bind].
  rewrite span_app; cycle 1.
  - intros x Hx. apply negb_false_iff in Hx. unfold is_char in Hx.
    apply Ascii.eqb_eq in Hx as ->. exact Hos.
  - right. now exists "/"%char, (repo +:+ tail).
  - rewrite (strip_prefix_app "/"). cbn [mbind option_bind].
    rewrite span_app; cycle 1.
    + intros x Hx. apply negb_false_iff, orb_true_iff in Hx. unfold is_char in Hx.
      destruct Hx as [->%Ascii.eqb_eq | ->%Ascii.eqb_eq]; assumption.
    + destruct Htail as [-> | (c & t & -> & [-> | ->])]; [now left | right | right].
      * now exists "."%char, t.
      * now exists "/"%char, t.
    + now rewrite !not_empty.
Qed.

Lemma parseGitHubUrl_https_witness :
  parseGitHubUrl ("https" +:+ "://github.com/" +:+ "vercel" +:+ "/" +:+ "next" +:+ ".js")
  = Some ("vercel", "next").
Proof.
  apply (parseGitHubUrl_https "https" "vercel" "next" ".js");
    try discriminate; try reflexivity.
  - now right.
  - right. exists "."%char, "js". split; [reflexivity | now left].
Defined.
End RemoteFacts.
Module CollectFacts.
Import Js JsFacts Reviews Collection.
Local Open Scope Z_scope.

Lemma sameValueZero_sym a b : sameValueZero a b = sameValueZero b a.
Proof.
  destruct a, b; simpl; try reflexivity.
  - now destruct b, b0.
  - apply Z.eqb_sym.
  - apply String.eqb_sym.
Qed.

Lemma ForallOrdPairs_snoc {A} (R : A -> A -> Prop) l x :
  ForallOrdPairs R l -> Forall (fun a => R a x) l -> ForallOrdPairs R (l ++ [x]).
Proof.
  induction 1 as [| a l Ha Hl IH]; intros Hx; simpl.
  - repeat constructor.
  - inversion Hx; subst. constructor; [| now apply IH].
    apply Forall_app. split; [assumption | now constructor].
Qed.

Lemma ForallOrdPairs_perm {A} (R : A -> A -> Prop) l l' :
  (forall a b, R a b -> R b a) ->
  Permutation l l' -> ForallOrdPairs R l -> ForallOrdPairs R l'.
Proof.
  intros Hsym. induction 1 as [| x l l' Hp IH | x y l | l l' l'' H1 IH1 H2 IH2]; intros H.
  - assumption.
  - inversion H; subst. constructor; [| now apply IH].
    now rewrite <- Hp.
  - inversion H as [| ? ? Hy Hr]; subst. inversion Hr as [| ? ? Hx Hl]; subst.
    inversion Hy; subst.
    constructor; [constructor; [now apply Hsym | assumption] |].
    now constructor.
  - auto.
Qed.

Section Collect.
Variable lookup : nat -> string -> list PullRequestInfo.
Variable getTime : json -> Z.
Variable maxPRs : Z.

Lemma has_false key prsMap :
  has key prsMap = false ->
  Forall (fun a => sameValueZero (number a) key = false) prsMap.
Proof.
  unfold has. induction prsMap as [| a l IH]; simpl; [constructor |].
  intros [Ha Hl]%orb_false_iff. constructor; auto.
Qed.

Lemma has_true key prsMap :
  has key prsMap = true ->
  exists pr', pr' ∈ prsMap /\ sameValueZero (number pr') key = true.
Proof.
  unfold has. intros (pr' & Hin & H)%existsb_exists.
  exists pr'. split; [now apply list_elem_of_In | assumption].
Qed.

Lemma add_length prsMap pr :
  (length prsMap <= length (add maxPRs prsMap pr))%nat.
Proof.
  unfold add. destruct (_ && _); [rewrite length_app; simpl |]; lia.
Qed.

Lemma add_collecting prsMap offered pr :
  collecting maxPRs prsMap offered ->
  collecting maxPRs (add maxPRs prsMap pr) (fun x => offered x \/ x = pr).
Proof.
  intros (Hlen & Hd & Hin & Hall). unfold add.
  destruct (has (number pr) prsMap) eqn:Hhas; simpl.
  - repeat split; try assumption.
    + intros x Hx. left. auto.
    + intros Hlt x [Hx | ->]; [auto |].
      apply has_true in Hhas as (pr' & Hin' & Heq). exists pr'. auto.
  - destruct (Z.ltb_spec (Z.of_nat (length prsMap)) maxPRs) as [Hlt | Hge].
    + repeat split.
      * rewrite length_app. simpl. lia.
      * apply ForallOrdPairs_snoc; [assumption | now apply has_false].
      * intros x [Hx | ->%list_elem_of_singleton]%elem_of_app; auto.
      * intros _ x [Hx | ->].
        -- destruct (Hall Hlt x Hx) as (pr' & Hin' & Hrep).
           exists pr'. split; [apply elem_of_app; now left | assumption].
        -- exists pr. split; [apply elem_of_app; right; now apply list_elem_of_singleton | now left].
    + repeat split; try assumption.
      * intros x Hx. left. auto.
      * lia.
Qed.

Lemma collecting_ext prsMap (offered offered' : PullRequestInfo -> Prop) :
  (forall x, offered x <-> offered' x) ->
  collecting maxPRs prsMap offered -> collecting maxPRs prsMap offered'.
Proof.
  intros Hiff (Hlen & Hd & Hin & Hall). repeat split; try assumption.
  - intros x Hx. apply Hiff. auto.
  - intros Hlt x Hx. apply Hall; [assumption | now apply Hiff].
Qed.

Lemma foldl_add_collecting result : forall prsMap offered,
  collecting maxPRs prsMap offered ->
  collecting maxPRs (foldl (add maxPRs) prsMap result) (fun x => offered x \/ x ∈ result).
Proof.
  induction result as [| pr result IH]; intros prsMap offered H; simpl.
  - apply (collecting_ext _ offered); [| assumption].
    intros x. split; [auto | intros [Hx | Hx]; [assumption | inversion Hx]].
  - apply (add_collecting _ _ pr), IH in H.
    eapply collecting_ext; [| exact H].
    intros x. rewrite elem_of_cons. tauto.
Qed.

Lemma foldl_results_collecting results : forall prsMap offered,
  collecting maxPRs prsMap offered ->
  collecting maxPRs
    (foldl (fun prsMap result => foldl (add maxPRs) prsMap result) prsMap results)
    (fun x => offered x \/ exists result, result ∈ results /\ x ∈ result).
Proof.
  induction results as [| result results IH]; intros prsMap offered H; simpl.
  - apply (collecting_ext _ offered); [| assumption].
    intros x. split; [auto | intros [Hx | (r & Hr & _)]; [assumption | inversion Hr]].
  - apply (foldl_add_collecting result), IH in H.
    eapply collecting_ext; [| exact H].
    intros x. split.
    + intros [[Hx | Hx] | (r & Hr & Hx)]; [now left | right; exists result | right; exists r];
        split; try assumption; [left | now right].
    + intros [Hx | (r & [-> | Hr]%elem_of_cons & Hx)]; [now left; left | now left; right |].
      right. now exists r.
Qed.

Lemma found_batch commits i x :
  (found lookup commits i x
   \/ exists result,
        result ∈ imap (fun j commit => lookup (i + j) (History.hash commit))
                   (take PR_BATCH_SIZE (drop i commits))
        /\ x ∈ result)
  <-> found lookup commits (i + PR_BATCH_SIZE) x.
Proof.
  split.
  - intros [(j & c & Hj & Hc & Hx) | (result & Hr & Hx)].
    + exists j, c. repeat split; try assumption. lia.
    + apply elem_of_lookup_imap in Hr as (j & c & -> & Hc).
      apply lookup_take_Some in Hc as [Hc Hj]. rewrite lookup_drop in Hc.
      exists (i + j)%nat, c. repeat split; try assumption. lia.
  - intros (j & c & Hj & Hc & Hx).
    destruct (Nat.lt_ge_cases j i) as [Hlt | Hge].
    + left. now exists j, c.
    + right. exists (lookup j (History.hash c)). split; [| assumption].
      replace j with (i + (j - i))%nat at 1 by lia.
      apply (elem_of_lookup_imap_2
               (fun j commit => lookup (i + j) (History.hash commit))).
      apply lookup_take_Some. rewrite lookup_drop.
      replace (i + (j - i))%nat with j by lia. split; [assumption | lia].
Qed.

Lemma batches_collecting commits fuel : forall i looked prsMap,
  collecting maxPRs prsMap (found lookup commits i) ->
  looked = map History.hash (take i commits) ->
  (length commits <= i + PR_BATCH_SIZE * fuel)%nat ->
  exists looked' prsMap' i',
    batches lookup commits maxPRs fuel i looked prsMap = Some (looked', prsMap')
    /\ collecting maxPRs prsMap' (found lookup commits i')
    /\ looked' = map History.hash (take i' commits)
    /\ ((length commits <= i')%nat \/ maxPRs <= Z.of_nat (length prsMap')).
Proof.
  induction fuel as [| fuel IH]; intros i looked prsMap Hc Hl Hfuel; simpl.
  - replace (i <? length commits)%nat with false by (symmetry; apply Nat.ltb_ge; lia).
    simpl. exists looked, prsMap, i.
    split; [reflexivity | split; [exact Hc | split; [exact Hl | left; lia]]].
  - destruct (Nat.ltb_spec i (length commits)) as [Hi | Hi]; simpl.
    + destruct (Z.ltb_spec (Z.of_nat (length prsMap)) maxPRs) as [Hlt | Hge].
      * apply IH.
        -- eapply collecting_ext; [apply found_batch |].
           now apply foldl_results_collecting.
        -- rewrite Hl, <- take_take_drop, map_app. reflexivity.
        -- unfold PR_BATCH_SIZE in *. lia.
      * exists looked, prsMap, i.
        split; [reflexivity | split; [exact Hc | split; [exact Hl | now right]]].
    + exists looked, prsMap, i.
      split; [reflexivity | split; [exact Hc | split; [exact Hl | now left]]].
Qed.

Lemma batches_no_room commits fuel i looked :
  maxPRs <= 0 -> batches lookup commits maxPRs fuel i looked [] = Some (looked, []).
Proof.
  intros Hmax.
  destruct maxPRs; try lia; destruct fuel; simpl; now rewrite andb_false_r.
Qed.

Lemma collecting_nil commits : collecting maxPRs [] (found lookup commits 0).
Proof.
  repeat split.
  - simpl. lia.
  - constructor.
  - intros pr Hpr. inversion Hpr.
  - intros _ pr (j & c & Hj & _). lia.
Qed.

Lemma found_all commits i pr :
  found lookup commits i pr -> found lookup commits (length commits) pr.
Proof.
  intros (j & c & Hj & Hc & Hx). exists j, c. repeat split; try assumption.
  now apply lookup_lt_Some in Hc.
Qed.
End Collect.

(** The shape of what the collection gives *)
Lemma collection_shape lookup getTime commits maxPRs :
  exists looked prs,
    getPullRequestsForCommits lookup getTime commits maxPRs = Some (looked, prs)
    /\ Z.of_nat (length prs) <= Z.max 0 maxPRs
    /\ distinct_numbers prs
    /\ Sorted (fun a b => getTime (createdAt b) <= getTime (createdAt a)) prs
    /\ (forall pr, pr ∈ prs -> found lookup commits (length commits) pr)
    /\ (exists n, looked = map History.hash (take n commits))
    /\ (maxPRs <= 0 -> looked = []).
Proof.
  unfold getPullRequestsForCommits.
  destruct (batches_collecting lookup maxPRs commits (length commits) 0 [] [])
    as (looked & prsMap & i & Hb & (Hlen & Hd & Hin & _) & Hl & _).
  - apply collecting_nil.
  - reflexivity.
  - unfold PR_BATCH_SIZE. lia.
  - rewrite Hb. cbn [mbind option_bind].
    exists looked, (sort_by (newest_first getTime) prsMap).
    pose proof (sort_by_perm (newest_first getTime) prsMap) as Hperm.
    repeat split.
    + now rewrite Hperm.
    + eapply ForallOrdPairs_perm; [| symmetry; exact Hperm | exact Hd].
      intros a b H. now rewrite sameValueZero_sym.
    + eapply HistoryFacts.Sorted_weaken; [| apply sort_by_sorted].
      unfold newest_first. intros a b H. lia.
    + intros pr Hpr. rewrite Hperm in Hpr. eapply found_all. eauto.
    + now exists i.
    + intros Hmax. rewrite batches_no_room in Hb by assumption. now injection Hb as <- _.
Qed.

(** X11.  The collection of pull requests always ends, and what it
    gives is: at most [maxPRs] records, with no number twice, each one
    found by the lookup of one of the commits, the newest first.  The
    commits looked up are a first part of the list, and none is looked
    up when [maxPRs] is not positive. *)
Theorem getPullRequestsForCommits_shape lookup getTime commits maxPRs :
  exists looked prs,
    getPullRequestsForCommits lookup getTime commits maxPRs = Some (looked, prs)
    /\ Z.of_nat (length prs) <= Z.max 0 maxPRs
    /\ distinct_numbers prs
    /\ Sorted (fun a b => getTime (createdAt b) <= getTime (createdAt a)) prs
    /\ (forall pr, pr ∈ prs -> found lookup commits (length commits) pr)
    /\ (exists n, looked = map History.hash (take n commits))
    /\ (maxPRs <= 0 -> looked = []).
Proof. apply collection_shape. Qed.

(** X12.  When the collection ends below [maxPRs], nothing was left
    out: every commit was looked up, and every pull request that a
    lookup found is in the result, itself or a record of the same
    number. *)
Theorem getPullRequestsForCommits_complete lookup getTime commits maxPRs looked prs :
  getPullRequestsForCommits lookup getTime commits maxPRs = Some (looked, prs) ->
  Z.of_nat (length prs) < maxPRs ->
  looked = map History.hash commits
  /\ forall j commit pr,
       commits !! j = Some commit -> pr ∈ lookup j (History.hash commit) ->
       represented prs pr.
Proof.
  unfold getPullRequestsForCommits. intros Hget Hlt.
  destruct (batches_collecting lookup maxPRs commits (length commits) 0 [] [])
    as (looked' & prsMap & i & Hb & (_ & _ & _ & Hall) & Hl & Hend).
  - apply collecting_nil.
  - reflexivity.
  - unfold PR_BATCH_SIZE. lia.
  - rewrite Hb in Hget. cbn [mbind option_bind] in Hget. injection Hget as <- <-.
    pose proof (sort_by_perm (newest_first getTime) prsMap) as Hperm.
    rewrite Hperm in Hlt.
    destruct Hend as [Hend | Hend]; [| lia]. split.
    + rewrite Hl. now rewrite take_ge.
    + intros j commit pr Hc Hx.
      destruct (Hall Hlt pr) as (pr' & Hin & Hrep).
      * exists j, commit. repeat split; try assumption.
        apply lookup_lt_Some in Hc. lia.
      * exists pr'. split; [now rewrite Hperm | assumption].
Qed.

Lemma getPullRequestsForCommits_complete_witness :
  ["c3"; "c2"; "c1"] = map History.hash History.sample_commits
  /\ forall j commit pr,
       History.sample_commits !! j = Some commit ->
       pr ∈ sample_lookup j (History.hash commit) ->
       represented [pr_number 9 300; pr_number 7 100] pr.
Proof.
  apply (getPullRequestsForCommits_complete sample_lookup sample_getTime
           History.sample_commits 10).
  - reflexivity.
  - simpl. lia.
Defined.
End CollectFacts.

(** ** The analysis of the hosting service *)

Module AnalyzeFacts.
Import Js JsFacts Reviews Collection CollectFacts.
Local Open Scope Z_scope.

(** X13.  [analyze] always gives a result.  A result with an error has
    no pull requests and came without a lookup; a result without one
    says that the remote was read as a repository of the service and a
    token was there, and reports the address in its canonical form.  At
    most the first twenty commits are looked up, and at most [maxPRs]
    pull requests are given. *)
Theorem analyze_result lookup getTime remoteUrl token maxPRs commits :
  exists looked result,
    analyze lookup getTime remoteUrl token maxPRs commits = Some (looked, result)
    /\ (is_Some (error result) -> looked = [] /\ pullRequests result = [])
    /\ (error result = None ->
        exists address repoInfo tok,
          remoteUrl = Some address /\ parseGitHubUrl address = Some repoInfo
          /\ token = Some tok /\ tok <> ""
          /\ repoUrl result = Some (canonical repoInfo))
    /\ (exists n, (n <= MAX_COMMITS_TO_SEARCH_PRS)%nat
                  /\ looked = map History.hash (take n commits))
    /\ Z.of_nat (length (pullRequests result)) <= Z.max 0 maxPRs.
Proof.
  assert (Hnone : forall r e,
    exists looked result,
      Some ([] : list string, mkGitHub r [] (Some e)) = Some (looked, result)
      /\ (is_Some (error result) -> looked = [] /\ pullRequests result = [])
      /\ (error result = None ->
          exists address repoInfo tok,
            remoteUrl = Some address /\ parseGitHubUrl address = Some repoInfo
            /\ token = Some tok /\ tok <> ""
            /\ repoUrl result = Some (canonical repoInfo))
      /\ (exists n, (n <= MAX_COMMITS_TO_SEARCH_PRS)%nat
                    /\ looked = map History.hash (take n commits))
      /\ Z.of_nat (length (pullRequests result)) <= Z.max 0 maxPRs).
  { intros r e. eexists _, _. split; [reflexivity |]. simpl.
    split; [auto |]. split; [discriminate |]. split; [| lia].
    exists 0%nat. split; [lia | reflexivity]. }
  unfold analyze.
  destruct remoteUrl as [[| c address] |]; try apply Hnone.
  destruct (parseGitHubUrl (String c address)) as [repoInfo |] eqn:Hparse; try apply Hnone.
  destruct token as [[| c' tok] |]; try apply Hnone.
  destruct (collection_shape
              (lookup (fst repoInfo) (snd repoInfo) (String c' tok)) getTime
              (take MAX_COMMITS_TO_SEARCH_PRS commits) maxPRs)
    as (looked & prs & Hget & Hlen & _ & _ & _ & [n Hn] & _).
  rewrite Hget. cbn [mbind option_bind].
  exists looked, (mkGitHub (Some (canonical repoInfo)) prs None). simpl.
  split; [reflexivity |]. split; [intros [? [=]] |]. split.
  - intros _. exists (String c address), repoInfo, (String c' tok). now repeat split.
  - split; [| exact Hlen].
    exists (n `min` MAX_COMMITS_TO_SEARCH_PRS)%nat. split; [lia |].
    now rewrite Hn, take_take.
Qed.

End AnalyzeFacts.

(** ** The orchestrator: what a run shows and what it stores *)

Module CommandsFacts.
Import Js JsFacts Orchestrator OrchestratorFacts RemoteFacts Commands.
Local Open Scope Z_scope.

Lemma pretty_N_go_no_colon x : forall s,
  includes s ":" = false -> includes (pretty_N_go x s) ":" = false.
Proof.
  induction (N.lt_wf_0 x) as [x _ IH]; intros s Hs.
  destruct (N.eq_dec x 0%N) as [-> | Hx].
  - now rewrite pretty_N_go_0.
  - rewrite pretty_N_go_step by lia. apply IH.
    + apply N.div_lt; lia.
    + rewrite includes_char_cons, Hs, orb_false_r.
      unfold pretty_N_char. now repeat case_match.
Qed.

Lemma pretty_Z_no_colon (n : Z) : includes (pretty n) ":" = false.
Proof.
  assert (HN : forall p, includes (pretty (Npos p)) ":" = false).
  { intros p. unfold pretty, pretty_N. case_decide; [reflexivity |].
    now apply pretty_N_go_no_colon. }
  unfold pretty, pretty_Z. destruct n as [| p | p].
  - reflexivity.
  - apply HN.
  - rewrite app_cons, app_nil, includes_char_cons. simpl. apply HN.
Qed.

Lemma includes_colon a b : includes (a +:+ String ":" b) ":" = true.
Proof. exact (includes_app a ":" b). Qed.

(** A text is cut in one way at its last colon. *)
Lemma last_colon x : forall x' n n',
  includes n ":" = false -> includes n' ":" = false ->
  x +:+ ":" +:+ n = x' +:+ ":" +:+ n' -> x = x' /\ n = n'.
Proof.
  induction x as [| c x IH]; intros [| c' x'] n n' Hn Hn'; rewrite ?app_nil, ?app_cons, ?app_nil.
  - now intros [= ->].
  - intros [= <- ->]. now rewrite includes_colon in Hn.
  - intros [= -> <-]. now rewrite includes_colon in Hn'.
  - intros [= -> H]. apply (IH x' n n') in H as [-> ->]; auto.
Qed.

Lemma includes_colon_app a b :
  includes a ":" = false -> includes b ":" = false -> includes (a +:+ b) ":" = false.
Proof.
  intros Ha Hb. induction a as [| c a IH]; [now rewrite app_nil |].
  rewrite app_cons, includes_char_cons. rewrite includes_char_cons in Ha.
  apply orb_false_iff in Ha as [-> Ha]. now rewrite IH.
Qed.

(** X14.  Two requests have the same cache key only when they name the
    same file and the same lines, whatever characters the path has. *)
Theorem getCacheKey_inj path from to path' from' to' :
  getCacheKey path from to = getCacheKey path' from' to' ->
  path = path' /\ from = from' /\ to = to'.
Proof.
  unfold getCacheKey. intros H.
  assert (Hk : forall p (f t : Z),
            p +:+ ":" +:+ pretty f +:+ ":" +:+ pretty t
            = (p +:+ ":" +:+ pretty f) +:+ ":" +:+ pretty t)
    by (intros; now rewrite !app_assoc).
  rewrite !Hk in H.
  apply last_colon in H as [H Hto]; try apply pretty_Z_no_colon.
  apply last_colon in H as [-> Hfrom]; try apply pretty_Z_no_colon.
  apply (inj pretty) in Hto, Hfrom. auto.
Qed.

Lemma getCacheKey_inj_witness :
  "src/a.ts:1" = "src/a.ts:1" /\ 12 = 12 /\ 3 = 3.
Proof.
  apply (getCacheKey_inj "src/a.ts:1" 12 3 "src/a.ts:1" 12 3). reflexivity.
Defined.

Section Runs.
Context {C G H : Type}.
Abbreviation World := (World C G H).
Abbreviation Env := (Env C G H).
Variable md5 : string -> string.
Variable clock : nat -> Z.

(** How the callback of [withProgress] ends: with a fresh report that
    is stored and given to the panel, which shows it or throws; or
    cancelled, or with the error message of a stage; the last two leave
    the cache alone. *)
Lemma progress_cases (env : Env) path from to text (w : World) :
  exists evs w',
    progress md5 clock env path from to text w = (evs, w')
    /\ lastAnalysis w' = lastAnalysis w
    /\ analysisInProgress w' = false
    /\ Forall (fun t => t = "Analysis cancelled.") (notices evs)
    /\ ((exists fresh ts,
           reports evs = [fresh] /\ errors evs = errors (after_panel env fresh)
           /\ fresh = mkResult path from to text (codeAnalysis fresh) (gitAnalysis fresh)
                        (githubAnalysis fresh) (analyzedAt fresh) None None
           /\ analysisCache w'
              = <[getCacheKey path from to := mkEntry fresh (md5 text) ts]> (analysisCache w)
           /\ analysisCancelled w' = false)
        \/ (analysisCache w' = analysisCache w /\ reports evs = []
            /\ ((analysisCancelled w' = true /\ errors evs = [])
                \/ (analysisCancelled w' = false
                    /\ exists errorMessage,
                         errors evs = ["Analysis failed" +:+ ": " +:+ errorMessage])))).
Proof.
  unfold progress, stages, awaited, caught, setCachedResult, Date_now. simpl.
  destruct (cancelledDuring env 1); simpl;
    (destruct (gitAnalyze env path from to) as [e1 | g]; simpl;
     [| try (destruct (cancelledDuring env 2); simpl;
             (destruct (codeAnalyze env text path g) as [e2 | c]; simpl;
              [| try (destruct (cancelledDuring env 3); simpl;
                      (destruct (githubAnalyze env path g) as [e3 | h]; simpl;
                       [| try (destruct (createOrShow env _) as [e4 |] eqn:Hpanel;
                               simpl)]))]))]);
    (eexists _, _; split; [reflexivity |]; simpl;
     split; [reflexivity |]; split; [reflexivity |]; split; [repeat constructor |];
     first
       [ left; eexists _, _; split; [reflexivity |];
         split; [unfold after_panel; rewrite Hpanel; reflexivity |];
         repeat split; reflexivity
       | right; split; [reflexivity |]; split; [reflexivity |];
         first [ left; split; reflexivity
               | right; split; [reflexivity |]; eexists; reflexivity ] ]).
Qed.

Lemma getCachedResult_cases (env : Env) path from to text (w : World) :
  exists r w1,
    getCachedResult md5 clock env path from to text w = (r, w1)
    /\ lastAnalysis w1 = lastAnalysis w
    /\ analysisInProgress w1 = analysisInProgress w
    /\ analysisCancelled w1 = analysisCancelled w
    /\ ((r = None
         /\ (analysisCache w1 = analysisCache w
             \/ analysisCache w1 = delete (getCacheKey path from to) (analysisCache w)))
        \/ (exists entry,
              analysisCache w !! getCacheKey path from to = Some entry
              /\ r = Some (result entry)
              /\ analysisCache w1 = analysisCache w)).
Proof.
  unfold getCachedResult.
  destruct (analysisCache w !! getCacheKey path from to) as [entry |] eqn:Hl.
  - simpl. destruct (_ || _); eexists _, _; (split; [reflexivity |]); simpl;
      repeat (split; [reflexivity |]).
    + left. split; [reflexivity | now right].
    + right. now exists entry.
  - eexists _, _. split; [reflexivity |]. repeat (split; [reflexivity |]).
    left. split; [reflexivity | now left].
Qed.

(** The ways a call of [analyzeCode] on an idle world ends: answered
    from the cache; or, with the entry of the request kept or evicted,
    declined at the warning, or as the callback ends. *)
Lemma analyzeCode_cases (env : Env) path from to text force (w : World) :
  analysisInProgress w = false ->
  exists evs w',
    analyzeCode md5 clock env path from to text force w = (evs, w')
    /\ lastAnalysis w' = Some (mkLast path from to text)
    /\ analysisInProgress w' = false
    /\ ((force = false
         /\ exists entry age,
              analysisCache w !! getCacheKey path from to = Some entry
              /\ evs = CreateOrShow (withCacheInfo (result entry) age)
                       :: after_cached env (withCacheInfo (result entry) age)
              /\ analysisCache w' = analysisCache w
              /\ analysisCancelled w' = analysisCancelled w)
        \/ (exists cache1,
              (cache1 = analysisCache w
               \/ (force = false
                   /\ cache1 = delete (getCacheKey path from to) (analysisCache w)))
              /\ Forall (fun t => t = "Analysis cancelled.") (notices evs)
              /\ ((analysisCache w' = cache1 /\ reports evs = [] /\ errors evs = []
                   /\ analysisCancelled w' = analysisCancelled w
                   /\ claudeApiKey env = None /\ warningChoice env <> ContinueAnyway)
                  \/ (exists fresh ts,
                        reports evs = [fresh] /\ errors evs = errors (after_panel env fresh)
                        /\ fresh = mkResult path from to text (codeAnalysis fresh)
                                     (gitAnalysis fresh) (githubAnalysis fresh)
                                     (analyzedAt fresh) None None
                        /\ analysisCache w'
                           = <[getCacheKey path from to := mkEntry fresh (md5 text) ts]> cache1
                        /\ analysisCancelled w' = false)
                  \/ (analysisCache w' = cache1 /\ reports evs = []
                      /\ ((analysisCancelled w' = true /\ errors evs = [])
                          \/ (analysisCancelled w' = false
                              /\ exists errorMessage,
                                   errors evs
                                   = ["Analysis failed" +:+ ": " +:+ errorMessage])))))).
Proof.
  intros Hidle. unfold analyzeCode. rewrite Hidle.
  set (w0 := with_last (Some (mkLast path from to text)) w).
  assert (Hstart : exists r w1,
    (if force then (None, w0) else getCachedResult md5 clock env path from to text w0)
      = (r, w1)
    /\ lastAnalysis w1 = Some (mkLast path from to text)
    /\ analysisInProgress w1 = false
    /\ analysisCancelled w1 = analysisCancelled w
    /\ ((r = None
         /\ (analysisCache w1 = analysisCache w
             \/ (force = false
                 /\ analysisCache w1 = delete (getCacheKey path from to) (analysisCache w))))
        \/ (force = false
            /\ exists entry,
                 analysisCache w !! getCacheKey path from to = Some entry
                 /\ r = Some (result entry)
                 /\ analysisCache w1 = analysisCache w))).
  { destruct force.
    - exists None, w0. repeat (split; [reflexivity || exact Hidle |]).
      left. split; [reflexivity | now left].
    - destruct (getCachedResult_cases env path from to text w0)
        as (r & w1 & Hr & Hl & Hp & Hc & Hcase).
      exists r, w1. split; [exact Hr |]. split; [exact Hl |].
      split; [now rewrite Hp |]. split; [exact Hc |].
      destruct Hcase as [[-> [Hk | Hk]] | (entry & He & -> & Hk)].
      + left. split; [reflexivity | now left].
      + left. split; [reflexivity | right; now split].
      + right. split; [reflexivity |]. now exists entry. }
  destruct Hstart as (r & w1 & -> & Hl & Hp & Hc & Hcase).
  destruct Hcase as [[-> Hcache] | (-> & entry & He & -> & Hcache)].
  - assert (Hrun : forall pre : list (effect C G H),
      reports pre = [] -> errors pre = [] -> notices pre = [] ->
      exists evs w',
        (let '(evs, w) := progress md5 clock env path from to text w1 in (pre ++ evs, w))
          = (evs, w')
        /\ lastAnalysis w' = Some (mkLast path from to text)
        /\ analysisInProgress w' = false
        /\ Forall (fun t => t = "Analysis cancelled.") (notices evs)
        /\ ((exists fresh ts,
               reports evs = [fresh] /\ errors evs = errors (after_panel env fresh)
               /\ fresh = mkResult path from to text (codeAnalysis fresh)
                            (gitAnalysis fresh) (githubAnalysis fresh)
                            (analyzedAt fresh) None None
               /\ analysisCache w'
                  = <[getCacheKey path from to := mkEntry fresh (md5 text) ts]>
                      (analysisCache w1)
               /\ analysisCancelled w' = false)
            \/ (analysisCache w' = analysisCache w1 /\ reports evs = []
                /\ ((analysisCancelled w' = true /\ errors evs = [])
                    \/ (analysisCancelled w' = false
                        /\ exists errorMessage,
                             errors evs = ["Analysis failed" +:+ ": " +:+ errorMessage]))))).
    { intros pre Hr He Hn.
      destruct (progress_cases env path from to text w1)
        as (evs & w' & -> & Hl' & Hp' & Hn' & Hcase).
      assert (Hreports : reports (pre ++ evs) = reports evs).
      { clear -Hr. induction pre as [| [] pre IH]; simpl in *; auto; discriminate. }
      assert (Herrors : errors (pre ++ evs) = errors evs).
      { clear -He. induction pre as [| [] pre IH]; simpl in *; auto; discriminate. }
      assert (Hnotices : notices (pre ++ evs) = notices evs).
      { clear -Hn. induction pre as [| [] pre IH]; simpl in *; auto; discriminate. }
      exists (pre ++ evs), w'. split; [reflexivity |].
      rewrite Hreports, Herrors, Hnotices, Hl'. auto. }
    assert (Hdeclined : forall evs : list (effect C G H),
      reports evs = [] -> errors evs = [] -> notices evs = [] ->
      claudeApiKey env = None -> warningChoice env <> ContinueAnyway ->
      exists evs' w',
        (evs, w1) = (evs', w')
        /\ lastAnalysis w' = Some (mkLast path from to text)
        /\ analysisInProgress w' = false
        /\ Forall (fun t => t = "Analysis cancelled.") (notices evs')
        /\ analysisCache w' = analysisCache w1 /\ reports evs' = [] /\ errors evs' = []
        /\ analysisCancelled w' = analysisCancelled w
        /\ claudeApiKey env = None /\ warningChoice env <> ContinueAnyway).
    { intros evs Hr He Hn Hkey Hchoice. exists evs, w1. rewrite Hn. repeat split; auto. }
    destruct (claudeApiKey env) as [apiKey |] eqn:Hkey;
      [| destruct (warningChoice env) eqn:Hchoice].
    + destruct (Hrun [GetClaudeApiKey] eq_refl eq_refl eq_refl)
        as (evs & w' & Hp' & Hl' & Hb' & Hn' & Hcase).
      simpl in Hp'. destruct (progress _ _ _ _ _ _ _ _) as [evs0 w0'].
      injection Hp' as <- <-. eexists _, _. split; [reflexivity |].
      split; [exact Hl' |]. split; [exact Hb' |]. right.
      exists (analysisCache w1). split; [exact Hcache |]. split; [exact Hn' |]. right.
      destruct Hcase as [Hfresh | Hrest]; [left | right]; assumption.
    + destruct (Hdeclined
                  [GetClaudeApiKey;
                   ShowWarningMessage
                     "Claude API key not configured. AI analysis will use basic static analysis instead.";
                   ExecuteCommand "whatIsTheCode.setClaudeApiKey"]
                  eq_refl eq_refl eq_refl eq_refl)
        as (evs & w' & [= <- <-] & Hl' & Hb' & Hn' & Hrest); [discriminate |].
      eexists _, _. split; [reflexivity |]. split; [exact Hl' |]. split; [exact Hb' |].
      right. exists (analysisCache w1). split; [exact Hcache |]. split; [exact Hn' |].
      left. exact Hrest.
    + destruct (Hrun [GetClaudeApiKey;
                      ShowWarningMessage
                        "Claude API key not configured. AI analysis will use basic static analysis instead."]
                  eq_refl eq_refl eq_refl)
        as (evs & w' & Hp' & Hl' & Hb' & Hn' & Hcase).
      simpl in Hp'. destruct (progress _ _ _ _ _ _ _ _) as [evs0 w0'].
      injection Hp' as <- <-. eexists _, _. split; [reflexivity |].
      split; [exact Hl' |]. split; [exact Hb' |]. right.
      exists (analysisCache w1). split; [exact Hcache |]. split; [exact Hn' |]. right.
      destruct Hcase as [Hfresh | Hrest]; [left | right]; assumption.
    + destruct (Hdeclined
                  [GetClaudeApiKey;
                   ShowWarningMessage
                     "Claude API key not configured. AI analysis will use basic static analysis instead."]
                  eq_refl eq_refl eq_refl eq_refl)
        as (evs & w' & [= <- <-] & Hl' & Hb' & Hn' & Hrest); [discriminate |].
      eexists _, _. split; [reflexivity |]. split; [exact Hl' |]. split; [exact Hb' |].
      right. exists (analysisCache w1). split; [exact Hcache |]. split; [exact Hn' |].
      left. exact Hrest.
  - simpl. fold (after_cached env (withCacheInfo (result entry)
                                     (clock (reads w1) - analyzedAt (result entry)))).
    destruct (createOrShow env _) eqn:Hpanel;
      (eexists _, _; split; [reflexivity |]; simpl;
       split; [exact Hl |]; split; [exact Hp |]; left; split; [reflexivity |];
       eexists entry, _; split; [exact He |];
       split; [unfold after_cached; rewrite Hpanel; reflexivity |]; now split).
Qed.

(** X15.  A run of [analyzeCode] writes to the cache only at the key of
    its request, and only the report it has just given to the panel: an
    entry found under a key afterwards was there before, or it is under
    the key of the request and holds the one report that the run gave to
    the panel, which is not marked as cached, with the digest of the
    analysed text.  The panel has shown that report and the run shows
    no error, unless the panel threw: then the entry stays all the same
    and the run shows the error message. *)
Theorem analyzeCode_cache_writes (env : Env) path from to text force (w : World) key entry :
  analysisCache (snd (analyzeCode md5 clock env path from to text force w)) !! key
    = Some entry ->
  analysisCache w !! key = Some entry
  \/ (key = getCacheKey path from to
      /\ reports (fst (analyzeCode md5 clock env path from to text force w)) = [result entry]
      /\ (createOrShow env (result entry) = None ->
          errors (fst (analyzeCode md5 clock env path from to text force w)) = [])
      /\ (forall e, createOrShow env (result entry) = Some e ->
          errors (fst (analyzeCode md5 clock env path from to text force w))
          = ["Analysis failed: " +:+ errorMessageOf e])
      /\ codeHash entry = md5 text
      /\ fromCache (result entry) = None
      /\ filePath (result entry) = path
      /\ startLine (result entry) = from
      /\ endLine (result entry) = to
      /\ code (result entry) = text).
Proof.
  destruct (analysisInProgress w) eqn:Hidle.
  { unfold analyzeCode. rewrite Hidle. now left. }
  destruct (analyzeCode_cases env path from to text force w Hidle)
    as (evs & w' & -> & _ & _ & Hcase). simpl.
  assert (Hold : forall cache1,
    cache1 = analysisCache w
    \/ (force = false /\ cache1 = delete (getCacheKey path from to) (analysisCache w)) ->
    cache1 !! key = Some entry -> analysisCache w !! key = Some entry).
  { intros cache1 [-> | [_ ->]]; [auto |]. now intros [_ ?]%lookup_delete_Some. }
  destruct Hcase as [(_ & entry' & age & _ & _ & -> & _) | (cache1 & Hc1 & _ & Hcase)];
    [now left |].
  destruct Hcase as [(-> & _) | [(fresh & ts & Hr & He & Hf & -> & _) | (-> & _)]];
    try (intros Hk; left; now apply (Hold cache1)).
  intros [[<- <-] | [_ Hk]]%lookup_insert_Some; [| left; now apply (Hold cache1)].
  right. simpl. split; [reflexivity |]. split; [exact Hr |].
  unfold after_panel in He.
  split; [intros Hpanel; now rewrite Hpanel in He |].
  split; [intros e Hpanel; now rewrite Hpanel in He |].
  rewrite Hf. simpl. repeat split.
Qed.


(** X17.  When a call shows an error message, it is the one message
    "Analysis failed: " with the message of the failure, and the busy
    flag is released.  Either a stage has failed: then no report was
    given to the panel and nothing was added to the cache.  Or the
    panel has thrown on the fresh report: then the report was stored
    before the panel was called, and the cache holds it under the key
    of the request. *)
Theorem analyzeCode_failed (env : Env) path from to text force (w : World) :
  errors (fst (analyzeCode md5 clock env path from to text force w)) <> [] ->
  (exists errorMessage,
     errors (fst (analyzeCode md5 clock env path from to text force w))
     = ["Analysis failed: " +:+ errorMessage])
  /\ analysisInProgress (snd (analyzeCode md5 clock env path from to text force w)) = false
  /\ ((reports (fst (analyzeCode md5 clock env path from to text force w)) = []
       /\ forall key entry,
            analysisCache (snd (analyzeCode md5 clock env path from to text force w)) !! key
              = Some entry ->
            analysisCache w !! key = Some entry)
      \/ (exists fresh e ts,
            reports (fst (analyzeCode md5 clock env path from to text force w)) = [fresh]
            /\ createOrShow env fresh = Some e
            /\ errors (fst (analyzeCode md5 clock env path from to text force w))
               = ["Analysis failed: " +:+ errorMessageOf e]
            /\ analysisCache (snd (analyzeCode md5 clock env path from to text force w))
                 !! getCacheKey path from to
               = Some (mkEntry fresh (md5 text) ts))).
Proof.
  destruct (analysisInProgress w) eqn:Hidle.
  { unfold analyzeCode. rewrite Hidle. simpl. congruence. }
  destruct (analyzeCode_cases env path from to text force w Hidle)
    as (evs & w' & -> & _ & Hb & Hcase). simpl.
  assert (Hold : forall cache1 key entry,
    cache1 = analysisCache w
    \/ (force = false /\ cache1 = delete (getCacheKey path from to) (analysisCache w)) ->
    cache1 !! key = Some entry -> analysisCache w !! key = Some entry).
  { intros cache1 key entry [-> | [_ ->]]; [auto |]. now intros [_ ?]%lookup_delete_Some. }
  destruct Hcase as [(_ & entry' & age & _ & -> & _) | (cache1 & Hc1 & _ & Hcase)].
  { unfold after_cached. destruct (createOrShow env _); simpl; congruence. }
  destruct Hcase as [(-> & _ & He & _) | [(fresh & ts & Hr & He & _ & Hc & _)
                     | (-> & Hr & [[_ He] | [_ [errorMessage He]]])]]; try congruence.
  - unfold after_panel in He. destruct (createOrShow env fresh) as [e |] eqn:Hpanel;
      [| simpl in He; congruence].
    intros _. split; [exists (errorMessageOf e); exact He |]. split; [exact Hb |].
    right. exists fresh, e, ts. split; [exact Hr |]. split; [exact Hpanel |].
    split; [exact He |]. rewrite Hc. apply lookup_insert_eq.
  - intros _. split; [exists errorMessage; exact He |]. split; [exact Hb |].
    left. split; [exact Hr |]. intros key entry. now apply Hold.
Qed.


(** X19.  The refresh command never answers from the cache.  Without a
    recorded request it only shows an error and changes nothing.  With
    one, every report it shows is for the file and the lines of that
    request, is not marked as cached, and is what the cache then holds
    for them; and the notice of a cached result is not shown. *)
Theorem refreshCommand_fresh (env : Env) openTextDocument (w : World) :
  (lastAnalysis w = None ->
   refreshCommand md5 clock env openTextDocument w
   = ([ShowErrorMessage NO_PREVIOUS_ANALYSIS], w))
  /\ (forall last shown,
        lastAnalysis w = Some last ->
        shown ∈ reports (fst (refreshCommand md5 clock env openTextDocument w)) ->
        fromCache shown = None
        /\ filePath shown = la_filePath last
        /\ startLine shown = la_startLine last
        /\ endLine shown = la_endLine last
        /\ exists entry,
             analysisCache (snd (refreshCommand md5 clock env openTextDocument w))
               !! getCacheKey (la_filePath last) (la_startLine last) (la_endLine last)
             = Some entry
             /\ result entry = shown /\ codeHash entry = md5 (code shown))
  /\ SHOWING_CACHED ∉ notices (fst (refreshCommand md5 clock env openTextDocument w)).
Proof.
  unfold refreshCommand. destruct (lastAnalysis w) as [last |] eqn:Hlast.
  2:{ split; [reflexivity |]. split; [discriminate |]. simpl. apply not_elem_of_nil. }
  split; [discriminate |].
  set (text := match openTextDocument (la_filePath last) with
               | Some doc => _ | None => _ end).
  destruct (analysisInProgress w) eqn:Hidle.
  { unfold analyzeCode. rewrite Hidle. simpl. split.
    - intros ? shown _ Hin. inversion Hin.
    - intros [Heq | Hin]%elem_of_cons; [discriminate | inversion Hin]. }
  destruct (analyzeCode_cases env (la_filePath last) (la_startLine last) (la_endLine last)
              text true w Hidle)
    as (evs & w' & -> & _ & _ & Hcase). simpl.
  destruct Hcase as [[[=] _] | (cache1 & _ & Hn & Hcase)].
  split.
  - intros ? shown [= <-] Hin.
    destruct Hcase as [(_ & Hr & _) | [(fresh & ts & Hr & _ & Hf & Hc & _) | (_ & Hr & _)]];
      rewrite Hr in Hin; try (inversion Hin; fail).
    apply list_elem_of_singleton in Hin as ->.
    rewrite Hf. simpl. repeat split.
    exists (mkEntry fresh (md5 text) ts). rewrite Hc, lookup_insert_eq.
    split; [reflexivity |]. split; [exact Hf | reflexivity].
  - intros Hin. rewrite Forall_forall in Hn.
    apply Hn in Hin. discriminate.
Qed.

(** X20.  After the cache is cleared no request finds an entry, and an
    analysis behaves as one that is forced to refresh. *)
Theorem clearCache_forgets (env : Env) path from to text (w : World) :
  analyzeCode md5 clock env path from to text false (snd (clearCache w))
  = analyzeCode md5 clock env path from to text true (snd (clearCache w))
  /\ (forall code', fst (getCachedResult md5 clock env path from to code' (snd (clearCache w)))
                   = None)
  /\ fst (clearCache w) = [ShowInformationMessage (CACHE_CLEARED (size (analysisCache w)))].
Proof.
  split; [| split; [| reflexivity]].
  - unfold analyzeCode, getCachedResult. simpl. now rewrite lookup_empty.
  - intros code'. unfold getCachedResult. simpl. now rewrite lookup_empty.
Qed.
End Runs.

Lemma refreshCommand_fresh_witness :
  let shown := mkResult "a.ts" 1 2 "let x = 2;" tt tt tt 1800000 None None in
  fromCache shown = None
  /\ filePath shown = "a.ts" /\ startLine shown = 1 /\ endLine shown = 2
  /\ exists entry,
       analysisCache (snd (refreshCommand sample_md5 sample_clock sample_env sample_document
                             cached_world))
         !! getCacheKey "a.ts" 1 2 = Some entry
       /\ result entry = shown /\ codeHash entry = sample_md5 (code shown).
Proof.
  destruct (refreshCommand_fresh sample_md5 sample_clock sample_env sample_document
              cached_world) as (_ & Hshown & _).
  apply (Hshown (mkLast "a.ts" 1 2 "let x = 1;")
           (mkResult "a.ts" 1 2 "let x = 2;" tt tt tt 1800000 None None)).
  - reflexivity.
  - apply list_elem_of_here.
Defined.

Lemma analyzeCode_cache_writes_witness :
  analysisCache empty_world !! getCacheKey "a.ts" 1 2
    = Some (mkEntry sample_result (sample_md5 "let x = 1;") 0)
  \/ (getCacheKey "a.ts" 1 2 = getCacheKey "a.ts" 1 2
      /\ reports (fst (analyzeCode sample_md5 sample_clock throwing_env "a.ts" 1 2
                         "let x = 1;" false empty_world))
         = [sample_result]
      /\ (createOrShow throwing_env sample_result = None ->
          errors (fst (analyzeCode sample_md5 sample_clock throwing_env "a.ts" 1 2
                         "let x = 1;" false empty_world)) = [])
      /\ (forall e, createOrShow throwing_env sample_result = Some e ->
          errors (fst (analyzeCode sample_md5 sample_clock throwing_env "a.ts" 1 2
                         "let x = 1;" false empty_world))
          = ["Analysis failed: " +:+ errorMessageOf e])
      /\ sample_md5 "let x = 1;" = sample_md5 "let x = 1;"
      /\ fromCache sample_result = None
      /\ filePath sample_result = "a.ts"
      /\ startLine sample_result = 1
      /\ endLine sample_result = 2
      /\ code sample_result = "let x = 1;").
Proof.
  apply (analyzeCode_cache_writes sample_md5 sample_clock throwing_env "a.ts" 1 2
           "let x = 1;" false empty_world (getCacheKey "a.ts" 1 2)
           (mkEntry sample_result (sample_md5 "let x = 1;") 0)).
  apply lookup_insert_eq.
Defined.


Lemma analyzeCode_failed_witness :
  (exists errorMessage,
     errors (fst (analyzeCode sample_md5 sample_clock throwing_env "a.ts" 1 2
                    "let x = 1;" false empty_world))
     = ["Analysis failed: " +:+ errorMessage])
  /\ analysisInProgress (snd (analyzeCode sample_md5 sample_clock throwing_env "a.ts" 1 2
                                "let x = 1;" false empty_world)) = false
  /\ ((reports (fst (analyzeCode sample_md5 sample_clock throwing_env "a.ts" 1 2
                      "let x = 1;" false empty_world)) = []
       /\ forall key entry,
            analysisCache (snd (analyzeCode sample_md5 sample_clock throwing_env "a.ts" 1 2
                                  "let x = 1;" false empty_world)) !! key = Some entry ->
            analysisCache empty_world !! key = Some entry)
      \/ (exists fresh e ts,
            reports (fst (analyzeCode sample_md5 sample_clock throwing_env "a.ts" 1 2
                            "let x = 1;" false empty_world)) = [fresh]
            /\ createOrShow throwing_env fresh = Some e
            /\ errors (fst (analyzeCode sample_md5 sample_clock throwing_env "a.ts" 1 2
                              "let x = 1;" false empty_world))
               = ["Analysis failed: " +:+ errorMessageOf e]
            /\ analysisCache (snd (analyzeCode sample_md5 sample_clock throwing_env "a.ts" 1 2
                                     "let x = 1;" false empty_world))
                 !! getCacheKey "a.ts" 1 2
               = Some (mkEntry fresh (sample_md5 "let x = 1;") ts))).
Proof.
  apply (analyzeCode_failed sample_md5 sample_clock throwing_env "a.ts" 1 2
           "let x = 1;" false empty_world).
  discriminate.
Defined.

End CommandsFacts.

(** ** The nesting depth of the static analysis *)

Module NestingFacts.
Import Js JsFacts RemoteFacts Nesting.
Local Open Scope Z_scope.

Lemma occurrences_nonneg c s : 0 <= occurrences c s.
Proof. induction s as [| c' s IH]; simpl; [lia |]. destruct (Ascii.eqb c' c); lia. Qed.

Lemma occurrences_includes c s : occurrences c s = 0 <-> includes s (String c "") = false.
Proof.
  induction s as [| c' s IH]; [now split |].
  rewrite includes_char_cons. simpl. rewrite (Ascii.eqb_sym c c').
  pose proof (occurrences_nonneg c s).
  destruct (Ascii.eqb c' c); simpl; [split; [lia | discriminate] | exact IH].
Qed.

Lemma nesting_bounds code : forall currentDepth maxDepth,
  0 <= currentDepth ->
  maxDepth <= nesting code currentDepth maxDepth
    <= Z.max maxDepth (currentDepth + occurrences "{" code).
Proof.
  induction code as [| c code IH]; intros cur mx Hcur; simpl; [lia |].
  pose proof (occurrences_nonneg "{" code).
  destruct (Ascii.eqb c "{").
  - specialize (IH (cur + 1) (Z.max mx (cur + 1))). lia.
  - destruct (Ascii.eqb c "}").
    + specialize (IH (Z.max 0 (cur - 1)) mx). lia.
    + specialize (IH cur mx). lia.
Qed.

Lemma nesting_opened code : forall currentDepth maxDepth,
  0 <= currentDepth -> 0 < occurrences "{" code ->
  1 <= nesting code currentDepth maxDepth.
Proof.
  induction code as [| c code IH]; intros cur mx Hcur; simpl; [lia |].
  destruct (Ascii.eqb c "{").
  - intros _. pose proof (nesting_bounds code (cur + 1) (Z.max mx (cur + 1))). lia.
  - destruct (Ascii.eqb c "}"); intros Hocc; apply IH; lia.
Qed.

(** X21.  The nesting depth is between zero and the number of opening
    braces of the code, and is zero exactly for code without an opening
    brace; a closing brace that closes nothing is passed over, the
    depth does not go below zero. *)
Theorem calculateMaxNesting_bounds code :
  0 <= calculateMaxNesting code <= occurrences "{" code
  /\ (calculateMaxNesting code = 0 <-> includes code "{" = false)
  /\ calculateMaxNesting ("}" +:+ code) = calculateMaxNesting code
  /\ calculateMaxNesting ("{}" +:+ code) = Z.max 1 (calculateMaxNesting code).
Proof.
  unfold calculateMaxNesting.
  pose proof (nesting_bounds code 0 0) as Hb.
  pose proof (occurrences_nonneg "{" code) as Ho.
  split; [lia |]. split; [| split].
  - rewrite <- occurrences_includes. split; [| lia].
    intros Hz. destruct (Z.eq_dec (occurrences "{" code) 0) as [| Hne]; [assumption |].
    pose proof (nesting_opened code 0 0). lia.
  - reflexivity.
  - rewrite !app_cons, app_nil. simpl.
    assert (Hmx : forall code cur mx mx',
              nesting code cur (Z.max mx mx') = Z.max mx (nesting code cur mx')).
    { clear. induction code as [| c code IH]; intros cur mx mx'; simpl; [reflexivity |].
      destruct (Ascii.eqb c "{"); [| destruct (Ascii.eqb c "}"); apply IH].
      rewrite <- IH. f_equal. lia. }
    apply (Hmx code 0 1 0).
Qed.
End NestingFacts.

(** ** The report panel *)

Module PanelFacts.
Import Js JsFacts RemoteFacts Summarizer SummarizerFacts Panel.
Local Open Scope Z_scope.

Lemma includes_char_app x a b :
  includes (a +:+ b) (String x "") = includes a (String x "") || includes b (String x "").
Proof.
  induction a as [| c a IH]; [now rewrite app_nil |].
  rewrite app_cons, !includes_char_cons, IH. now rewrite orb_assoc.
Qed.

(** X22.  Escaped text is safe to put into HTML: it has no angle
    bracket and no quote of either kind, and different texts stay
    different. *)
Theorem escapeHtml_safe text :
  includes (_escapeHtml text) "<" = false
  /\ includes (_escapeHtml text) ">" = false
  /\ includes (_escapeHtml text) (String dquote "") = false
  /\ includes (_escapeHtml text) "'" = false
  /\ forall other, _escapeHtml text = _escapeHtml other -> text = other.
Proof.
  assert (Hfree : forall x,
            x = "<"%char \/ x = ">"%char \/ x = dquote \/ x = "'"%char ->
            includes (_escapeHtml text) (String x "") = false).
  { intros x Hx. induction text as [| c text IH]; [reflexivity |].
    simpl. rewrite includes_char_app, IH, orb_false_r. unfold escaped.
    destruct (Ascii.eqb_spec c "&"); [destruct Hx as [-> | [-> | [-> | ->]]]; reflexivity |].
    destruct (Ascii.eqb_spec c "<"); [destruct Hx as [-> | [-> | [-> | ->]]]; reflexivity |].
    destruct (Ascii.eqb_spec c ">"); [destruct Hx as [-> | [-> | [-> | ->]]]; reflexivity |].
    destruct (Ascii.eqb_spec c dquote);
      [destruct Hx as [-> | [-> | [-> | ->]]]; reflexivity |].
    destruct (Ascii.eqb_spec c "'"); [destruct Hx as [-> | [-> | [-> | ->]]]; reflexivity |].
    rewrite includes_char_cons. simpl. rewrite orb_false_r.
    destruct (Ascii.eqb_spec x c) as [<- |]; [| reflexivity].
    destruct Hx as [-> | [-> | [-> | ->]]]; contradiction. }
  repeat split; try (apply Hfree; auto).
  clear Hfree. induction text as [| c text IH]; intros [| c' other]; simpl.
  - reflexivity.
  - unfold escaped. repeat (destruct (Ascii.eqb c' _)); rewrite ?app_cons; discriminate.
  - unfold escaped. repeat (destruct (Ascii.eqb c _)); rewrite ?app_cons; discriminate.
  - unfold escaped.
    destruct (Ascii.eqb_spec c "&"); destruct (Ascii.eqb_spec c' "&");
    destruct (Ascii.eqb_spec c "<"); destruct (Ascii.eqb_spec c' "<");
    destruct (Ascii.eqb_spec c ">"); destruct (Ascii.eqb_spec c' ">");
    destruct (Ascii.eqb_spec c dquote); destruct (Ascii.eqb_spec c' dquote);
    destruct (Ascii.eqb_spec c "'"); destruct (Ascii.eqb_spec c' "'");
    subst; try discriminate; rewrite ?app_cons, ?app_nil;
    intros Heq; injection Heq; intros; subst; try congruence;
    f_equal; apply IH; assumption.
Qed.

Section First.
Context {A : Type} (key : A -> Z).

Lemma sort_by_first l x rest :
  sort_by key l = x :: rest -> x ∈ l /\ Forall (fun y => key x <= key y) l.
Proof.
  intros Hs. pose proof (sort_by_perm key l) as Hp.
  pose proof (sort_by_sorted key l) as Hsorted. rewrite Hs in Hp, Hsorted.
  split; [rewrite <- Hp; apply list_elem_of_here |].
  rewrite <- Hp. apply Sorted_StronglySorted in Hsorted.
  - inversion Hsorted as [| ? ? _ Hall]; subst. constructor; [lia |].
    exact Hall.
  - intros a b c. lia.
Qed.
End First.

Lemma has_level_spec l risks :
  has_level l risks = true <-> exists r, r ∈ risks /\ level r = l.
Proof.
  unfold has_level. rewrite existsb_exists. split.
  - intros (r & Hin & Heq%String.eqb_eq). exists r. split; [now apply list_elem_of_In | easy].
  - intros (r & Hin & <-). exists r. split; [now apply list_elem_of_In | apply String.eqb_refl].
Qed.

Lemma has_level_false l risks r :
  has_level l risks = false -> r ∈ risks -> level r <> l.
Proof.
  intros Hf Hin Heq. assert (Ht : has_level l risks = true) by (apply has_level_spec; eauto).
  congruence.
Qed.

(** X23.  The level of the gauge is the level of the risk that is
    listed first: for risks of the four levels, the sorted list starts
    with a risk of the overall level.  The list is a rearrangement of
    the risks. *)
Theorem overall_level_first risks :
  risks <> [] ->
  Forall (fun r => level r ∈ ["critical"; "high"; "medium"; "low"]) risks ->
  exists first rest,
    _sortRisksByLevel risks = first :: rest
    /\ level first = _getOverallRiskLevel risks
    /\ Permutation (first :: rest) risks.
Proof.
  intros Hne Hvalid. unfold _sortRisksByLevel.
  pose proof (sort_by_perm (fun r => levelOrder (level r)) risks) as Hp.
  destruct (sort_by (fun r => levelOrder (level r)) risks) as [| first rest] eqn:Hs.
  { apply Permutation_nil in Hp. congruence. }
  exists first, rest. split; [reflexivity |]. split; [| exact Hp].
  apply sort_by_first in Hs as [Hin Hmin].
  rewrite Forall_forall in Hmin, Hvalid.
  assert (Hlevels : forall r, r ∈ risks ->
            level r = "critical" \/ level r = "high" \/ level r = "medium"
            \/ level r = "low").
  { intros r Hr. apply Hvalid in Hr.
    repeat (apply elem_of_cons in Hr as [-> | Hr]; [tauto |]). inversion Hr. }
  assert (Hleast : forall l r, r ∈ risks -> level r = l ->
            levelOrder (level first) <= levelOrder l).
  { intros l r Hr <-. now apply Hmin. }
  unfold _getOverallRiskLevel.
  destruct (has_level "critical" risks) eqn:Hc.
  { apply has_level_spec in Hc as (r & Hr & Hl). specialize (Hleast _ r Hr Hl).
    destruct (Hlevels first Hin) as [H | [H | [H | H]]]; rewrite H in Hleast |- *;
      vm_compute in Hleast; congruence. }
  pose proof (has_level_false _ _ first Hc Hin) as Hnc.
  destruct (has_level "high" risks) eqn:Hh.
  { apply has_level_spec in Hh as (r & Hr & Hl). specialize (Hleast _ r Hr Hl).
    destruct (Hlevels first Hin) as [H | [H | [H | H]]]; rewrite H in Hleast |- *;
      vm_compute in Hleast; congruence. }
  pose proof (has_level_false _ _ first Hh Hin) as Hnh.
  destruct (has_level "medium" risks) eqn:Hm.
  { apply has_level_spec in Hm as (r & Hr & Hl). specialize (Hleast _ r Hr Hl).
    destruct (Hlevels first Hin) as [H | [H | [H | H]]]; rewrite H in Hleast |- *;
      vm_compute in Hleast; congruence. }
  pose proof (has_level_false _ _ first Hm Hin) as Hnm.
  destruct (Hlevels first Hin) as [H | [H | [H | H]]]; congruence.
Qed.

Lemma overall_level_first_witness :
  exists first rest,
    _sortRisksByLevel [noRisk; mkRisk "high" JNull JNull] = first :: rest
    /\ level first = _getOverallRiskLevel [noRisk; mkRisk "high" JNull JNull]
    /\ Permutation (first :: rest) [noRisk; mkRisk "high" JNull JNull].
Proof.
  apply (overall_level_first [noRisk; mkRisk "high" JNull JNull]); [discriminate |].
  repeat constructor; set_solver.
Defined.

(** X24.  The risks of the static analysis are never empty and at most
    four; they are listed with the worst first, and the panel shows
    them in that order.  The gauge is critical exactly for code with
    "eval(" or "innerHTML", and it is low exactly when the one risk is
    the note that nothing was detected. *)
Theorem assessRisks_shape code complexity dependencies :
  let risks := assessRisks code complexity dependencies in
  (1 <= length risks <= 4)%nat
  /\ _sortRisksByLevel risks = risks
  /\ (exists first rest, risks = first :: rest /\ level first = _getOverallRiskLevel risks)
  /\ (_getOverallRiskLevel risks = "critical"
      <-> includes code "eval(" || includes code "innerHTML" = true)
  /\ (_getOverallRiskLevel risks = "low"
      <-> risks = [mkRisk "low" (JStr "No significant risks detected")
                     (JStr "Standard testing practices should be sufficient for changes.")]).
Proof.
  unfold assessRisks.
  destruct (String.eqb complexity "high" || String.eqb complexity "very-high");
    destruct (String.eqb complexity "very-high");
    destruct (10 <? length dependencies)%nat;
    destruct (includes code "window." || includes code "global." || includes code "globalThis.");
    destruct (includes code "eval(" || includes code "innerHTML");
    cbn -[pretty]; (split; [lia |]); (split; [reflexivity |]);
    (split; [eexists _, _; split; reflexivity |]);
    split; split; try reflexivity; try discriminate.
Qed.

(** X25.  The age of a cached report is shown in whole minutes below
    an hour and in whole hours from then on, and as "just now" below a
    minute, also for an age that is negative; so no age is shown as
    zero minutes or zero hours. *)
Theorem formatCacheAge_buckets ms :
  (ms < 60000 -> _formatCacheAge ms = "just now")
  /\ (60000 <= ms < 3600000 ->
      _formatCacheAge ms = pretty (ms / 60000) +:+ "m ago" /\ 1 <= ms / 60000 < 60)
  /\ (3600000 <= ms ->
      _formatCacheAge ms = pretty (ms / 3600000) +:+ "h ago" /\ 1 <= ms / 3600000).
Proof.
  unfold _formatCacheAge.
  assert (Hm : ms / 1000 / 60 = ms / 60000) by (rewrite Z.div_div; [reflexivity | lia | lia]).
  assert (Hh : ms / 1000 / 60 / 60 = ms / 3600000)
    by (rewrite !Z.div_div; [reflexivity | lia | lia | lia | lia]).
  rewrite Hh, Hm.
  split; [| split]; intros Hms.
  - replace (ms / 1000 <? 60) with true; [reflexivity |].
    symmetry. apply Z.ltb_lt. apply Z.div_lt_upper_bound; lia.
  - replace (ms / 1000 <? 60) with false
      by (symmetry; apply Z.ltb_ge, Z.div_le_lower_bound; lia).
    assert (1 <= ms / 60000 < 60)
      by (split; [apply Z.div_le_lower_bound | apply Z.div_lt_upper_bound]; lia).
    replace (ms / 60000 <? 60) with true by (symmetry; lia). now split.
  - replace (ms / 1000 <? 60) with false
      by (symmetry; apply Z.ltb_ge, Z.div_le_lower_bound; lia).
    assert (60 <= ms / 60000) by (apply Z.div_le_lower_bound; lia).
    replace (ms / 60000 <? 60) with false by (symmetry; lia).
    split; [reflexivity | apply Z.div_le_lower_bound; lia].
Qed.
End PanelFacts.

(** ** The analysis by the reasoning service and its fallback *)

Module AssistantFacts.
Import Js JsFacts Retry RetryFacts RetryMore RemoteFacts Summarizer Assistant.
Local Open Scope Z_scope.

Lemma from_first_open_app before rest :
  includes before "{" = false ->
  from_first_open (before +:+ String "{" rest) = Some (String "{" rest).
Proof.
  induction before as [| c before IH]; [now rewrite app_nil |].
  rewrite includes_char_cons, app_cons. intros [Hc Hb]%orb_false_iff.
  simpl. rewrite Ascii.eqb_sym, Hc. now apply IH.
Qed.

Lemma from_first_open_none text :
  includes text "{" = false -> from_first_open text = None.
Proof.
  induction text as [| c text IH]; [reflexivity |].
  rewrite includes_char_cons. intros [Hc Hb]%orb_false_iff.
  simpl. rewrite Ascii.eqb_sym, Hc. now apply IH.
Qed.

Lemma to_last_close_none text :
  includes text "}" = false -> to_last_close text = None.
Proof.
  induction text as [| c text IH]; [reflexivity |].
  rewrite includes_char_cons. intros [Hc Hb]%orb_false_iff.
  simpl. rewrite (IH Hb). now rewrite Ascii.eqb_sym, Hc.
Qed.

Lemma to_last_close_app body after :
  includes after "}" = false ->
  to_last_close (body +:+ String "}" after) = Some (body +:+ "}").
Proof.
  intros Ha. induction body as [| c body IH].
  - rewrite !app_nil. simpl. now rewrite (to_last_close_none after Ha).
  - rewrite !app_cons. simpl. now rewrite IH.
Qed.

(** X26.  The JSON is found inside the answer of the service: of a
    text with an object between a part without an opening brace and a
    part without a closing brace, the match is the object with its
    braces; a text without an opening brace has no match. *)
Theorem jsonMatch_extracts before body after :
  includes before "{" = false ->
  includes after "}" = false ->
  jsonMatch (before +:+ "{" +:+ body +:+ "}" +:+ after) = Some ("{" +:+ body +:+ "}")
  /\ jsonMatch before = None.
Proof.
  intros Hb Ha. unfold jsonMatch. split.
  - change ("{" +:+ body +:+ "}" +:+ after) with (String "{" (body +:+ String "}" after)).
    rewrite (from_first_open_app _ _ Hb). cbn [mbind option_bind].
    change (String "{" (body +:+ String "}" after))
      with (String "{" body +:+ String "}" after).
    now rewrite (to_last_close_app _ _ Ha).
  - now rewrite (from_first_open_none _ Hb).
Qed.

Lemma jsonMatch_extracts_witness :
  jsonMatch ("Here it is: " +:+ "{" +:+ "" +:+ "}" +:+ " as asked") = Some ("{" +:+ "" +:+ "}")
  /\ jsonMatch "Here it is: " = None.
Proof.
  apply (jsonMatch_extracts "Here it is: " "" " as asked"); reflexivity.
Defined.

Section Analyze.
Context {host : Host}.
Variable JSON_parse : string -> option json.
Variable typeError : Error.
Variable codeShape : string -> Shape.
Variable calculateComplexity : string -> string.
Variable extractDependencies : string -> list string.
Variable extractExports : string -> list string.
Variable inferPurposes : string -> string -> string -> list string.
Variable generatePurposeSummary : string -> list string -> string.
Variable service : nat -> option (thrown + string * string).

Abbreviation attempt := (attempt JSON_parse typeError service).
Abbreviation static :=
  (analyzeStatic' codeShape calculateComplexity extractDependencies extractExports
     inferPurposes generatePurposeSummary).
Abbreviation analyze :=
  (analyze JSON_parse typeError codeShape calculateComplexity extractDependencies
     extractExports inferPurposes generatePurposeSummary service).

Lemma world_after_attempt k n : world_after attempt k n = (n + k)%nat.
Proof.
  revert n. induction k as [| k IH]; intros n; simpl; [lia |].
  rewrite IH. lia.
Qed.

Lemma attempt_world opts fuel : forall a delay e n r,
  attempts attempt opts fuel a delay e n = Some r ->
  world r = (n + Z.to_nat (invocations r))%nat.
Proof.
  induction fuel as [| fuel IH]; intros a delay e n r; simpl;
    destruct (a <=? maxAttempts opts); try discriminate;
    try (intros [= <-]; unfold invocations; simpl; lia).
  unfold Assistant.attempt at 1.
  destruct (analyzeWithClaude JSON_parse typeError (service n)) as [error | v].
  - destruct (_ || _).
    + intros [= <-]. unfold invocations. simpl. lia.
    + destruct (attempts _ _ fuel _ _ _ _) as [r' |] eqn:Hr'; [| discriminate].
      intros [= <-].
      pose proof (attempts_bounds _ _ _ _ _ _ _ _ Hr') as [H _].
      apply IH in Hr'. unfold invocations in *. simpl in *. lia.
  - intros [= <-]. unfold invocations. simpl. lia.
Qed.

(** X27.  [analyze] always gives a result, after at most three
    requests to the service.  The result is the answer of one of these
    requests, mapped and validated, and then nothing is shown; or it is
    the static analysis, with a message.  Without a client no request
    is made. *)
Theorem analyze_falls_back client action code filePath (n : nat) :
  exists evs result (n' : nat),
    analyze client action code filePath n = (evs, result, n')
    /\ (n <= n' <= n + 3)%nat
    /\ (client = false -> n' = n)
    /\ ((evs = []
         /\ exists k : nat,
              (k < 3)%nat /\ n' = S (n + k)
              /\ analyzeWithClaude JSON_parse typeError (service (n + k)%nat) = inr result)
        \/ (evs <> [] /\ result = static code filePath)).
Proof.
  unfold Assistant.analyze. destruct client.
  - destruct (withRetry_total attempt analyzeOptions n) as [r Hr].
    rewrite Hr. unfold withRetry in Hr.
    pose proof (attempts_bounds _ _ _ _ _ _ _ _ Hr) as (Hn & Hone & _).
    pose proof (attempt_world _ _ _ _ _ _ _ Hr) as Hw. simpl in Hn, Hone.
    destruct (outcome r) as [error | result] eqn:Ho.
    + eexists _, _, _. split; [reflexivity |]. split; [lia |].
      split; [discriminate |]. right. split; [discriminate | reflexivity].
    + destruct (attempts_outcome _ _ _ _ _ _ _ _ _ Hr Ho) as (k & Hk & Hinv).
      rewrite world_after_attempt in Hk. unfold Assistant.attempt in Hk.
      injection Hk as Hres Hworld.
      eexists _, _, _. split; [reflexivity |]. split; [lia |].
      split; [discriminate |]. left. split; [reflexivity |].
      exists k. split; [lia |]. split; [now rewrite <- Hworld | exact Hres].
  - eexists _, _, _. split; [reflexivity |]. split; [lia |]. split; [reflexivity |].
    right. split; [discriminate | reflexivity].
Qed.

Lemma analyze_once error (n : nat) action code filePath :
  analyzeWithClaude JSON_parse typeError (service n) = inl (ThrownError error) ->
  defaultRetryable error = false ->
  analyze true action code filePath n
  = ([Warning (CLAUDE_API_FAILED +:+ " (" +:+ message error +:+ ")")],
     static code filePath, S n).
Proof.
  intros Herr Hnr. unfold Assistant.analyze, withRetry.
  destruct (attempts_reject attempt (merge defaultOptions analyzeOptions) 0 3%nat 1 1000
              (mkError "Unknown error") n (ThrownError error) (S n))
    as (r & Hr & Ho & Hw & _).
  - intros i Hi. lia.
  - simpl. unfold Assistant.attempt. now rewrite Herr.
  - exact Hnr.
  - simpl. lia.
  - lia.
  - simpl in Hr |- *. rewrite Hr, Ho, Hw. reflexivity.
Qed.

(** X28.  A request to the service that runs into the timer is not
    tried again, and neither is an answer that is not text or has no
    JSON that parses: after the one request the static analysis is
    given, with a warning that names the failure. *)
Theorem analyze_no_retry action code filePath (n : nat) :
  (service n = None ->
   analyze true action code filePath n
   = ([Warning (CLAUDE_API_FAILED +:+ " (Claude API request timed out)")],
      static code filePath, S n))
  /\ (forall type text,
        service n = Some (inr (type, text)) -> String.eqb type "text" = false ->
        analyze true action code filePath n
        = ([Warning (CLAUDE_API_FAILED +:+ " (Unexpected response type)")],
           static code filePath, S n))
  /\ (forall text,
        service n = Some (inr ("text", text)) -> jsonMatch text ≫= JSON_parse = None ->
        analyze true action code filePath n
        = ([Warning (CLAUDE_API_FAILED +:+ " (Failed to parse Claude analysis)")],
           static code filePath, S n)).
Proof.
  split; [| split].
  - intros Hs. apply (analyze_once (mkError "Claude API request timed out"));
      [| unfold defaultRetryable; simpl; lower_literals; reflexivity].
    unfold analyzeWithClaude. now rewrite Hs.
  - intros type text Hs Ht.
    apply (analyze_once (mkError "Unexpected response type"));
      [| unfold defaultRetryable; simpl; lower_literals; reflexivity].
    unfold analyzeWithClaude. rewrite Hs. simpl. now rewrite Ht.
  - intros text Hs Hp.
    apply (analyze_once (mkError "Failed to parse Claude analysis"));
      [| unfold defaultRetryable; simpl; lower_literals; reflexivity].
    unfold analyzeWithClaude. rewrite Hs. simpl. now rewrite Hp.
Qed.
End Analyze.

(** On the host of the samples *)
Section Samples.
#[local] Existing Instance posix_ascii.

Lemma analyze_no_retry_witness :
  Assistant.analyze (fun _ => None) (mkError "TypeError") (fun _ => Unknown)
    (fun _ => "low") (fun _ => []) (fun _ => []) (fun _ _ _ => []) (fun _ _ => "Code.")
    silent true NoAction "let x = 1;" "a.ts" 0%nat
  = ([Warning (CLAUDE_API_FAILED +:+ " (Claude API request timed out)")],
     analyzeStatic' (fun _ => Unknown) (fun _ => "low") (fun _ => []) (fun _ => [])
       (fun _ _ _ => []) (fun _ _ => "Code.") "let x = 1;" "a.ts",
     1%nat).
Proof.
  destruct (analyze_no_retry (fun _ => None) (mkError "TypeError") (fun _ => Unknown)
              (fun _ => "low") (fun _ => []) (fun _ => []) (fun _ _ _ => [])
              (fun _ _ => "Code.") silent NoAction "let x = 1;" "a.ts" 0%nat)
    as (Hlate & _).
  apply Hlate. reflexivity.
Defined.
End Samples.

End AssistantFacts.

(** ** The ownership statistics: what the grouping keeps *)

Module OwnersFacts.
Import Js JsFacts History HistoryFacts.
Local Open Scope Z_scope.

(** X29.  Ownership keeps what it groups: the lines changed of the
    owners add up to those of the commits, no owner is listed twice
    (an owner is known by the e-mail address, or by the name when there
    is no address), and the owners are those of the commits, so there
    are no more owners than commits. *)
Theorem ownership_conserves (log : list CommitInfo) :
  sum_of (fun o => o_linesChanged (owner o)) (calculateOwnership log) = sum_of linesChanged log
  /\ NoDup (map (fun o => owner_id (owner o)) (calculateOwnership log))
  /\ (forall key,
        key ∈ map (fun o => owner_id (owner o)) (calculateOwnership log)
        <-> exists commit, commit ∈ log /\ owner_key commit = key)
  /\ (length (calculateOwnership log) <= length log)%nat.
Proof.
  unfold calculateOwnership, group_commits.
  destruct (fold_record_keeps log []) as (Hs & Hn & Hi & Hk); [constructor | constructor |].
  set (ownerMap := fold_left _ log []) in *.
  set (t := Z.of_nat (length log)).
  pose proof (sort_by_perm by_commits_desc (map (with_percentage t) (map snd ownerMap)))
    as Hperm.
  assert (Hids : map (fun o => owner_id (owner o)) (map (with_percentage t) (map snd ownerMap))
                 = map fst ownerMap).
  { rewrite !map_map. simpl. clear -Hi.
    induction Hi as [| e l He _ IH]; simpl; [reflexivity |]. now rewrite He, IH. }
  assert (Hcount : sum_of commits (map snd ownerMap) = Z.of_nat (length log)).
  { subst ownerMap. rewrite fold_record_sum. simpl. lia. }
  assert (Hpos : Forall (fun o => 1 <= commits o) (map snd ownerMap)).
  { subst ownerMap. apply fold_record_positive. constructor. }
  split; [| split; [| split]].
  - rewrite (sum_of_perm _ _ _ Hperm).
    assert (Hlines : forall l : list Owner,
              sum_of (fun o => o_linesChanged (owner o)) (map (with_percentage t) l)
              = sum_of o_linesChanged l).
    { clear. induction l as [| o l IH]; simpl; [reflexivity |]. simpl in IH. lia. }
    rewrite Hlines, Hs. simpl. lia.
  - rewrite (Permutation_map _ Hperm), Hids. exact Hn.
  - intros key. rewrite (Permutation_map _ Hperm), Hids, Hk. split.
    + intros [H | H]; [inversion H | exact H].
    + intros H. now right.
  - rewrite (Permutation_length Hperm), !length_map.
    assert (Hle : forall l : list Owner,
              Forall (fun o => 1 <= commits o) l -> Z.of_nat (length l) <= sum_of commits l).
    { clear. induction 1 as [| o l Ho _ IH]; simpl; lia. }
    specialize (Hle _ Hpos). rewrite length_map in Hle. lia.
Qed.
End OwnersFacts.

(** ** The commits of the log *)

Module LogFacts.
Import Js JsFacts RemoteFacts PanelFacts History Log.
Local Open Scope Z_scope.

Lemma split_char_plain sep s :
  includes s (String sep "") = false -> split_char sep s = [s].
Proof.
  induction s as [| c s IH]; [reflexivity |].
  rewrite includes_char_cons. intros [Hc Hs]%orb_false_iff.
  simpl. rewrite Ascii.eqb_sym, Hc, (IH Hs). reflexivity.
Qed.

Lemma split_char_app sep a b :
  includes a (String sep "") = false ->
  split_char sep (a +:+ String sep b) = a :: split_char sep b.
Proof.
  induction a as [| c a IH]; intros Ha.
  - rewrite app_nil. simpl. now rewrite Ascii.eqb_refl.
  - rewrite includes_char_cons in Ha. apply orb_false_iff in Ha as [Hc Ha].
    rewrite app_cons. simpl. rewrite Ascii.eqb_sym, Hc, (IH Ha). reflexivity.
Qed.

Lemma split_join sep lines :
  lines <> [] ->
  Forall (fun line => includes line (String sep "") = false) lines ->
  split_char sep (join sep lines) = lines.
Proof.
  intros Hne Hall. induction Hall as [| line rest Hline Hrest IH]; [contradiction |].
  destruct rest as [| line' rest].
  - simpl. now apply split_char_plain.
  - change (join sep (line :: line' :: rest))
      with (line +:+ String sep (join sep (line' :: rest))).
    rewrite (split_char_app _ _ _ Hline), IH; [reflexivity | discriminate].
Qed.

Lemma format_fields c :
  wellformed c ->
  split_char "|" (format c)
  = [hash c; shortHash c; author c; authorEmail c; date c; message c]
  /\ includes (format c) "|" = true
  /\ includes (format c) (String newline "") = false.
Proof.
  intros (_ & _ & _ & [Hh Hh'] & [Hs Hs'] & [Ha Ha'] & [He He'] & [Hd Hd'] & [Hm Hm'] & _).
  unfold format. split; [| split].
  - rewrite !(app_cons "|"), !app_nil.
    repeat (rewrite split_char_app by assumption). now rewrite split_char_plain.
  - apply (includes_app (hash c) "|").
  - rewrite !includes_char_app, Hh', Hs', Ha', He', Hd', Hm'. reflexivity.
Qed.

Lemma parseLine_format c : wellformed c -> parseLine (format c) = Some c.
Proof.
  intros Hw. destruct (format_fields c Hw) as (Hf & _).
  destruct Hw as (Hh & Hs & Ha & _ & _ & _ & _ & _ & _ & Hl).
  unfold parseLine. rewrite Hf. destruct c as [h s a e d m l]. simpl in *.
  destruct h; [contradiction |]. destruct s; [contradiction |].
  destruct a; [contradiction |]. subst l. simpl.
  now destruct e, d, m.
Qed.

Lemma keep_format commits :
  Forall wellformed commits ->
  keep parseLine (List.filter (fun line => includes line "|") (map format commits)) = commits.
Proof.
  induction 1 as [| c commits Hc _ IH]; [reflexivity |].
  simpl. destruct (format_fields c Hc) as (_ & -> & _).
  simpl. now rewrite (parseLine_format c Hc), IH.
Qed.

Section AnyHost.
Context {host : Host}.

(** X30.  The history of the lines is read back: when the output of
    git, without the white space at its ends, is the lines of commits
    whose fields have no bar and no line break and whose hashes and
    author are not empty, [getCommits] gives these commits, in their
    order, with no lines changed. *)
Theorem getCommits_reads_back commits output fileHistory :
  Forall wellformed commits ->
  trim output = join newline (map format commits) ->
  includes output "COMMIT_START" = false ->
  getCommits (Some output) fileHistory = commits.
Proof.
  intros Hw Htrim Hsimple. unfold getCommits, parseLog. rewrite Htrim, Hsimple.
  destruct commits as [| c commits]; [reflexivity |].
  assert (Hne : join newline (map format (c :: commits)) <> "").
  { inversion Hw as [| ? ? (Hh & _) _]; subst.
    assert (Hline : format c <> "").
    { unfold format. destruct (hash c); [contradiction |]. rewrite app_cons. discriminate. }
    cbn [map]. destruct (format c) as [| x line]; [contradiction |].
    destruct (map format commits); cbn [join]; rewrite ?app_cons; discriminate. }
  destruct (String.eqb_spec (join newline (map format (c :: commits))) "");
    [contradiction |].
  rewrite split_join.
  - now apply keep_format.
  - discriminate.
  - apply Forall_fmap. eapply Forall_impl; [exact Hw |].
    intros x Hx. now apply format_fields.
Qed.
End AnyHost.

(** On the host of the samples *)
Section Samples.
#[local] Existing Instance posix_ascii.

Lemma getCommits_reads_back_witness :
  getCommits (Some sample_output) None = sample_log.
Proof.
  apply (getCommits_reads_back sample_log sample_output None).
  - repeat constructor; try discriminate; reflexivity.
  - reflexivity.
  - reflexivity.
Defined.
End Samples.

End LogFacts.
